(** * Financials: the aggregation engine of [analyzeData] and the CSV export

    A shallow embedding of the analysis engine of the Project Financials
    server (function [analyzeData], with [generateCSV] and the CSV line
    reader of [loadExistingExclusions]) and the properties of it that the
    specification states.

    Modelling conventions.
    - JavaScript strings are [string]s over the ASCII range.  White space
      (what [trim] strips and the class [\s] matches) is the ASCII part of
      it: space, tab, line feed, vertical tab, form feed, carriage return.
      [toLowerCase] maps [A-Z] to [a-z].
    - JavaScript numbers are exact rationals [Q]; the rounding of IEEE
      doubles and the text produced by [toFixed] are outside the model.
      Sums of hours are therefore the sums of the code only where its
      additions are exact, as on whole numbers in the safe range
      ([isSafeInteger]); statements about totals of hours say so.
      [parseFloat] of a cell is an [option Q], [None] standing for [NaN].
    - The accumulator objects ([consultants], [solutionArchitects],
      [customers], [allCustomers]) are finite maps keyed by the name; the
      set [practiceProjects] is a finite set.  For a name that collides
      with a member every JavaScript object inherits the code raises a
      TypeError: [aggregateOrThrow] adds this failure to the passes, and
      [aggregateOrThrow_spec] tells when it happens.
    - [exclusions.csv] is read through a cache: [loadExistingExclusions]
      works on the file, its time stamp and the two cache variables. *)

From Stdlib Require Import Ascii QArith Qabs Qminmax Lqa.
From stdpp Require Import gmap strings list fin_maps sorting.

Local Open Scope bool_scope.

(* ===================================================================== *)
(** * Strings *)
(* ===================================================================== *)

Module JsString.

Definition dquote : ascii := Ascii.ascii_of_nat 34.
Definition comma : ascii := Ascii.ascii_of_nat 44.
Definition space : ascii := Ascii.ascii_of_nat 32.

(** The ASCII members of the white-space class. *)
Definition is_space (c : ascii) : bool :=
  let n := Ascii.nat_of_ascii c in
  Nat.eqb n 32 || (Nat.leb 9 n && Nat.leb n 13).

Definition lower_ascii (c : ascii) : ascii :=
  let n := Ascii.nat_of_ascii c in
  if Nat.leb 65 n && Nat.leb n 90 then Ascii.ascii_of_nat (n + 32) else c.

(** [s.toLowerCase()] *)
Fixpoint toLowerCase (s : string) : string :=
  match s with
  | EmptyString => EmptyString
  | String c s' => String (lower_ascii c) (toLowerCase s')
  end.

Definition is_empty (s : string) : bool :=
  match s with EmptyString => true | String _ _ => false end.

Fixpoint trimStart (s : string) : string :=
  match s with
  | EmptyString => EmptyString
  | String c s' => if is_space c then trimStart s' else s
  end.

Fixpoint trimEnd (s : string) : string :=
  match s with
  | EmptyString => EmptyString
  | String c s' =>
      let t := trimEnd s' in
      if is_space c && is_empty t then EmptyString else String c t
  end.

(** [s.trim()] *)
Definition trim (s : string) : string := trimEnd (trimStart s).

(** [s.replace(/\s+/g, ' ')]: [in_run] tells that the previous
    character was white space, whose run has already been replaced. *)
Fixpoint collapse (in_run : bool) (s : string) : string :=
  match s with
  | EmptyString => EmptyString
  | String c s' =>
      if is_space c
      then (if in_run then collapse true s' else String space (collapse true s'))
      else String c (collapse false s')
  end.

Definition collapseSpaces (s : string) : string := collapse false s.

(** [s.split(sep)] for a one-character separator: never the empty
    list, the empty string splits into one empty piece. *)
Fixpoint split (sep : ascii) (s : string) : list string :=
  match s with
  | EmptyString => [EmptyString]
  | String c s' =>
      if Ascii.eqb c sep then EmptyString :: split sep s'
      else match split sep s' with
           | h :: t => String c h :: t
           | [] => [String c EmptyString]
           end
  end.

Fixpoint startsWith (s t : string) {struct t} : bool :=
  match t, s with
  | EmptyString, _ => true
  | String _ _, EmptyString => false
  | String b t', String a s' => Ascii.eqb a b && startsWith s' t'
  end.

(** [s.includes(t)] *)
Fixpoint includes (s t : string) : bool :=
  startsWith s t ||
  match s with
  | EmptyString => false
  | String _ s' => includes s' t
  end.

(** [s === t] on strings *)
Definition eqb (s t : string) : bool := String.eqb s t.

(** [t] occurs in [s] as a contiguous block. *)
Definition substring_of (t s : string) : Prop :=
  exists pre post : string, s = pre +:+ t +:+ post.

End JsString.

Import JsString.

(* ===================================================================== *)
(** * Rows, filters and configuration *)
(* ===================================================================== *)

(** One spreadsheet line.  A text cell that is absent is the empty string
    (the code reads each with [|| '']); the two hour cells hold the result
    of [parseFloat]. *)
Record Row := {
  jobNumber : string;            (* row['Job Number'] *)
  jobDescription : string;       (* row['Job Description'] *)
  customer : string;             (* row['Customer'] *)
  budgetField : option Q;        (* parseFloat(row['Budget Hrs']) *)
  totalHrsField : option Q;      (* parseFloat(row['Total Hrs Posted']) *)
  resourcesEngaged : string;     (* row['Resources Engaged'] *)
  solutionArchitect : string;    (* row['Solution Architect'] *)
  projectStatus : string;        (* row['Project Status'] *)
  projectComplete : Q            (* row['Project Complete %'] || 0 *)
}.

Record Exclusion := {
  excl_consultant : string;
  excl_project : string;
  excl_reason : string
}.

(** [filters]: each member may be absent ([None]). *)
Record Filters := {
  filter_engineers : option (list string);          (* filters.engineers *)
  filter_solutionArchitects : option (list string); (* filters.solutionArchitects *)
  filter_exclusions : option (list Exclusion)       (* filters.exclusions *)
}.

Definition noFilters : Filters :=
  {| filter_engineers := None; filter_solutionArchitects := None;
     filter_exclusions := None |}.

(** [parseFloat(x) || 0]: [NaN] and [0] are both falsy. *)
Definition orZero (x : option Q) : Q :=
  match x with
  | Some q => q
  | None => 0%Q
  end.

Definition budgetHrs (row : Row) : Q := orZero (budgetField row).
Definition actualHrs (row : Row) : Q := orZero (totalHrsField row).

(** [0 < q] as the test the code makes. *)
Definition Qpositive (q : Q) : bool := negb (Qle_bool q 0).

(** The two inline copies of the allow-list test in pass 1: the callback
    of [some], then the guarded test around it. *)
Definition engineerMatches (consultant eng : string) : bool :=
  let normalizedConsultant := trim (toLowerCase consultant) in
  let normalizedEng := trim (toLowerCase eng) in
  JsString.eqb normalizedEng normalizedConsultant
  || includes normalizedConsultant normalizedEng
  || includes normalizedEng normalizedConsultant.

Definition engineerFilterPasses (filters : Filters) (consultant : string) : bool :=
  match filter_engineers filters with
  | Some (e :: l) => existsb (engineerMatches consultant) (e :: l)
  | _ => true
  end.

Definition saMatches (sa filterSA : string) : bool :=
  let normalizedSA := trim (toLowerCase sa) in
  let normalizedFilterSA := trim (toLowerCase filterSA) in
  JsString.eqb normalizedFilterSA normalizedSA
  || includes normalizedSA normalizedFilterSA
  || includes normalizedFilterSA normalizedSA.

Definition saFilterPasses (filters : Filters) (sa : string) : bool :=
  match filter_solutionArchitects filters with
  | Some (e :: l) => existsb (saMatches sa) (e :: l)
  | _ => true
  end.

(** [filters.exclusions && filters.exclusions.some(...)] *)
Definition isExcluded (filters : Filters) (consultant jobNumber : string) : bool :=
  match filter_exclusions filters with
  | Some l =>
      existsb (fun excl =>
        JsString.eqb (trim (toLowerCase (excl_consultant excl)))
                     (trim (toLowerCase consultant))
        && JsString.eqb (trim (excl_project excl)) (trim jobNumber)) l
  | None => false
  end.

(** [field.split(',').map(normalise).filter(name => name !== null)]:
    a piece is kept when, trimmed and with its inner white space
    collapsed, it is longer than one character. *)
Definition normalizeName (name : string) : option string :=
  let normalized := collapseSpaces (trim name) in
  if Nat.ltb 1 (String.length normalized) then Some normalized else None.

Definition nameList (field : string) : list string :=
  omap normalizeName (split comma field).

(** The allow-list rule in the specification's words. *)
Definition passesAllowList (allowList : option (list string)) (name : string) : Prop :=
  allowList = None \/ allowList = Some [] \/
  exists l entry, allowList = Some l /\ In entry l /\
    let e := trim (toLowerCase entry) in
    let n := trim (toLowerCase name) in
    e = n \/ substring_of e n \/ substring_of n e.

(** [config.thresholds?.success_threshold]: what the member can hold. *)
Inductive JsNumberish :=
| JsUndefined
| JsNull
| JsNaN
| JsNumber (q : Q).

Record Thresholds := {
  success_threshold : JsNumberish
}.

Record Config := {
  thresholds : option Thresholds  (* None: no [thresholds] object *)
}.

(** [getDefaultConfig()], the member the engine reads. *)
Definition defaultConfig : Config :=
  {| thresholds := Some {| success_threshold := JsNumber (3 # 10) |} |}.

(** [config.thresholds?.success_threshold || 0.3]: every falsy value,
    the number zero among them, gives way to the default. *)
Definition successThresholdOf (config : Config) : Q :=
  match thresholds config with
  | Some {| success_threshold := JsNumber q |} =>
      if Qeq_bool q 0 then 3 # 10 else q
  | _ => 3 # 10
  end.

(* ===================================================================== *)
(** * Accumulators *)
(* ===================================================================== *)

(** The snapshot pushed on [projectDetails] of a consultant or an SA.
    [variance] is the percentage before [toFixed(1)] renders it. *)
Record ProjectDetail := {
  pd_jobNumber : string;
  pd_description : string;
  pd_customer : string;
  pd_budgetHrs : Q;
  pd_actualHrs : Q;
  pd_variance : Q;
  pd_status : string;
  pd_completion : Q
}.

(** The snapshot pushed on [projectDetails] of a customer. *)
Record CustomerProjectDetail := {
  cpd_jobNumber : string;
  cpd_description : string;
  cpd_budgetHrs : Q;
  cpd_actualHrs : Q;
  cpd_variance : Q;
  cpd_status : string;
  cpd_completion : Q;
  cpd_resources : string;
  cpd_solutionArchitect : string
}.

Module Consultant.
Record t := {
  projects : nat;
  totalHours : Q;
  withinBudget : nat;
  overBudget : nat;
  projectDetails : list ProjectDetail
}.
Definition fresh : t :=
  {| projects := 0; totalHours := 0; withinBudget := 0; overBudget := 0;
     projectDetails := [] |}.
End Consultant.

Module SA.
Record t := {
  projects : nat;
  totalBudgetedHours : Q;
  totalActualHours : Q;
  successfulProjects : nat;
  projectDetails : list ProjectDetail
}.
Definition fresh : t :=
  {| projects := 0; totalBudgetedHours := 0; totalActualHours := 0;
     successfulProjects := 0; projectDetails := [] |}.
End SA.

Module Customer.
Record t := {
  projects : nat;
  totalBudgetHrs : Q;
  totalActualHrs : Q;
  totalVariance : Q;
  withinBudget : nat;
  overBudget : nat;
  projectDetails : list CustomerProjectDetail
}.
Definition fresh : t :=
  {| projects := 0; totalBudgetHrs := 0; totalActualHrs := 0;
     totalVariance := 0; withinBudget := 0; overBudget := 0;
     projectDetails := [] |}.
End Customer.

(** The five objects [analyzeData] fills, and a ghost member:
    [varianceDivisors] receives the divisor each time the expression
    [(actualHrs - budgetHrs) / budgetHrs] is evaluated.  The code has no
    such list; it only records where the division happens. *)
Record Accumulators := {
  consultants : gmap string Consultant.t;
  solutionArchitects : gmap string SA.t;
  customers : gmap string Customer.t;
  allCustomers : gmap string Customer.t;
  practiceProjects : gset string;
  varianceDivisors : list Q
}.

Definition emptyAccumulators : Accumulators :=
  {| consultants := ∅; solutionArchitects := ∅; customers := ∅;
     allCustomers := ∅; practiceProjects := ∅; varianceDivisors := [] |}.

(** [(actualHrs - budgetHrs) / budgetHrs] *)
Definition variance (actualHrs budgetHrs : Q) : Q :=
  ((actualHrs - budgetHrs) / budgetHrs)%Q.

(** [variance <= successThreshold] *)
Definition isWithinBudget (variance successThreshold : Q) : bool :=
  Qle_bool variance successThreshold.

Definition projectDetailOf (row : Row) : ProjectDetail :=
  {| pd_jobNumber := jobNumber row;
     pd_description := jobDescription row;
     pd_customer := customer row;
     pd_budgetHrs := budgetHrs row;
     pd_actualHrs := actualHrs row;
     pd_variance := (variance (actualHrs row) (budgetHrs row) * 100)%Q;
     pd_status := projectStatus row;
     pd_completion := projectComplete row |}.

(** One accepted contribution of [row] to a consultant's accumulator:
    lines 730-749. *)
Definition creditConsultant (successThreshold : Q) (row : Row)
    (c : Consultant.t) : Consultant.t :=
  let within := isWithinBudget (variance (actualHrs row) (budgetHrs row))
                               successThreshold in
  {| Consultant.projects := S (Consultant.projects c);
     Consultant.totalHours := (Consultant.totalHours c + actualHrs row)%Q;
     Consultant.withinBudget :=
       if within then S (Consultant.withinBudget c) else Consultant.withinBudget c;
     Consultant.overBudget :=
       if within then Consultant.overBudget c else S (Consultant.overBudget c);
     Consultant.projectDetails :=
       Consultant.projectDetails c ++ [projectDetailOf row] |}.

(** One accepted contribution of [row] to an SA's accumulator:
    lines 788-806. *)
Definition creditSA (successThreshold : Q) (row : Row) (s : SA.t) : SA.t :=
  let within := isWithinBudget (variance (actualHrs row) (budgetHrs row))
                               successThreshold in
  {| SA.projects := S (SA.projects s);
     SA.totalBudgetedHours := (SA.totalBudgetedHours s + budgetHrs row)%Q;
     SA.totalActualHours := (SA.totalActualHours s + actualHrs row)%Q;
     SA.successfulProjects :=
       if within then S (SA.successfulProjects s) else SA.successfulProjects s;
     SA.projectDetails := SA.projectDetails s ++ [projectDetailOf row] |}.

(** The body of [consultantList.forEach]; the boolean is the local
    [isPracticeProject].  The variance expression is evaluated twice per
    contribution, for the snapshot and for the budget test, hence the two
    divisors recorded.  This is the step for a name that is not an
    inherited member of the object; [consultantStepOrThrow] adds the
    failure on the others. *)
Definition consultantStep (filters : Filters) (successThreshold : Q) (row : Row)
    (st : Accumulators * bool) (consultant : string) : Accumulators * bool :=
  if negb (engineerFilterPasses filters consultant) then st
  else if isExcluded filters consultant (jobNumber row) then st
  else
    let acc := fst st in
    let current := default Consultant.fresh (consultants acc !! consultant) in
    ({| consultants :=
          <[consultant := creditConsultant successThreshold row current]>
            (consultants acc);
        solutionArchitects := solutionArchitects acc;
        customers := customers acc;
        allCustomers := allCustomers acc;
        practiceProjects := practiceProjects acc;
        varianceDivisors :=
          varianceDivisors acc ++ [budgetHrs row; budgetHrs row] |},
     true).

(** The body of [saList.forEach], for a name that is not an inherited
    member of the object; [saStepOrThrow] adds the failure on the
    others. *)
Definition saStep (filters : Filters) (successThreshold : Q) (row : Row)
    (st : Accumulators * bool) (sa : string) : Accumulators * bool :=
  if negb (saFilterPasses filters sa) then st
  else
    let acc := fst st in
    let current := default SA.fresh (solutionArchitects acc !! sa) in
    ({| consultants := consultants acc;
        solutionArchitects :=
          <[sa := creditSA successThreshold row current]> (solutionArchitects acc);
        customers := customers acc;
        allCustomers := allCustomers acc;
        practiceProjects := practiceProjects acc;
        varianceDivisors :=
          varianceDivisors acc ++ [budgetHrs row; budgetHrs row] |},
     true).

(** The consultant block of a row of pass 1 (lines 688-751). *)
Definition consultantBlock (filters : Filters) (successThreshold : Q) (row : Row)
    (st : Accumulators * bool) : Accumulators * bool :=
  let resources := resourcesEngaged row in
  if negb (is_empty resources) && Qpositive (budgetHrs row)
  then fold_left (consultantStep filters successThreshold row)
                 (nameList resources) st
  else st.

(** The solution-architect block of a row of pass 1 (lines 754-808). *)
Definition saBlock (filters : Filters) (successThreshold : Q) (row : Row)
    (st : Accumulators * bool) : Accumulators * bool :=
  let saField := solutionArchitect row in
  if negb (is_empty saField) && negb (is_empty (trim saField))
     && Qpositive (budgetHrs row)
  then fold_left (saStep filters successThreshold row) (nameList saField) st
  else st.

Definition markPractice (job : string) (acc : Accumulators) : Accumulators :=
  {| consultants := consultants acc;
     solutionArchitects := solutionArchitects acc;
     customers := customers acc;
     allCustomers := allCustomers acc;
     practiceProjects := {[ job ]} ∪ practiceProjects acc;
     varianceDivisors := varianceDivisors acc |}.

(** The callback of the first [data.forEach]. *)
Definition pass1Row (filters : Filters) (successThreshold : Q)
    (acc : Accumulators) (row : Row) : Accumulators :=
  let st := saBlock filters successThreshold row
              (consultantBlock filters successThreshold row (acc, false)) in
  if snd st then markPractice (jobNumber row) (fst st) else fst st.

Definition customerDetailOf (row : Row) : CustomerProjectDetail :=
  {| cpd_jobNumber := jobNumber row;
     cpd_description := jobDescription row;
     cpd_budgetHrs := budgetHrs row;
     cpd_actualHrs := actualHrs row;
     cpd_variance := (variance (actualHrs row) (budgetHrs row) * 100)%Q;
     cpd_status := projectStatus row;
     cpd_completion := projectComplete row;
     cpd_resources := resourcesEngaged row;
     cpd_solutionArchitect := solutionArchitect row |}.

(** One row accumulated into a customer's accumulator: lines 839-860 for
    the company map, 876-897 for the practice map. *)
Definition creditCustomer (successThreshold : Q) (row : Row)
    (c : Customer.t) : Customer.t :=
  let v := variance (actualHrs row) (budgetHrs row) in
  let within := isWithinBudget v successThreshold in
  {| Customer.projects := S (Customer.projects c);
     Customer.totalBudgetHrs := (Customer.totalBudgetHrs c + budgetHrs row)%Q;
     Customer.totalActualHrs := (Customer.totalActualHrs c + actualHrs row)%Q;
     Customer.totalVariance := (Customer.totalVariance c + v * 100)%Q;
     Customer.withinBudget :=
       if within then S (Customer.withinBudget c) else Customer.withinBudget c;
     Customer.overBudget :=
       if within then Customer.overBudget c else S (Customer.overBudget c);
     Customer.projectDetails :=
       Customer.projectDetails c ++ [customerDetailOf row] |}.

(** The write to [allCustomers[customerName]] or
    [customers[customerName]], for a name that is not an inherited
    member of the object; [pass2RowOrThrow] adds the failure on the
    others. *)
Definition creditCustomerIn (successThreshold : Q) (row : Row) (name : string)
    (m : gmap string Customer.t) : gmap string Customer.t :=
  <[name := creditCustomer successThreshold row
              (default Customer.fresh (m !! name))]> m.

(** [row['Customer'] || 'Unknown'] *)
Definition customerNameOf (row : Row) : string :=
  if is_empty (customer row) then "Unknown" else customer row.

(** The guard of pass 2:
    [customerName && customerName.trim() && budgetHrs > 0]. *)
Definition pass2Guard (row : Row) : bool :=
  let customerName := customerNameOf row in
  negb (is_empty customerName) && negb (is_empty (trim customerName))
  && Qpositive (budgetHrs row).

(** The callback of the second [data.forEach]. *)
Definition pass2Row (successThreshold : Q)
    (acc : Accumulators) (row : Row) : Accumulators :=
  let customerName := customerNameOf row in
  if pass2Guard row then
    {| consultants := consultants acc;
       solutionArchitects := solutionArchitects acc;
       customers :=
         if decide (jobNumber row ∈ practiceProjects acc)
         then creditCustomerIn successThreshold row customerName (customers acc)
         else customers acc;
       allCustomers :=
         creditCustomerIn successThreshold row customerName (allCustomers acc);
       practiceProjects := practiceProjects acc;
       varianceDivisors := varianceDivisors acc ++ [budgetHrs row] |}
  else acc.

Definition pass1 (filters : Filters) (successThreshold : Q)
    (data : list Row) (acc : Accumulators) : Accumulators :=
  fold_left (pass1Row filters successThreshold) data acc.

Definition pass2 (successThreshold : Q)
    (data : list Row) (acc : Accumulators) : Accumulators :=
  fold_left (pass2Row successThreshold) data acc.

(** The two passes of [analyzeData] over [data], from empty objects. *)
Definition aggregate (data : list Row) (filters : Filters) (config : Config)
    : Accumulators :=
  let successThreshold := successThresholdOf config in
  pass2 successThreshold data
    (pass1 filters successThreshold data emptyAccumulators).

Definition mkRow (job cust : string) (budget actual : Q)
    (resources sa status : string) (complete : Q) : Row :=
  {| jobNumber := job; jobDescription := EmptyString; customer := cust;
     budgetField := Some budget; totalHrsField := Some actual;
     resourcesEngaged := resources; solutionArchitect := sa;
     projectStatus := status; projectComplete := complete |}.

(* ===================================================================== *)
(** * Derived metrics *)
(* ===================================================================== *)

Definition Qnat (n : nat) : Q := inject_Z (Z.of_nat n).

(** [a < b] on numbers. *)
Definition Qlt_bool (a b : Q) : bool := negb (Qle_bool b a).

(** An element of [consultantMetrics]; the two rates are the numbers that
    [toFixed(1)] then renders. *)
Record ConsultantMetrics := {
  cm_name : string;
  cm_projects : nat;
  cm_hours : Q;
  cm_successRate : Q;
  cm_efficiencyScore : Q;
  cm_withinBudget : nat;
  cm_overBudget : nat;
  cm_projectDetails : list ProjectDetail
}.

Definition consultantMetricsOf (name : string) (consultant : Consultant.t)
    : ConsultantMetrics :=
  let successRate :=
    (Qnat (Consultant.withinBudget consultant)
       / Qnat (Consultant.projects consultant) * 100)%Q in
  let efficiencyScore :=
    (Qnat (Consultant.withinBudget consultant)
       / Qnat (Consultant.projects consultant) * 100)%Q in
  {| cm_name := name;
     cm_projects := Consultant.projects consultant;
     cm_hours := Consultant.totalHours consultant;
     cm_successRate := successRate;
     cm_efficiencyScore := efficiencyScore;
     cm_withinBudget := Consultant.withinBudget consultant;
     cm_overBudget := Consultant.overBudget consultant;
     cm_projectDetails := Consultant.projectDetails consultant |}.

(** [Object.keys(consultants).map(...)]; the order of the keys and the
    final sort are not modelled, the list is one entry per key. *)
Definition consultantMetrics (acc : Accumulators) : list ConsultantMetrics :=
  (fun kv => consultantMetricsOf (fst kv) (snd kv))
    <$> map_to_list (consultants acc).

(** ** DAS+ *)

(** The completion normalisation of lines 1028-1035. *)
Definition completionRatioOf (project : ProjectDetail) : Q :=
  let completionRatio := pd_completion project in
  let status := pd_status project in
  if negb (is_empty status)
     && (includes (toLowerCase status) "closed"
         || includes (toLowerCase status) "complete")
  then 1
  else if Qle_bool (95 # 100) completionRatio then 1
  else completionRatio.

(** The callback of [consultant.projectDetails.map] (lines 1026-1039). *)
Definition dasScore (project : ProjectDetail) : Q :=
  let budgetRatio := (pd_actualHrs project / pd_budgetHrs project)%Q in
  let completionRatio := completionRatioOf project in
  let score := (1 - Qabs (budgetRatio - completionRatio))%Q in
  Qmax 0 (Qmin 1 score).

Definition dasScores (consultant : Consultant.t) : list Q :=
  dasScore <$> Consultant.projectDetails consultant.

#[local] Instance Qle_rel_dec : RelDecision Qle.
Proof.
  intros x y. destruct (Qle_bool x y) eqn:E.
  - left. apply Qle_bool_iff. exact E.
  - right. intros H. apply Qle_bool_iff in H. congruence.
Defined.

(** [[...dasScores].sort((a, b) => a - b)] *)
Definition sortAscending (scores : list Q) : list Q := merge_sort Qle scores.

(** [sortedScores[Math.floor(sortedScores.length / 2)]]; [None] is the
    [undefined] of an index out of range. *)
Definition medianOf (scores : list Q) : option Q :=
  let sortedScores := sortAscending scores in
  sortedScores !! (length sortedScores / 2)%nat.

(** [dasScores.reduce((sum, score) => sum + score, 0) / dasScores.length] *)
Definition averageOf (scores : list Q) : Q :=
  (fold_left Qplus scores 0 / Qnat (length scores))%Q.

Record DasEntry := {
  das_name : string;
  das_projects : nat;
  das_avgDAS : Q;
  das_medianDAS : option Q;
  das_lowCount : nat;
  das_highCount : nat;
  das_reviewCount : nat
}.

Definition dasEntryOf (name : string) (consultant : Consultant.t) : DasEntry :=
  let scores := dasScores consultant in
  {| das_name := name;
     das_projects := Consultant.projects consultant;
     das_avgDAS := averageOf scores;
     das_medianDAS := medianOf scores;
     das_lowCount :=
       length (List.filter (fun score => Qlt_bool score (75 # 100)) scores);
     das_highCount :=
       length (List.filter (fun score => Qle_bool (85 # 100) score) scores);
     das_reviewCount :=
       length (List.filter (fun score =>
                 Qle_bool (3 # 10) score && Qle_bool score (9 # 10)) scores) |}.

Definition dasAnalysis (acc : Accumulators) : list DasEntry :=
  (fun kv => dasEntryOf (fst kv) (snd kv)) <$> map_to_list (consultants acc).

(** ** Customer risk *)

(** An element of the customer lists handed to [addRiskScoring]:
    [successRate] and [avgVariance] are what [parseFloat] reads back from
    the rendered entry. *)
Record CustomerMetrics := {
  cust_name : string;
  cust_projects : nat;
  cust_successRate : Q;
  cust_avgVariance : Q;
  cust_totalBudgetHrs : Q
}.

Inductive RiskLevel := Low | Medium | High | Critical.

Definition successRateRisk (successRate : Q) : nat :=
  if Qlt_bool successRate 50 then 4
  else if Qlt_bool successRate 70 then 2
  else if Qlt_bool successRate 85 then 1
  else 0.

Definition volumeRisk (projects : nat) : nat :=
  if Nat.leb 10 projects then 0
  else if Nat.leb 5 projects then 1
  else 2.

Definition varianceRisk (avgVariance : Q) : nat :=
  let avgVariance := Qabs avgVariance in
  if Qlt_bool 50 avgVariance then 3
  else if Qlt_bool 30 avgVariance then 2
  else if Qlt_bool 15 avgVariance then 1
  else 0.

Definition budgetRisk (totalBudget : Q) : nat :=
  if Qlt_bool 5000 totalBudget then 1
  else if Qlt_bool 2000 totalBudget then 0
  else 1.

(** The [riskScore] that the callback of [addRiskScoring] sums up. *)
Definition riskScoreOf (customer : CustomerMetrics) : nat :=
  successRateRisk (cust_successRate customer)
  + volumeRisk (cust_projects customer)
  + varianceRisk (cust_avgVariance customer)
  + budgetRisk (cust_totalBudgetHrs customer).

Definition riskLevelOf (riskScore : nat) : RiskLevel :=
  if Nat.leb riskScore 2 then Low
  else if Nat.leb riskScore 5 then Medium
  else if Nat.leb riskScore 8 then High
  else Critical.

Definition addRiskScoring (customerList : list CustomerMetrics)
    : list (CustomerMetrics * nat * RiskLevel) :=
  (fun customer =>
     (customer, riskScoreOf customer, riskLevelOf (riskScoreOf customer)))
    <$> customerList.

(** ** The result object *)

(** The members of the object [analyzeData] returns that are modelled:
    [totalProjects], [consultants] and [dasAnalysis]. *)
Record Analysis := {
  totalProjects : nat;
  out_consultants : list ConsultantMetrics;
  out_dasAnalysis : list DasEntry
}.

Definition analyzeData (data : list Row) (filters : Filters) (config : Config)
    : Analysis :=
  let acc := aggregate data filters config in
  {| totalProjects := length data;
     out_consultants := consultantMetrics acc;
     out_dasAnalysis := dasAnalysis acc |}.

(* ===================================================================== *)
(** * CSV export and the CSV line reader *)
(* ===================================================================== *)

Module Csv.

Definition newline : ascii := Ascii.ascii_of_nat 10.

(** A report row is an object; each member is held as the text a
    template literal renders for it, a missing one as [undefined]. *)
Abbreviation ReportRow := (gmap string string).

Definition prop (row : ReportRow) (key : string) : string :=
  default "undefined" (row !! key).

(** A member written between two quote characters in a template
    literal: the value as it is, with a quote character on each side. *)
Definition wrap (x : string) : string :=
  String dquote (x +:+ String dquote EmptyString).

Fixpoint joinCells (cells : list string) : string :=
  match cells with
  | [] => EmptyString
  | [c] => c
  | c :: rest => c +:+ String comma (joinCells rest)
  end.

Definition line (cells : list string) : string :=
  joinCells cells +:+ String newline EmptyString.

Definition rowsOf (cellsOf : ReportRow -> list string)
    (data : list ReportRow) : string :=
  fold_left (fun csv row => csv +:+ line (cellsOf row)) data EmptyString.

(** The values of a consultant row, in the order of the columns. *)
Definition consultantValues (row : ReportRow) : list string :=
  prop row <$> ["name"; "projects"; "hours"; "efficiencyScore";
                "successRate"; "withinBudget"; "overBudget"].

Definition consultantCells (row : ReportRow) : list string :=
  [wrap (prop row "name"); prop row "projects"; prop row "hours";
   prop row "efficiencyScore"; prop row "successRate";
   prop row "withinBudget"; prop row "overBudget"].

Definition saCells (row : ReportRow) : list string :=
  [wrap (prop row "name"); prop row "projects"; prop row "budgetedHours";
   prop row "actualHours"; prop row "successRate"; prop row "variance"].

Definition customerCells (row : ReportRow) : list string :=
  [wrap (prop row "name"); prop row "projects"; prop row "successRate";
   prop row "avgVariance"; prop row "totalBudgetHrs"; prop row "riskLevel"].

Definition dasCells (row : ReportRow) : list string :=
  [wrap (prop row "name"); prop row "projects"; prop row "avgDAS";
   prop row "medianDAS"; prop row "highCount"; prop row "reviewCount";
   prop row "lowCount"].

Definition combinationCells (row : ReportRow) : list string :=
  [wrap (prop row "sa"); wrap (prop row "consultant"); prop row "projects";
   prop row "successRate"].

Definition consultantProjectCells (row : ReportRow) : list string :=
  [wrap (prop row "Job Number"); wrap (prop row "Description");
   wrap (prop row "Customer"); prop row "Budget Hours";
   prop row "Actual Hours"; prop row "Variance %"; prop row "Complete %";
   wrap (prop row "Status")].

(** [generateCSV(data, tab)] *)
Definition generateCSV (data : list ReportRow) (tab : string) : string :=
  if String.eqb tab "consultants" then
    line ["Consultant,Projects,Hours,Efficiency %,Success Rate %,Within Budget,Over Budget"]
    +:+ rowsOf consultantCells data
  else if String.eqb tab "solutionArchitects" then
    line ["Solution Architect,Projects,Budgeted Hours,Actual Hours,Success Rate %,Variance %"]
    +:+ rowsOf saCells data
  else if String.eqb tab "customers" then
    line ["Customer,Projects,Success Rate %,Avg Variance %,Total Budget Hrs,Risk Level"]
    +:+ rowsOf customerCells data
  else if String.eqb tab "das" then
    line ["Consultant,Projects,Avg DAS+,Median DAS+,High Performing,Needs Review,Low Performing"]
    +:+ rowsOf dasCells data
  else if String.eqb tab "combinations" then
    line ["Solution Architect,Consultant,Projects,Success Rate %"]
    +:+ rowsOf combinationCells data
  else if String.eqb tab "consultant-projects" then
    line ["Job Number,Description,Customer,Budget Hours,Actual Hours,Variance %,Complete %,Status"]
    +:+ rowsOf consultantProjectCells data
  else line ["No data available"].

(** The quoting the exclusion writer applies to a reason (line 349):
    every quote character of the reason is replaced by two, and the
    result is written between quote characters. *)
Fixpoint doubleQuotes (s : string) : string :=
  match s with
  | EmptyString => EmptyString
  | String c s' =>
      if Ascii.eqb c dquote then String dquote (String dquote (doubleQuotes s'))
      else String c (doubleQuotes s')
  end.

Definition wrapEscaped (x : string) : string := wrap (doubleQuotes x).

(** The reader of one CSV line in [loadExistingExclusions]
    (lines 1316-1336): a quote inside quotes followed by a quote is one
    quote character, any other quote toggles [inQuotes], a comma outside
    quotes ends a part, and each part is trimmed. *)
Fixpoint parseLoop (rest current : string) (inQuotes : bool)
    (parts : list string) : list string :=
  match rest with
  | EmptyString => parts ++ [trim current]
  | String char rest' =>
      if Ascii.eqb char dquote then
        match rest' with
        | String next rest'' =>
            if inQuotes && Ascii.eqb next dquote
            then parseLoop rest'' (current +:+ String dquote EmptyString)
                           inQuotes parts
            else parseLoop rest' current (negb inQuotes) parts
        | EmptyString => parseLoop rest' current (negb inQuotes) parts
        end
      else if Ascii.eqb char comma && negb inQuotes then
        parseLoop rest' EmptyString inQuotes (parts ++ [trim current])
      else parseLoop rest' (current +:+ String char EmptyString) inQuotes parts
  end.

Definition parseLine (line : string) : list string :=
  parseLoop line EmptyString false [].

(** Reading a CSV text back the way [loadExistingExclusions] walks a
    file: the lines that are not blank, each trimmed and handed to the
    line reader. *)
Definition parseCSV (text : string) : list (list string) :=
  (fun l => parseLine (trim l))
    <$> List.filter (fun l => negb (is_empty (trim l))) (split newline text).

End Csv.

(* ===================================================================== *)
(** * Predicates of the specification and sample data *)
(* ===================================================================== *)

Definition janeOnly : Filters :=
  {| filter_engineers := Some ["Jane Doe"];
     filter_solutionArchitects := Some ["Jane Doe"];
     filter_exclusions := None |}.

(** The [Budget Hrs] cell is not a number, or is a number equal to zero. *)
Definition budgetZeroOrNonNumeric (row : Row) : Prop :=
  budgetField row = None \/
  exists q, budgetField row = Some q /\ (q == 0)%Q.

Definition divisorsPositive (acc : Accumulators) : Prop :=
  Forall (fun b => (0 < b)%Q) (varianceDivisors acc).

Definition zeroBudgetRow : Row :=
  {| jobNumber := "J0"; jobDescription := "Idle"; customer := "Acme";
     budgetField := Some 0%Q; totalHrsField := Some 40%Q;
     resourcesEngaged := "Alice"; solutionArchitect := "Sam Lee";
     projectStatus := "Open"; projectComplete := 0 |}.

(** A consultant of the row is accepted: passes the engineer allow-list
    and is not excluded for the row's job number. *)
Definition consultantAccepted (filters : Filters) (row : Row) (c : string) : bool :=
  engineerFilterPasses filters c && negb (isExcluded filters c (jobNumber row)).

(** Some contribution of the row is accepted in pass 1. *)
Definition rowAccepted (filters : Filters) (row : Row) : bool :=
  Qpositive (budgetHrs row)
  && (existsb (consultantAccepted filters row) (nameList (resourcesEngaged row))
      || existsb (saFilterPasses filters) (nameList (solutionArchitect row))).

(** What pass 1 does not touch inside a row. *)
Definition pass2Part (acc : Accumulators) :=
  (customers acc, allCustomers acc, practiceProjects acc).

(** One row of pass 2 credited to its customer in a customer map. *)
Definition creditRow (successThreshold : Q) (m : gmap string Customer.t)
    (row : Row) : gmap string Customer.t :=
  creditCustomerIn successThreshold row (customerNameOf row) m.

(** A row whose customer cell holds one space. *)
Definition blankCustomerRow : Row :=
  mkRow "J7" (String space EmptyString) 100 50 "Alice" EmptyString "Open" 0.

Definition outsiderRow : Row :=
  mkRow "J9" "Globex" 100 80 "Zed Young" EmptyString "Open" (1 # 2).

Definition hoursOf (m : gmap string Consultant.t) (name : string) : Q :=
  Consultant.totalHours (default Consultant.fresh (m !! name)).

Definition projectsOf (m : gmap string Consultant.t) (name : string) : nat :=
  Consultant.projects (default Consultant.fresh (m !! name)).

(** How many times [name] is listed on the row and accepted. *)
Definition acceptedCount (filters : Filters) (row : Row) (name : string)
    (l : list string) : nat :=
  length (List.filter
            (fun c => consultantAccepted filters row c && String.eqb c name) l).


Definition pairRow : Row :=
  mkRow "J1" "Acme" 10 10 "Al, Bo" EmptyString "Open" 0.

Definition saProjectsOf (m : gmap string SA.t) (name : string) : nat :=
  SA.projects (default SA.fresh (m !! name)).

(** How many times [name] is listed as SA on the row and accepted. *)
Definition saAcceptedCount (filters : Filters) (name : string)
    (l : list string) : nat :=
  length (List.filter
            (fun s => saFilterPasses filters s && String.eqb s name) l).

(** A row without a customer cell, worked by Alice. *)
Definition noCustomerRow : Row :=
  mkRow "J3" EmptyString 100 50 "Alice" EmptyString "Open" 0.

(** The counters of an accumulator agree with its list of snapshots, and
    every snapshot has a positive budget. *)
Definition consultantBalanced (c : Consultant.t) : Prop :=
  Consultant.projects c
  = (Consultant.withinBudget c + Consultant.overBudget c)%nat
  /\ Consultant.projects c = length (Consultant.projectDetails c)
  /\ Forall (fun p => (0 < pd_budgetHrs p)%Q) (Consultant.projectDetails c).

Definition consultantSound (c : Consultant.t) : Prop :=
  (1 <= Consultant.projects c)%nat /\ consultantBalanced c.

Definition consultantsSound (acc : Accumulators) : Prop :=
  map_Forall (fun _ c => consultantSound c) (consultants acc).

Definition aliceRow : Row :=
  mkRow "J1" "Acme" 100 120 "Alice" EmptyString "Closed" 1.

Definition aliceAccumulator : Consultant.t :=
  {| Consultant.projects := 1; Consultant.totalHours := 120;
     Consultant.withinBudget := 1; Consultant.overBudget := 0;
     Consultant.projectDetails := [projectDetailOf aliceRow] |}.

(** The configured success threshold is falsy: there is no [thresholds]
    object, or its member is [undefined], [null], [NaN] or zero. *)
Definition falsyThreshold (config : Config) : Prop :=
  thresholds config = None \/
  exists t, thresholds config = Some t /\
    (success_threshold t = JsUndefined \/ success_threshold t = JsNull
     \/ success_threshold t = JsNaN
     \/ exists q, success_threshold t = JsNumber q /\ (q == 0)%Q).

Definition zeroThresholdConfig : Config :=
  {| thresholds := Some {| success_threshold := JsNumber 0 |} |}.

(** The status text says closed or complete, in any case. *)
Definition statusDone (status : string) : bool :=
  includes (toLowerCase status) "closed"
  || includes (toLowerCase status) "complete".

(** The completion ratio in the specification's words: forced to 1 when
    the status says closed or complete or the reported completion is at
    least 0.95, the reported completion otherwise. *)
Definition completionRatio_spec (project : ProjectDetail) : Q :=
  if statusDone (pd_status project) || Qle_bool (95 # 100) (pd_completion project)
  then 1 else pd_completion project.

(** Clamping to the interval from 0 to 1. *)
Definition clamp01 (x : Q) : Q :=
  if Qlt_bool x 0 then 0 else if Qlt_bool 1 x then 1 else x.

(** The score in the specification's words. *)
Definition dasScore_spec (project : ProjectDetail) : Q :=
  clamp01 (1 - Qabs (pd_actualHrs project / pd_budgetHrs project
                     - completionRatio_spec project))%Q.

(** The budget-size contribution in the specification's words, which
    are those of the README (more than 5000 hours: 1 point, 2000-5000
    hours: 0 points, less than 2000 hours: 1 point): above 5000 gives 1,
    from 2000 to 5000 gives 0, anything else gives 1. *)
Definition budgetRisk_spec (totalBudget : Q) : nat :=
  if Qlt_bool 5000 totalBudget then 1
  else if Qle_bool 2000 totalBudget then 0
  else 1.

(** A customer with 10 projects, success rate 60, no variance and a
    total budget of exactly 2000 hours. *)
Definition boundaryCustomer : CustomerMetrics :=
  {| cust_name := "Acme"; cust_projects := 10; cust_successRate := 60;
     cust_avgVariance := 0; cust_totalBudgetHrs := 2000 |}.

(** The text after a closing quote does not start with a quote. *)
Definition notQuoteFirst (rest : string) : Prop :=
  match rest with
  | EmptyString => True
  | String c _ => c <> dquote
  end.

(** The consultant name Smith, followed by Bob between quote characters:
    it holds a comma and two quote characters. *)
Definition quotedName : string :=
  "Smith, " +:+ String dquote ("Bob" +:+ String dquote EmptyString).

Definition quotedReport : list Csv.ReportRow :=
  [ list_to_map [("name", quotedName); ("projects", "3"); ("hours", "120");
                 ("efficiencyScore", "66.7"); ("successRate", "66.7");
                 ("withinBudget", "2"); ("overBudget", "1")];
    list_to_map [("name", "Jane Doe"); ("projects", "1"); ("hours", "10");
                 ("efficiencyScore", "100.0"); ("successRate", "100.0");
                 ("withinBudget", "1"); ("overBudget", "0")] ].

(* ===================================================================== *)
(** * Solution-architect and customer metrics *)
(* ===================================================================== *)

(** An element of [saMetrics] (lines 921-935); the two rates are the
    numbers that [toFixed(1)] then renders. *)
Record SaMetrics := {
  sam_name : string;
  sam_projects : nat;
  sam_budgetedHours : Q;
  sam_actualHours : Q;
  sam_successRate : Q;
  sam_variance : Q;
  sam_projectDetails : list ProjectDetail
}.

Definition saMetricsOf (name : string) (sa : SA.t) : SaMetrics :=
  let successRate :=
    (Qnat (SA.successfulProjects sa) / Qnat (SA.projects sa) * 100)%Q in
  let variance :=
    ((SA.totalActualHours sa - SA.totalBudgetedHours sa)
       / SA.totalBudgetedHours sa * 100)%Q in
  {| sam_name := name;
     sam_projects := SA.projects sa;
     sam_budgetedHours := SA.totalBudgetedHours sa;
     sam_actualHours := SA.totalActualHours sa;
     sam_successRate := successRate;
     sam_variance := variance;
     sam_projectDetails := SA.projectDetails sa |}.

(** [Object.keys(solutionArchitects).map(...)], one entry per key; the
    order of the list is not modelled. *)
Definition saMetrics (acc : Accumulators) : list SaMetrics :=
  (fun kv => saMetricsOf (fst kv) (snd kv))
    <$> map_to_list (solutionArchitects acc).

(** An element of [practiceCustomerMetrics] and [allCustomerMetrics]
    (lines 938-973), the two rates before rendering. *)
Record CustomerEntry := {
  ce_name : string;
  ce_projects : nat;
  ce_successRate : Q;
  ce_avgVariance : Q;
  ce_totalBudgetHrs : Q;
  ce_totalActualHrs : Q;
  ce_withinBudget : nat;
  ce_overBudget : nat;
  ce_projectDetails : list CustomerProjectDetail
}.

Definition customerEntryOf (name : string) (customer : Customer.t)
    : CustomerEntry :=
  let successRate :=
    (Qnat (Customer.withinBudget customer)
       / Qnat (Customer.projects customer) * 100)%Q in
  let avgVariance :=
    (Customer.totalVariance customer / Qnat (Customer.projects customer))%Q in
  {| ce_name := name;
     ce_projects := Customer.projects customer;
     ce_successRate := successRate;
     ce_avgVariance := avgVariance;
     ce_totalBudgetHrs := Customer.totalBudgetHrs customer;
     ce_totalActualHrs := Customer.totalActualHrs customer;
     ce_withinBudget := Customer.withinBudget customer;
     ce_overBudget := Customer.overBudget customer;
     ce_projectDetails := Customer.projectDetails customer |}.

(** [Object.keys(customers).map(...)]; the order is not modelled. *)
Definition practiceCustomerMetrics (acc : Accumulators) : list CustomerEntry :=
  (fun kv => customerEntryOf (fst kv) (snd kv))
    <$> map_to_list (customers acc).

(** [Object.keys(allCustomers).map(...).filter(c => c.projects >= 3)] *)
Definition allCustomerMetrics (acc : Accumulators) : list CustomerEntry :=
  List.filter (fun c => Nat.leb 3 (ce_projects c))
    ((fun kv => customerEntryOf (fst kv) (snd kv))
       <$> map_to_list (allCustomers acc)).

(** The counters of an SA accumulator agree with its snapshots. *)
Definition saBalanced (s : SA.t) : Prop :=
  (SA.successfulProjects s <= SA.projects s)%nat
  /\ SA.projects s = length (SA.projectDetails s)
  /\ (0 <= SA.totalBudgetedHours s)%Q.

Definition saSound (s : SA.t) : Prop :=
  (1 <= SA.projects s)%nat /\ (0 < SA.totalBudgetedHours s)%Q /\ saBalanced s.

Definition customerBalanced (c : Customer.t) : Prop :=
  Customer.projects c = (Customer.withinBudget c + Customer.overBudget c)%nat
  /\ Customer.projects c = length (Customer.projectDetails c)
  /\ (0 <= Customer.totalBudgetHrs c)%Q.

Definition customerSound (c : Customer.t) : Prop :=
  (1 <= Customer.projects c)%nat /\ (0 < Customer.totalBudgetHrs c)%Q
  /\ customerBalanced c.

Definition customersSound (acc : Accumulators) : Prop :=
  map_Forall (fun _ c => customerSound c) (customers acc)
  /\ map_Forall (fun _ c => customerSound c) (allCustomers acc).

(** Every practice customer is a company customer with at least as many
    projects. *)
Definition practiceWithinCompany (acc : Accumulators) : Prop :=
  forall name p, customers acc !! name = Some p ->
    exists a, allCustomers acc !! name = Some a
              /\ (Customer.projects p <= Customer.projects a)%nat.

Definition customerProjectsOf (m : gmap string Customer.t) (name : string) : nat :=
  Customer.projects (default Customer.fresh (m !! name)).

(** The rows of [data] that pass the guard of pass 2 under the customer
    name [name]. *)
Definition guardedRowsOf (data : list Row) (name : string) : list Row :=
  List.filter (fun row => pass2Guard row && String.eqb (customerNameOf row) name)
    data.

Definition samRow : Row :=
  mkRow "J5" "Initech" 200 150 "Alice" "Sam Lee" "Open" (1 # 2).

(* ===================================================================== *)
(** * Totals of pass 1 over a data set *)
(* ===================================================================== *)

(** The accepted listings of [name] on one row: none when the budget of
    the row is not positive. *)
Definition rowContribution (filters : Filters) (name : string) (row : Row) : nat :=
  if Qpositive (budgetHrs row)
  then acceptedCount filters row name (nameList (resourcesEngaged row))
  else 0%nat.

Definition contributions (filters : Filters) (data : list Row) (name : string)
    : nat :=
  sum_list_with (rowContribution filters name) data.

(** The full actual hours of each row, once per accepted listing. *)
Fixpoint creditedHours (filters : Filters) (data : list Row) (name : string) : Q :=
  match data with
  | [] => 0
  | row :: rest =>
      (Qnat (rowContribution filters name row) * actualHrs row
       + creditedHours filters rest name)%Q
  end.

(** An exclusion rule for Alice on job J5, written in another case and
    with surrounding blanks. *)
Definition aliceExcluded : Filters :=
  {| filter_engineers := None; filter_solutionArchitects := None;
     filter_exclusions :=
       Some [ {| excl_consultant := " ALICE "; excl_project := "J5 ";
                 excl_reason := "on leave" |} ] |}.

(* ===================================================================== *)
(** * Header detection *)
(* ===================================================================== *)

(** A cell of a sheet read with [header: 1]: a text, or anything else
    (a number, a boolean, an empty cell). *)
Inductive Cell :=
| CellText (s : string)
| CellOther.

(** The callback of [row.some]: a non-empty text that contains
    [resources] or [engaged] in any case. *)
Definition isHeaderCell (cell : Cell) : bool :=
  match cell with
  | CellText s =>
      negb (is_empty s)
      && (includes (toLowerCase s) "resources"
          || includes (toLowerCase s) "engaged")
  | CellOther => false
  end.

Definition isHeaderRow (row : list Cell) : bool := existsb isHeaderCell row.

(** The loop of [findHeaderRow] from index [i] over the rows left. *)
Fixpoint findHeaderFrom (i : nat) (rows : list (list Cell)) : option nat :=
  match rows with
  | [] => None
  | row :: rest =>
      if isHeaderRow row then Some i else findHeaderFrom (S i) rest
  end.

(** [findHeaderRow(data)]: the loop runs over the first
    [Math.min(20, data.length)] rows, and 13 is returned when it finds
    nothing. *)
Definition findHeaderRow (data : list (list Cell)) : nat :=
  default 13%nat (findHeaderFrom 0 (take 20 data)).

(** A customer that collects every penalty. *)
Definition criticalCustomer : CustomerMetrics :=
  {| cust_name := "Hooli"; cust_projects := 3; cust_successRate := 20;
     cust_avgVariance := 80; cust_totalBudgetHrs := 300 |}.

(* ===================================================================== *)
(** * The exclusion file *)
(* ===================================================================== *)

(** Every character of [s] satisfies [p]. *)
Fixpoint allChars (p : ascii -> bool) (s : string) : bool :=
  match s with
  | EmptyString => true
  | String c s' => p c && allChars p s'
  end.

(** Neither a quote character nor a comma. *)
Definition isPlainChar (c : ascii) : bool :=
  negb (Ascii.eqb c dquote) && negb (Ascii.eqb c comma).

Definition notQuoteChar (c : ascii) : bool := negb (Ascii.eqb c dquote).

(** The line that [POST /exclude] appends (line 349): consultant and
    project as they are, the reason between quotes with its quotes
    doubled. *)
Definition newExclusionLine (consultant project reason : string) : string :=
  consultant +:+ String comma (project +:+ String comma (Csv.wrapEscaped reason)).

(** The test of [POST /exclude] on its request (lines 324-331). *)
Definition excludeRequestValid (consultant project reason : string) : bool :=
  negb (is_empty consultant) && negb (is_empty project)
  && negb (is_empty reason) && Nat.leb 2 (String.length (trim reason)).

(** What [loadExistingExclusions] makes of the parts of a line
    (lines 1338-1344): nothing unless the first two parts are not blank;
    a missing or empty third part is replaced by a placeholder. *)
Definition exclusionOfParts (parts : list string) : option Exclusion :=
  match parts with
  | p0 :: p1 :: rest =>
      if negb (is_empty (trim p0)) && negb (is_empty (trim p1))
      then Some {| excl_consultant := trim p0;
                   excl_project := trim p1;
                   excl_reason :=
                     match rest with
                     | p2 :: _ =>
                         if is_empty p2 then "No reason provided" else trim p2
                     | [] => "No reason provided"
                     end |}
      else None
  | _ => None
  end.

Definition exclusionOfLine (line : string) : option Exclusion :=
  exclusionOfParts (Csv.parseLine line).

(** A report row whose name holds a comma. *)
Definition commaNameRow : Csv.ReportRow :=
  list_to_map [("name", "Doe, Jane"); ("projects", "3"); ("hours", "120");
               ("efficiencyScore", "66.7"); ("successRate", "66.7");
               ("withinBudget", "2"); ("overBudget", "1")].

(* ===================================================================== *)
(** * Files of lines: the disqualified list and the exclusion file *)
(* ===================================================================== *)

(** [!line.trim()] *)
Definition isBlank (s : string) : bool := is_empty (trim s).

Definition notNewline (c : ascii) : bool := negb (Ascii.eqb c Csv.newline).

(** [lines.join('\n')] *)
Fixpoint joinLines (lines : list string) : string :=
  match lines with
  | [] => EmptyString
  | [l] => l
  | l :: rest => l +:+ String Csv.newline (joinLines rest)
  end.

(** [content.split('\n').filter(line => line.trim())] *)
Definition nonBlankLines (content : string) : list string :=
  List.filter (fun l => negb (isBlank l)) (split Csv.newline content).

(** A file is its content, or [None] when it does not exist. *)

(** [POST /disqualify] on [disqualified.txt] (lines 413-440): nothing
    is written for an empty name or a name that is already a line. *)
Definition disqualify (file : option string) (consultant : string)
    : option string :=
  if is_empty consultant then file
  else
    let lines := nonBlankLines (default EmptyString file) in
    if existsb (String.eqb consultant) lines then file
    else Some (joinLines (lines ++ [consultant])
               +:+ String Csv.newline EmptyString).

(** [DELETE /disqualify] (lines 442-464). *)
Definition requalify (file : option string) (consultant : string)
    : option string :=
  if is_empty consultant then file
  else
    match file with
    | None => None
    | Some content =>
        let lines :=
          List.filter (fun l => negb (isBlank l) && negb (String.eqb l consultant))
            (split Csv.newline content) in
        Some (joinLines lines
              +:+ (match lines with
                   | [] => EmptyString
                   | _ :: _ => String Csv.newline EmptyString
                   end))
    end.

(** [loadDisqualifiedConsultants()] (lines 1364-1380). *)
Definition loadDisqualifiedConsultants (file : option string) : list string :=
  match file with
  | None => []
  | Some content => trim <$> nonBlankLines content
  end.

(* ===================================================================== *)
(** * Consultant of the Quarter *)
(* ===================================================================== *)

(** An entry of the Consultant of the Quarter list.  The volume score
    and the composite score are [None] when they are not finite numbers:
    the code divides the hours by the largest total of hours, which can
    be zero. *)
Record QuarterEntry := {
  q_name : string;
  q_compositeScore : option Q;
  q_successRate : Q;
  q_efficiencyScore : Q;
  q_volumeScore : option Q;
  q_consistencyScore : Q;
  q_projects : nat;
  q_hours : Q
}.

(** [a / b] when the divisor is not zero; for a zero divisor the code
    gets NaN or an infinity, and so does every sum and product built on
    it: [None]. *)
Definition finiteDiv (a b : Q) : option Q :=
  if Qeq_bool b 0 then None else Some (a / b)%Q.

(** [Math.max(...list)] of numbers; the list is never empty where the
    code calls it (for the empty list the code would get [-Infinity]). *)
Definition maxOfList (l : list Q) : Q :=
  match l with
  | [] => 0
  | x :: rest => fold_left Qmax rest x
  end.

(** [Math.max(...Object.values(consultants).map(c => c.projects))] *)
Definition maxProjects (acc : Accumulators) : nat :=
  foldr Nat.max 0%nat
    ((fun kv => Consultant.projects (snd kv)) <$> map_to_list (consultants acc)).

(** [Math.max(...Object.values(consultants).map(c => c.totalHours))] *)
Definition maxHours (acc : Accumulators) : Q :=
  maxOfList ((fun kv => Consultant.totalHours (snd kv))
               <$> map_to_list (consultants acc)).

(** The callback of [map] in the Consultant of the Quarter computation
    (lines 981-1020), scores before rendering.  [readVariance] stands for
    [parseFloat(p.variance)], the number read back from the text of a
    snapshot's variance; the rendering of that text is not modelled, so
    the reading is a parameter. *)
Definition quarterEntryOf (readVariance : ProjectDetail -> Q)
    (acc : Accumulators) (name : string) (consultant : Consultant.t)
    : QuarterEntry :=
  let successRate :=
    (Qnat (Consultant.withinBudget consultant)
       / Qnat (Consultant.projects consultant) * 100)%Q in
  let efficiencyScore := successRate in
  let projectCount := Consultant.projects consultant in
  let totalHours := Consultant.totalHours consultant in
  let volumeScore :=
    match finiteDiv (Qnat projectCount) (Qnat (maxProjects acc)),
          finiteDiv totalHours (maxHours acc) with
    | Some projectShare, Some hoursShare =>
        Some (projectShare * 50 + hoursShare * 50)%Q
    | _, _ => None
    end in
  let projectVariances :=
    (fun p => Qabs (readVariance p)) <$> Consultant.projectDetails consultant in
  let avgVariance :=
    (fold_left Qplus projectVariances 0 / Qnat (length projectVariances))%Q in
  let consistencyScore := Qmax 0 (100 - avgVariance) in
  let compositeScore :=
    match volumeScore with
    | Some volume =>
        Some (successRate * (4 # 10) + efficiencyScore * (3 # 10)
              + volume * (2 # 10) + consistencyScore * (1 # 10))%Q
    | None => None
    end in
  {| q_name := name;
     q_compositeScore := compositeScore;
     q_successRate := successRate;
     q_efficiencyScore := efficiencyScore;
     q_volumeScore := volumeScore;
     q_consistencyScore := consistencyScore;
     q_projects := projectCount;
     q_hours := totalHours |}.

(** [Object.keys(consultants).filter(name => !disqualified.includes(name))
    .map(...)]; the final sort is not modelled. *)
Definition consultantOfQuarter (readVariance : ProjectDetail -> Q)
    (disqualified : list string) (acc : Accumulators) : list QuarterEntry :=
  (fun kv => quarterEntryOf readVariance acc (fst kv) (snd kv))
    <$> List.filter (fun kv => negb (existsb (String.eqb (fst kv)) disqualified))
          (map_to_list (consultants acc)).

(* ===================================================================== *)
(** * Writing and reading the exclusion file *)
(* ===================================================================== *)

Definition exclusionHeader : string := "Consultant,Project,Reason".

(** [content.endsWith('\n')] *)
Fixpoint endsWithNewline (s : string) : bool :=
  match s with
  | EmptyString => false
  | String c EmptyString => Ascii.eqb c Csv.newline
  | String _ s' => endsWithNewline s'
  end.

(** The text [`${consultant},${project}`] that both routes look for. *)
Definition exclusionKey (consultant project : string) : string :=
  consultant +:+ String comma project.

(** [POST /exclude] on [exclusions.csv] (lines 319-372): the new state
    of the file.  A request that fails the test, and a request whose key
    occurs in some line, write nothing.  A first line without the word
    Reason is replaced by the header before the new line is appended. *)
Definition addExclusion (file : option string)
    (consultant project reason : string) : option string :=
  if negb (excludeRequestValid consultant project reason) then file
  else
    let content0 :=
      default (exclusionHeader +:+ String Csv.newline EmptyString) file in
    let lines0 := split Csv.newline content0 in
    let fixHeader :=
      match lines0 with
      | first :: _ => negb (is_empty first) && negb (includes first "Reason")
      | [] => false
      end in
    let lines :=
      if fixHeader then exclusionHeader :: drop 1 lines0 else lines0 in
    let content := if fixHeader then joinLines lines else content0 in
    if existsb (fun line => includes line (exclusionKey consultant project)) lines
    then file
    else
      Some ((if endsWithNewline content then content
             else content +:+ String Csv.newline EmptyString)
            +:+ newExclusionLine consultant project reason
            +:+ String Csv.newline EmptyString).

(** [DELETE /exclude] (lines 374-411): every line in which the key
    occurs is dropped. *)
Definition removeExclusion (file : option string) (consultant project : string)
    : option string :=
  if is_empty consultant || is_empty project then file
  else
    match file with
    | None => None
    | Some content =>
        Some (joinLines
                (List.filter
                   (fun line =>
                      negb (includes line (exclusionKey consultant project)))
                   (split Csv.newline content)))
    end.

(** The reading of the file inside [loadExistingExclusions] (lines
    1305-1346): the lines that are not blank, without the first if it
    holds the word consultant in any case, each trimmed and read as an
    exclusion. *)
Definition readExclusions (content : string) : list Exclusion :=
  let lines := nonBlankLines content in
  let startIndex :=
    match lines with
    | first :: _ =>
        if includes (toLowerCase first) "consultant" then 1%nat else 0%nat
    | [] => 0%nat
    end in
  omap (fun l =>
          let line := trim l in
          if is_empty line then None else exclusionOfLine line)
    (drop startIndex lines).

(** [exclusions.csv] with the time of its last modification, and the
    module variables [exclusionsCache] and [exclusionsLastModified].
    Times are in milliseconds; [None] is a missing file, and [null] for
    the two variables. *)
Record ExclusionStore := {
  exclusionFile : option string;
  exclusionFileMtime : Z;
  exclusionsCache : option (list Exclusion);
  exclusionsLastModified : option Z
}.

(** [loadExistingExclusions()] (lines 1298-1362): the list it returns
    and the state it leaves.  The file is read when there is no cache or
    when [stats.mtime > exclusionsLastModified], where [null] counts as
    time 0; otherwise the cache is returned as it is.  Reading the file
    is taken to succeed. *)
Definition loadExistingExclusions (s : ExclusionStore)
    : list Exclusion * ExclusionStore :=
  match exclusionFile s with
  | Some content =>
      let stale :=
        match exclusionsCache s with
        | None => true
        | Some _ =>
            Z.ltb (default 0%Z (exclusionsLastModified s)) (exclusionFileMtime s)
        end in
      if stale
      then
        let exclusions := readExclusions content in
        (exclusions,
         {| exclusionFile := exclusionFile s;
            exclusionFileMtime := exclusionFileMtime s;
            exclusionsCache := Some exclusions;
            exclusionsLastModified := Some (exclusionFileMtime s) |})
      else (default [] (exclusionsCache s), s)
  | None =>
      ([],
       {| exclusionFile := None;
          exclusionFileMtime := exclusionFileMtime s;
          exclusionsCache := Some [];
          exclusionsLastModified := None |})
  end.

(** The lines in which [POST /exclude] looks for the key (lines
    333-350): those of the file, or of a fresh header when the file is
    missing, the first one replaced by the header when it is not empty
    and lacks the word Reason. *)
Definition exclusionLines (file : option string) : list string :=
  let lines0 :=
    split Csv.newline
      (default (exclusionHeader +:+ String Csv.newline EmptyString) file) in
  match lines0 with
  | first :: _ =>
      if negb (is_empty first) && negb (includes first "Reason")
      then exclusionHeader :: drop 1 lines0
      else lines0
  | [] => lines0
  end.

(** [POST /exclude] writes: the request passes the test and its key
    occurs in no line. *)
Definition excludeWrites (file : option string)
    (consultant project reason : string) : bool :=
  excludeRequestValid consultant project reason
  && negb (existsb (fun line => includes line (exclusionKey consultant project))
             (exclusionLines file)).

(** [POST /exclude] on the file and the cache (lines 319-372).  When it
    writes, the file gets the time [written], the request is pushed on
    the cache as it was received, on an empty list when there was no
    cache, and [exclusionsLastModified] becomes [now], the clock read
    after the write. *)
Definition postExclude (s : ExclusionStore)
    (consultant project reason : string) (written now : Z) : ExclusionStore :=
  if excludeWrites (exclusionFile s) consultant project reason
  then
    {| exclusionFile := addExclusion (exclusionFile s) consultant project reason;
       exclusionFileMtime := written;
       exclusionsCache :=
         Some (default [] (exclusionsCache s)
               ++ [ {| excl_consultant := consultant;
                       excl_project := project;
                       excl_reason := reason |} ]);
       exclusionsLastModified := Some now |}
  else s.

(** [DELETE /exclusions/cache] (lines 304-317), on this cache. *)
Definition clearCaches (s : ExclusionStore) : ExclusionStore :=
  {| exclusionFile := exclusionFile s;
     exclusionFileMtime := exclusionFileMtime s;
     exclusionsCache := None;
     exclusionsLastModified := None |}.

(** A file that excludes Bo Lee from J2, read at time 5 and never
    cached. *)
Definition boLeeStore : ExclusionStore :=
  {| exclusionFile :=
       Some (exclusionHeader
             +:+ String Csv.newline
                   (newExclusionLine "Bo Lee" "J2" "on leave"
                    +:+ String Csv.newline EmptyString));
     exclusionFileMtime := 5;
     exclusionsCache := None;
     exclusionsLastModified := None |}.

(* ===================================================================== *)
(** * Snapshots and practice projects *)
(* ===================================================================== *)

(** The job numbers of the snapshots held by the consultant and SA
    accumulators. *)
Definition snapshotJob (acc : Accumulators) (job : string) : Prop :=
  (exists name c p, consultants acc !! name = Some c
                    /\ In p (Consultant.projectDetails c)
                    /\ pd_jobNumber p = job)
  \/ (exists name s p, solutionArchitects acc !! name = Some s
                       /\ In p (SA.projectDetails s)
                       /\ pd_jobNumber p = job).

(** Inside a row of pass 1: the snapshots bear practice job numbers or,
    once the flag is raised, the job number of the row, which is then the
    job number of some snapshot. *)
Definition rowInvariant (row : Row) (st : Accumulators * bool) : Prop :=
  (forall job, snapshotJob (fst st) job ->
     job ∈ practiceProjects (fst st) \/ (snd st = true /\ job = jobNumber row))
  /\ (forall job, job ∈ practiceProjects (fst st) -> snapshotJob (fst st) job)
  /\ (snd st = true -> snapshotJob (fst st) (jobNumber row)).

Definition snapshotsArePractice (acc : Accumulators) : Prop :=
  forall job, snapshotJob acc job <-> job ∈ practiceProjects acc.

(* ===================================================================== *)
(** * Combinations of a solution architect with a consultant or customer *)
(* ===================================================================== *)

Definition bar : ascii := Ascii.ascii_of_nat 124.

Definition notBar (c : ascii) : bool := negb (Ascii.eqb c bar).

(** The key [`${sa}|${other}`] of a combination. *)
Definition comboKey (sa other : string) : string := sa +:+ String bar other.

(** A value of [saCombinations] or [saCustomerCombos]; [combo_other] is
    the consultant, or the customer. *)
Record Combo := {
  combo_sa : string;
  combo_other : string;
  combo_projects : nat;
  combo_successful : nat
}.

(** One row counted for a pair (lines 1097-1105 and 1145-1153): the
    entry is created under the key with the names of the pair when the
    key is new, and counted in any case. *)
Definition creditCombo (successThreshold : Q) (row : Row) (sa other : string)
    (m : gmap string Combo) : gmap string Combo :=
  let key := comboKey sa other in
  let current :=
    default {| combo_sa := sa; combo_other := other;
               combo_projects := 0; combo_successful := 0 |} (m !! key) in
  <[key := {| combo_sa := combo_sa current;
              combo_other := combo_other current;
              combo_projects := S (combo_projects current);
              combo_successful :=
                if isWithinBudget (variance (actualHrs row) (budgetHrs row))
                                  successThreshold
                then S (combo_successful current)
                else combo_successful current |}]> m.

(** The body of [saList.forEach] inside the consultant loop. *)
Definition comboSaStep (filters : Filters) (successThreshold : Q) (row : Row)
    (other : string) (m : gmap string Combo) (sa : string) : gmap string Combo :=
  if saFilterPasses filters sa
  then creditCombo successThreshold row sa other m
  else m.

(** The callback of the third [data.forEach] (lines 1061-1109). *)
Definition saCombinationsRow (filters : Filters) (successThreshold : Q)
    (m : gmap string Combo) (row : Row) : gmap string Combo :=
  let resources := resourcesEngaged row in
  let saField := solutionArchitect row in
  if Qpositive (budgetHrs row) && negb (is_empty resources)
     && negb (is_empty saField)
  then
    fold_left
      (fun m consultant =>
         if engineerFilterPasses filters consultant
         then fold_left (comboSaStep filters successThreshold row consultant)
                (nameList saField) m
         else m)
      (nameList resources) m
  else m.

(** The callback of the fourth [data.forEach] (lines 1123-1156); the
    customer is read with [|| ''], not with the Unknown of pass 2. *)
Definition saCustomerRow (filters : Filters) (successThreshold : Q)
    (m : gmap string Combo) (row : Row) : gmap string Combo :=
  let customerName := customer row in
  let saField := solutionArchitect row in
  if Qpositive (budgetHrs row) && negb (is_empty customerName)
     && negb (is_empty saField)
  then fold_left (comboSaStep filters successThreshold row customerName)
         (nameList saField) m
  else m.

Definition saCombinations (filters : Filters) (successThreshold : Q)
    (data : list Row) : gmap string Combo :=
  fold_left (saCombinationsRow filters successThreshold) data ∅.

Definition saCustomerCombos (filters : Filters) (successThreshold : Q)
    (data : list Row) : gmap string Combo :=
  fold_left (saCustomerRow filters successThreshold) data ∅.

(** An element of [combinationMetrics] or [saCustomerMetrics], the rate
    before rendering. *)
Record ComboMetric := {
  cmb_sa : string;
  cmb_other : string;
  cmb_projects : nat;
  cmb_successRate : Q
}.

(** [Object.values(combos).filter(combo => combo.projects >= 2).map(...)];
    the final sort is not modelled. *)
Definition comboMetrics (m : gmap string Combo) : list ComboMetric :=
  (fun kv =>
     {| cmb_sa := combo_sa (snd kv);
        cmb_other := combo_other (snd kv);
        cmb_projects := combo_projects (snd kv);
        cmb_successRate :=
          (Qnat (combo_successful (snd kv)) / Qnat (combo_projects (snd kv))
           * 100)%Q |})
    <$> List.filter (fun kv => Nat.leb 2 (combo_projects (snd kv)))
          (map_to_list m).

(** An entry is stored under the key of its own names, has at least one
    project and no more successes than projects. *)
Definition combosSound (m : gmap string Combo) : Prop :=
  map_Forall
    (fun key e => key = comboKey (combo_sa e) (combo_other e)
                  /\ (1 <= combo_projects e)%nat
                  /\ (combo_successful e <= combo_projects e)%nat) m.

(** The entry of Sam Lee and Alice after two rows. *)
Definition samPair : Combo :=
  {| combo_sa := "Sam Lee"; combo_other := "Alice";
     combo_projects := 2; combo_successful := 2 |}.

Definition samPairMetric : ComboMetric :=
  {| cmb_sa := "Sam Lee"; cmb_other := "Alice"; cmb_projects := 2;
     cmb_successRate := (Qnat 2 / Qnat 2 * 100)%Q |}.

(* ===================================================================== *)
(** * Filters from uploaded files and text fields *)
(* ===================================================================== *)

(** [content.split('\n').map(line => line.trim().replace(/\s+/g, ' '))
    .filter(line => line && line.length > 1)]: the lines of an engineers
    list. *)
Definition engineerLines (content : string) : list string :=
  List.filter (fun line => negb (is_empty line) && Nat.ltb 1 (String.length line))
    ((fun line => collapseSpaces (trim line)) <$> split Csv.newline content).


(** [[...new Set(list)]]: the first occurrence of each element, in
    order; [seen] holds the elements met so far. *)
Fixpoint dedupeFrom (seen : list string) (l : list string) : list string :=
  match l with
  | [] => []
  | x :: rest =>
      if existsb (String.eqb x) seen then dedupeFrom seen rest
      else x :: dedupeFrom (x :: seen) rest
  end.

Definition dedupe (l : list string) : list string := dedupeFrom [] l.

(** A text field: used when it is present and not blank. *)
Definition textLines (parse : string -> list string) (text : option string)
    : list string :=
  match text with
  | Some t => if negb (is_empty t) && negb (isBlank t) then parse t else []
  | None => []
  end.

(** The engineers part of [loadFilterFiles] (lines 570-609): the lines
    of the uploaded file, which also replace the cache, or else the
    cache; then the lines of the text field; no filter when there is no
    line at all.  The result is the filter and the new cache. *)
Definition loadEngineers (uploaded : option string)
    (engineersCache : option (list string)) (engineersText : option string)
    : option (list string) * option (list string) :=
  let cache :=
    match uploaded with
    | Some content => Some (engineerLines content)
    | None => engineersCache
    end in
  let engineersList :=
    default [] cache ++ textLines engineerLines engineersText in
  (match engineersList with
   | [] => None
   | _ :: _ => Some (dedupe engineersList)
   end, cache).

(** A project whose status says closed or complete, with the hours given. *)
Definition closedProject (budget actual : Q) : ProjectDetail :=
  {| pd_jobNumber := "J1"; pd_description := "Migration";
     pd_customer := "Acme"; pd_budgetHrs := budget; pd_actualHrs := actual;
     pd_variance := ((actual - budget) / budget)%Q;
     pd_status := "Closed"; pd_completion := 0 |}.

(* ===================================================================== *)
(** * Names every object inherits *)
(* ===================================================================== *)

(** [consultants], [solutionArchitects], [customers] and [allCustomers]
    are plain objects, and each pass tests [!consultants[consultant]]
    before it creates an accumulator.  For the name of a member that every
    object inherits from [Object.prototype] the test finds a value that is
    not an accumulator, so none is created; the counters are then set on
    that value and [projectDetails.push] raises a TypeError, which ends
    [analyzeData].  The maps above describe the objects for every other
    name; the definitions below add the failure. *)
Definition inheritedMembers : list string :=
  ["constructor"; "hasOwnProperty"; "isPrototypeOf"; "propertyIsEnumerable";
   "toLocaleString"; "toString"; "valueOf"; "__proto__";
   "__defineGetter__"; "__defineSetter__";
   "__lookupGetter__"; "__lookupSetter__"].

Definition inheritedMember (name : string) : bool :=
  existsb (String.eqb name) inheritedMembers.

(** The body of [consultantList.forEach] with its failure; [None] is the
    TypeError, after which nothing more runs. *)
Definition consultantStepOrThrow (filters : Filters) (successThreshold : Q)
    (row : Row) (st : option (Accumulators * bool)) (consultant : string)
    : option (Accumulators * bool) :=
  match st with
  | None => None
  | Some st =>
      if negb (engineerFilterPasses filters consultant) then Some st
      else if isExcluded filters consultant (jobNumber row) then Some st
      else if inheritedMember consultant then None
      else Some (consultantStep filters successThreshold row st consultant)
  end.

(** The body of [saList.forEach] with its failure. *)
Definition saStepOrThrow (filters : Filters) (successThreshold : Q)
    (row : Row) (st : option (Accumulators * bool)) (sa : string)
    : option (Accumulators * bool) :=
  match st with
  | None => None
  | Some st =>
      if negb (saFilterPasses filters sa) then Some st
      else if inheritedMember sa then None
      else Some (saStep filters successThreshold row st sa)
  end.

Definition consultantBlockOrThrow (filters : Filters) (successThreshold : Q)
    (row : Row) (st : option (Accumulators * bool))
    : option (Accumulators * bool) :=
  let resources := resourcesEngaged row in
  if negb (is_empty resources) && Qpositive (budgetHrs row)
  then fold_left (consultantStepOrThrow filters successThreshold row)
                 (nameList resources) st
  else st.

Definition saBlockOrThrow (filters : Filters) (successThreshold : Q)
    (row : Row) (st : option (Accumulators * bool))
    : option (Accumulators * bool) :=
  let saField := solutionArchitect row in
  if negb (is_empty saField) && negb (is_empty (trim saField))
     && Qpositive (budgetHrs row)
  then fold_left (saStepOrThrow filters successThreshold row)
                 (nameList saField) st
  else st.

(** The callback of the first [data.forEach] with its failure. *)
Definition pass1RowOrThrow (filters : Filters) (successThreshold : Q)
    (acc : option Accumulators) (row : Row) : option Accumulators :=
  match acc with
  | None => None
  | Some acc =>
      match saBlockOrThrow filters successThreshold row
              (consultantBlockOrThrow filters successThreshold row
                 (Some (acc, false))) with
      | Some st =>
          Some (if snd st then markPractice (jobNumber row) (fst st)
                else fst st)
      | None => None
      end
  end.

(** The callback of the second [data.forEach] with its failure: the
    company map is written first, under the same name as the practice
    map. *)
Definition pass2RowOrThrow (successThreshold : Q)
    (acc : option Accumulators) (row : Row) : option Accumulators :=
  match acc with
  | None => None
  | Some acc =>
      if pass2Guard row && inheritedMember (customerNameOf row) then None
      else Some (pass2Row successThreshold acc row)
  end.

(** The two passes of [analyzeData] with their failure: [None] when a
    TypeError ends the analysis. *)
Definition aggregateOrThrow (data : list Row) (filters : Filters)
    (config : Config) : option Accumulators :=
  let successThreshold := successThresholdOf config in
  fold_left (pass2RowOrThrow successThreshold) data
    (fold_left (pass1RowOrThrow filters successThreshold) data
       (Some emptyAccumulators)).

(** The row lists an accepted consultant under an inherited name. *)
Definition consultantThrows (filters : Filters) (row : Row) : bool :=
  negb (is_empty (resourcesEngaged row)) && Qpositive (budgetHrs row)
  && existsb (fun c => consultantAccepted filters row c && inheritedMember c)
       (nameList (resourcesEngaged row)).

(** The row lists an accepted solution architect under an inherited
    name. *)
Definition saThrows (filters : Filters) (row : Row) : bool :=
  negb (is_empty (solutionArchitect row))
  && negb (is_empty (trim (solutionArchitect row)))
  && Qpositive (budgetHrs row)
  && existsb (fun s => saFilterPasses filters s && inheritedMember s)
       (nameList (solutionArchitect row)).

(** The row reaches pass 2 under an inherited customer name. *)
Definition customerThrows (row : Row) : bool :=
  pass2Guard row && inheritedMember (customerNameOf row).

Definition rowThrows (filters : Filters) (row : Row) : bool :=
  consultantThrows filters row || saThrows filters row || customerThrows row.

(** Some row of the data makes the analysis raise. *)
Definition analysisThrows (filters : Filters) (data : list Row) : bool :=
  existsb (rowThrows filters) data.

(** A data set on which the analysis raises: the customer is named like
    the constructor member. *)
Definition constructorRow : Row :=
  mkRow "J8" "constructor" 100 50 "Alice" EmptyString "Open" 0.


(** The snapshots of a consultant in a map, none for an absent name. *)
Definition detailsOf (m : gmap string Consultant.t) (name : string)
    : list ProjectDetail :=
  Consultant.projectDetails (default Consultant.fresh (m !! name)).

(* ===================================================================== *)
(** * Properties of the string operations *)
(* ===================================================================== *)

Section StringFacts.

Lemma startsWith_spec (s t : string) :
  startsWith s t = true <-> exists post, s = t +:+ post.
Proof.
  revert s. induction t as [|b t IH]; intros s; simpl.
  - split; [intros _; exists s; reflexivity | reflexivity].
  - destruct s as [|a s]; simpl.
    + split; [discriminate | intros [post H]; discriminate].
    + rewrite andb_true_iff, Ascii.eqb_eq, IH. split.
      * intros [-> [post ->]]. exists post. reflexivity.
      * intros [post H]. injection H as -> ->. eauto.
Qed.

Lemma includes_spec (s t : string) :
  includes s t = true <-> substring_of t s.
Proof.
  unfold substring_of. induction s as [|a s IH].
  - cbn [includes]. rewrite orb_false_r, startsWith_spec. split.
    + intros [post H]. exists EmptyString, post. exact H.
    + intros [pre [post H]]. destruct pre; [eauto | discriminate].
  - cbn [includes]. rewrite orb_true_iff, IH, startsWith_spec. split.
    + intros [[post H] | [pre [post H]]].
      * exists EmptyString, post. exact H.
      * exists (String a pre), post. rewrite H. reflexivity.
    + intros [pre [post H]]. destruct pre as [|a' pre]; simpl in H.
      * left. eauto.
      * right. injection H as -> H. eauto.
Qed.

Lemma eqb_spec (s t : string) : JsString.eqb s t = true <-> s = t.
Proof. apply String.eqb_eq. Qed.

Lemma is_empty_spec (s : string) : is_empty s = true <-> s = EmptyString.
Proof. destruct s; simpl; split; congruence. Qed.

End StringFacts.

Example nameList_ex :
  nameList "  Jane   Doe ,Bo,, x ,John Smith" = ["Jane Doe"; "Bo"; "John Smith"].
Proof. reflexivity. Qed.

(* ===================================================================== *)
(** * The allow-lists *)
(* ===================================================================== *)

Lemma engineerMatches_spec (consultant eng : string) :
  engineerMatches consultant eng = true <->
  (let e := trim (toLowerCase eng) in
   let n := trim (toLowerCase consultant) in
   e = n \/ substring_of e n \/ substring_of n e).
Proof.
  unfold engineerMatches. cbv zeta.
  rewrite !orb_true_iff, eqb_spec, !includes_spec. tauto.
Qed.

Lemma saMatches_engineerMatches (sa filterSA : string) :
  saMatches sa filterSA = engineerMatches sa filterSA.
Proof. reflexivity. Qed.

Lemma allowList_some (matches : string -> string -> bool)
    (allow : option (list string)) (name : string) :
  (forall e, matches name e = true <->
     (let e' := trim (toLowerCase e) in
      let n := trim (toLowerCase name) in
      e' = n \/ substring_of e' n \/ substring_of n e')) ->
  (match allow with
   | Some (e :: l) => existsb (matches name) (e :: l)
   | _ => true
   end) = true <-> passesAllowList allow name.
Proof.
  intros Hm. unfold passesAllowList.
  destruct allow as [[|e l]|].
  - split; auto.
  - rewrite existsb_exists. split.
    + intros [x [Hin Hx]]. right; right. exists (e :: l), x.
      split; [reflexivity|]. split; [exact Hin|]. apply Hm, Hx.
    + intros [H | [H | [l' [x [Heq [Hin Hx]]]]]]; try discriminate.
      injection Heq as <-. exists x. split; [exact Hin|]. apply Hm, Hx.
  - split; auto.
Qed.

(** C3. A name passes an allow-list that is absent or empty; otherwise it
    passes exactly when some entry, both sides lower-cased and trimmed,
    equals the name, occurs in the name, or contains the name.  The
    engineer test and the SA test of pass 1 are both this rule, and the
    list with the single entry Jane Doe admits Jane Doe Jr and Jane but
    not John Doe. *)
Theorem allow_list_matching (filters : Filters) (name : string) :
  (engineerFilterPasses filters name = true
     <-> passesAllowList (filter_engineers filters) name)
  /\ (saFilterPasses filters name = true
     <-> passesAllowList (filter_solutionArchitects filters) name)
  /\ engineerFilterPasses noFilters name = true
  /\ saFilterPasses noFilters name = true
  /\ engineerFilterPasses
       {| filter_engineers := Some [];
          filter_solutionArchitects := filter_solutionArchitects filters;
          filter_exclusions := filter_exclusions filters |} name = true
  /\ saFilterPasses
       {| filter_engineers := filter_engineers filters;
          filter_solutionArchitects := Some [];
          filter_exclusions := filter_exclusions filters |} name = true
  /\ engineerFilterPasses janeOnly "Jane Doe Jr" = true
  /\ engineerFilterPasses janeOnly "Jane" = true
  /\ engineerFilterPasses janeOnly "John Doe" = false
  /\ saFilterPasses janeOnly "Jane Doe Jr" = true
  /\ saFilterPasses janeOnly "Jane" = true
  /\ saFilterPasses janeOnly "John Doe" = false.
Proof.
  split; [|split].
  - unfold engineerFilterPasses.
    apply (allowList_some engineerMatches), engineerMatches_spec.
  - unfold saFilterPasses.
    apply (allowList_some saMatches). intros e.
    rewrite saMatches_engineerMatches. apply engineerMatches_spec.
  - repeat split; reflexivity.
Qed.

(* ===================================================================== *)
(** * Invariants of the two passes *)
(* ===================================================================== *)

Lemma fold_left_invariant {A B : Type} (P : A -> Prop) (f : A -> B -> A)
    (l : list B) (a : A) :
  (forall a b, In b l -> P a -> P (f a b)) -> P a -> P (fold_left f l a).
Proof.
  revert a. induction l as [|b l IH]; intros a Hstep Ha; simpl.
  - exact Ha.
  - apply IH.
    + intros a' b' Hb'. apply Hstep. right. exact Hb'.
    + apply Hstep; [left; reflexivity | exact Ha].
Qed.

Lemma Qpositive_spec (q : Q) : Qpositive q = true <-> (0 < q)%Q.
Proof.
  unfold Qpositive. rewrite negb_true_iff. split.
  - intros H. apply Qnot_le_lt. intros Hle.
    apply Qle_bool_iff in Hle. congruence.
  - intros H. destruct (Qle_bool q 0) eqn:E; [|reflexivity].
    apply Qle_bool_iff in E. exfalso. exact (Qlt_not_le _ _ H E).
Qed.

Lemma budgetZero_not_positive (row : Row) :
  budgetZeroOrNonNumeric row -> Qpositive (budgetHrs row) = false.
Proof.
  intros H. destruct (Qpositive (budgetHrs row)) eqn:E; [|reflexivity].
  apply Qpositive_spec in E. unfold budgetHrs in E.
  destruct H as [H | [q [H Hq]]]; rewrite H in E; simpl in E.
  - exfalso. exact (Qlt_irrefl 0 E).
  - rewrite Hq in E. exfalso. exact (Qlt_irrefl 0 E).
Qed.

Lemma pass1Row_not_positive filters thr acc row :
  Qpositive (budgetHrs row) = false -> pass1Row filters thr acc row = acc.
Proof.
  intros H. unfold pass1Row, saBlock, consultantBlock.
  rewrite H, !andb_false_r. reflexivity.
Qed.

Lemma pass2Row_not_positive thr acc row :
  Qpositive (budgetHrs row) = false -> pass2Row thr acc row = acc.
Proof.
  intros H. unfold pass2Row, pass2Guard.
  rewrite H, !andb_false_r. reflexivity.
Qed.

Lemma consultantStep_divisors filters thr row st consultant :
  (0 < budgetHrs row)%Q ->
  divisorsPositive (fst st) ->
  divisorsPositive (fst (consultantStep filters thr row st consultant)).
Proof.
  intros Hb Hst. unfold consultantStep.
  destruct (negb _); [exact Hst|].
  destruct (isExcluded _ _ _); [exact Hst|].
  unfold divisorsPositive. simpl.
  apply Forall_app. split; [exact Hst|]. repeat constructor; exact Hb.
Qed.

Lemma saStep_divisors filters thr row st sa :
  (0 < budgetHrs row)%Q ->
  divisorsPositive (fst st) ->
  divisorsPositive (fst (saStep filters thr row st sa)).
Proof.
  intros Hb Hst. unfold saStep.
  destruct (negb _); [exact Hst|].
  unfold divisorsPositive. simpl.
  apply Forall_app. split; [exact Hst|]. repeat constructor; exact Hb.
Qed.

Lemma pass1Row_divisors filters thr acc row :
  divisorsPositive acc -> divisorsPositive (pass1Row filters thr acc row).
Proof.
  intros Hacc.
  assert (H : divisorsPositive
            (fst (saBlock filters thr row
                    (consultantBlock filters thr row (acc, false))))).
  { unfold saBlock, consultantBlock.
    destruct (Qpositive (budgetHrs row)) eqn:Hpos.
    - apply Qpositive_spec in Hpos.
      assert (H1 : forall st,
                 divisorsPositive (fst st) ->
                 divisorsPositive
                   (fst (if negb (is_empty (resourcesEngaged row)) && true
                         then fold_left (consultantStep filters thr row)
                                (nameList (resourcesEngaged row)) st
                         else st))).
      { intros st Hst. destruct (_ && true); [|exact Hst].
        apply (fold_left_invariant (fun s => divisorsPositive (fst s)));
          [|exact Hst].
        intros a b _. apply consultantStep_divisors. exact Hpos. }
      destruct (negb (is_empty (solutionArchitect row))
                && negb (is_empty (trim (solutionArchitect row))) && true).
      + apply (fold_left_invariant (fun s => divisorsPositive (fst s))).
        * intros a b _. apply saStep_divisors. exact Hpos.
        * apply H1. exact Hacc.
      + apply H1. exact Hacc.
    - rewrite !andb_false_r. exact Hacc. }
  unfold pass1Row. destruct (snd _); [|exact H].
  exact H.
Qed.

Lemma pass2Row_divisors thr acc row :
  divisorsPositive acc -> divisorsPositive (pass2Row thr acc row).
Proof.
  intros Hacc. unfold pass2Row, pass2Guard.
  destruct (Qpositive (budgetHrs row)) eqn:Hpos.
  - apply Qpositive_spec in Hpos.
    destruct (_ && true); [|exact Hacc].
    unfold divisorsPositive. simpl.
    apply Forall_app. split; [exact Hacc|]. repeat constructor; exact Hpos.
  - rewrite !andb_false_r. exact Hacc.
Qed.

Lemma aggregate_divisors data filters config :
  divisorsPositive (aggregate data filters config).
Proof.
  unfold aggregate, pass2, pass1.
  apply fold_left_invariant; [intros a b _; apply pass2Row_divisors|].
  apply fold_left_invariant; [intros a b _; apply pass1Row_divisors|].
  constructor.
Qed.

(** C1. A row whose Budget Hrs cell is zero or not a number leaves every
    object of the analysis as it was, in pass 1 (consultants, solution
    architects, practice projects) and in pass 2 (both customer maps),
    whatever its actual hours; the analysis of a data set is the analysis
    of the data set without that row; and in the analysis of any data set
    every evaluation of (actualHrs - budgetHrs) / budgetHrs has a divisor
    greater than zero. *)
Theorem budget_zero_exclusion (filters : Filters) (config : Config)
    (before after : list Row) (row : Row) :
  budgetZeroOrNonNumeric row ->
  (forall acc, pass1Row filters (successThresholdOf config) acc row = acc)
  /\ (forall acc, pass2Row (successThresholdOf config) acc row = acc)
  /\ aggregate (before ++ row :: after) filters config
     = aggregate (before ++ after) filters config
  /\ (forall data : list Row,
        Forall (fun divisor => (0 < divisor)%Q)
               (varianceDivisors (aggregate data filters config))).
Proof.
  intros Hz. apply budgetZero_not_positive in Hz.
  split; [|split; [|split]].
  - intros acc. apply pass1Row_not_positive, Hz.
  - intros acc. apply pass2Row_not_positive, Hz.
  - unfold aggregate, pass2, pass1. rewrite !fold_left_app. simpl.
    rewrite pass1Row_not_positive by exact Hz.
    rewrite pass2Row_not_positive by exact Hz. reflexivity.
  - intros data. apply aggregate_divisors.
Qed.

Lemma budget_zero_exclusion_witness :
  aggregate ([mkRow "J1" "Acme" 100 120 "Alice" "Sam Lee" "Closed" 1]
               ++ zeroBudgetRow :: []) noFilters defaultConfig
  = aggregate ([mkRow "J1" "Acme" 100 120 "Alice" "Sam Lee" "Closed" 1] ++ [])
      noFilters defaultConfig.
Proof.
  apply (budget_zero_exclusion noFilters defaultConfig
           [mkRow "J1" "Acme" 100 120 "Alice" "Sam Lee" "Closed" 1] []
           zeroBudgetRow).
  right. exists 0%Q. split; reflexivity.
Defined.

(* ===================================================================== *)
(** * Practice projects and the two customer maps *)
(* ===================================================================== *)

Lemma consultantStep_cases filters thr row st c :
  consultantStep filters thr row st c =
  if consultantAccepted filters row c
  then ({| consultants :=
             <[c := creditConsultant thr row
                      (default Consultant.fresh (consultants (fst st) !! c))]>
               (consultants (fst st));
           solutionArchitects := solutionArchitects (fst st);
           customers := customers (fst st);
           allCustomers := allCustomers (fst st);
           practiceProjects := practiceProjects (fst st);
           varianceDivisors :=
             varianceDivisors (fst st) ++ [budgetHrs row; budgetHrs row] |},
        true)
  else st.
Proof.
  unfold consultantStep, consultantAccepted.
  destruct (engineerFilterPasses filters c); simpl; [|reflexivity].
  destruct (isExcluded filters c (jobNumber row)); reflexivity.
Qed.

Lemma consultantFold_flag filters thr row l st :
  let st' := fold_left (consultantStep filters thr row) l st in
  snd st' = snd st || existsb (consultantAccepted filters row) l
  /\ pass2Part (fst st') = pass2Part (fst st)
  /\ solutionArchitects (fst st') = solutionArchitects (fst st).
Proof.
  revert st. induction l as [|c l IH]; intros st; simpl.
  - rewrite orb_false_r. auto.
  - destruct (IH (consultantStep filters thr row st c)) as (H1 & H2 & H3).
    rewrite H1, H2, H3, consultantStep_cases.
    destruct (consultantAccepted filters row c); simpl; [|auto].
    rewrite orb_true_r. auto.
Qed.

Lemma saFold_flag filters thr row l st :
  let st' := fold_left (saStep filters thr row) l st in
  snd st' = snd st || existsb (saFilterPasses filters) l
  /\ pass2Part (fst st') = pass2Part (fst st)
  /\ consultants (fst st') = consultants (fst st).
Proof.
  revert st. induction l as [|s l IH]; intros st; simpl.
  - rewrite orb_false_r. auto.
  - destruct (IH (saStep filters thr row st s)) as (H1 & H2 & H3).
    rewrite H1, H2, H3. unfold saStep.
    destruct (saFilterPasses filters s); simpl; [|auto].
    rewrite orb_true_r. auto.
Qed.

(** White space only: the pieces of such a field give no name. *)
Lemma trimEnd_empty (s : string) :
  trimEnd s = EmptyString ->
  forall sep, is_space sep = false -> split sep s = [s].
Proof.
  induction s as [|c s IH]; intros H sep Hsep; [reflexivity|].
  simpl in H. destruct (is_space c) eqn:Hc; [|discriminate].
  destruct (trimEnd s) eqn:Ht; [|discriminate].
  simpl. destruct (Ascii.eqb c sep) eqn:E.
  - apply Ascii.eqb_eq in E. congruence.
  - rewrite (IH eq_refl sep Hsep). reflexivity.
Qed.

Lemma trim_empty_split (s : string) :
  trim s = EmptyString ->
  forall sep, is_space sep = false -> split sep s = [s].
Proof.
  unfold trim. induction s as [|c s IH]; intros H sep Hsep; [reflexivity|].
  simpl in H. destruct (is_space c) eqn:Hc.
  - simpl. destruct (Ascii.eqb c sep) eqn:E.
    + apply Ascii.eqb_eq in E. congruence.
    + rewrite (IH H sep Hsep). reflexivity.
  - apply trimEnd_empty; assumption.
Qed.

Lemma nameList_blank (field : string) :
  trim field = EmptyString -> nameList field = [].
Proof.
  intros H. unfold nameList.
  rewrite (trim_empty_split field H comma eq_refl). simpl.
  unfold normalizeName. rewrite H. reflexivity.
Qed.

Lemma consultantBlock_flag filters thr row st :
  let st' := consultantBlock filters thr row st in
  snd st' = snd st
            || (Qpositive (budgetHrs row)
                && existsb (consultantAccepted filters row)
                     (nameList (resourcesEngaged row)))
  /\ pass2Part (fst st') = pass2Part (fst st)
  /\ solutionArchitects (fst st') = solutionArchitects (fst st).
Proof.
  unfold consultantBlock.
  destruct (Qpositive (budgetHrs row)); simpl.
  - destruct (resourcesEngaged row) as [|a r] eqn:Hr; simpl.
    + rewrite orb_false_r. auto.
    + apply consultantFold_flag.
  - rewrite andb_false_r, orb_false_r. auto.
Qed.

Lemma saBlock_flag filters thr row st :
  let st' := saBlock filters thr row st in
  snd st' = snd st
            || (Qpositive (budgetHrs row)
                && existsb (saFilterPasses filters)
                     (nameList (solutionArchitect row)))
  /\ pass2Part (fst st') = pass2Part (fst st)
  /\ consultants (fst st') = consultants (fst st).
Proof.
  unfold saBlock.
  destruct (Qpositive (budgetHrs row)); simpl.
  - destruct (is_empty (trim (solutionArchitect row))) eqn:Ht.
    + apply is_empty_spec in Ht. rewrite (nameList_blank _ Ht).
      rewrite andb_false_r. simpl. rewrite orb_false_r. auto.
    + destruct (is_empty (solutionArchitect row)) eqn:He.
      * apply is_empty_spec in He. rewrite He in Ht. discriminate.
      * simpl. apply saFold_flag.
  - rewrite !andb_false_r, orb_false_r. auto.
Qed.

Lemma pass1Row_practice filters thr acc row :
  pass2Part (pass1Row filters thr acc row) =
  (customers acc, allCustomers acc,
   if rowAccepted filters row
   then {[ jobNumber row ]} ∪ practiceProjects acc
   else practiceProjects acc).
Proof.
  unfold pass1Row.
  pose proof (consultantBlock_flag filters thr row (acc, false)) as (C1 & C2 & _).
  pose proof (saBlock_flag filters thr row
                (consultantBlock filters thr row (acc, false))) as (S1 & S2 & _).
  cbv zeta in *. rewrite S1, C1. simpl.
  rewrite <- andb_orb_distrib_r. fold (rowAccepted filters row).
  assert (Hp : pass2Part (fst (saBlock filters thr row
                 (consultantBlock filters thr row (acc, false))))
               = pass2Part acc) by (rewrite S2, C2; reflexivity).
  destruct (rowAccepted filters row).
  - unfold markPractice, pass2Part in *. simpl.
    injection Hp as -> -> ->. reflexivity.
  - exact Hp.
Qed.

Lemma pass1_parts filters thr data acc :
  customers (pass1 filters thr data acc) = customers acc
  /\ allCustomers (pass1 filters thr data acc) = allCustomers acc
  /\ forall job,
       job ∈ practiceProjects (pass1 filters thr data acc) <->
       job ∈ practiceProjects acc
       \/ exists row, In row data /\ jobNumber row = job
                      /\ rowAccepted filters row = true.
Proof.
  unfold pass1. revert acc. induction data as [|r data IH]; intros acc; simpl.
  - split; [reflexivity|]. split; [reflexivity|]. intros job. split; [auto|].
    intros [H | (row & [] & _)]. exact H.
  - destruct (IH (pass1Row filters thr acc r)) as (H1 & H2 & H3).
    pose proof (pass1Row_practice filters thr acc r) as Hp.
    unfold pass2Part in Hp. injection Hp as Hc Ha Hs.
    rewrite H1, H2, Hc, Ha. split; [reflexivity|]. split; [reflexivity|].
    intros job. rewrite H3, Hs. split.
    + intros [H | (row & Hin & Hj & Hacc)].
      * destruct (rowAccepted filters r) eqn:E; [|auto].
        apply elem_of_union in H as [H | H]; [|auto].
        apply elem_of_singleton in H. right. exists r. auto.
      * right. exists row. auto.
    + intros [H | (row & [<- | Hin] & Hj & Hacc)].
      * left. destruct (rowAccepted filters r); [|exact H].
        apply elem_of_union. auto.
      * left. rewrite Hacc. apply elem_of_union. left.
        apply elem_of_singleton. auto.
      * right. exists row. auto.
Qed.

Lemma pass2Row_parts thr acc r :
  practiceProjects (pass2Row thr acc r) = practiceProjects acc
  /\ allCustomers (pass2Row thr acc r)
     = (if pass2Guard r then creditRow thr (allCustomers acc) r
        else allCustomers acc)
  /\ customers (pass2Row thr acc r)
     = (if pass2Guard r && bool_decide (jobNumber r ∈ practiceProjects acc)
        then creditRow thr (customers acc) r
        else customers acc).
Proof.
  unfold pass2Row. destruct (pass2Guard r); simpl; [|auto].
  split; [reflexivity|]. split; [reflexivity|].
  destruct (decide (jobNumber r ∈ practiceProjects acc)) as [e|n].
  - rewrite (bool_decide_eq_true_2 _ e). reflexivity.
  - rewrite (bool_decide_eq_false_2 _ n). reflexivity.
Qed.

Lemma pass2_maps thr data acc :
  practiceProjects (pass2 thr data acc) = practiceProjects acc
  /\ allCustomers (pass2 thr data acc)
     = fold_left (creditRow thr) (List.filter pass2Guard data) (allCustomers acc)
  /\ customers (pass2 thr data acc)
     = fold_left (creditRow thr)
         (List.filter (fun row =>
            pass2Guard row
            && bool_decide (jobNumber row ∈ practiceProjects acc)) data)
         (customers acc).
Proof.
  unfold pass2. revert acc. induction data as [|r data IH]; intros acc; simpl.
  - auto.
  - destruct (IH (pass2Row thr acc r)) as (H1 & H2 & H3).
    destruct (pass2Row_parts thr acc r) as (R1 & R2 & R3).
    rewrite H1, H2, H3, R1, R2, R3.
    split; [reflexivity|]. split.
    + destruct (pass2Guard r); reflexivity.
    + destruct (pass2Guard r && bool_decide (jobNumber r ∈ practiceProjects acc));
        reflexivity.
Qed.

Lemma creditFold_lookup thr (l : list Row) (m : gmap string Customer.t)
    (name : string) :
  is_Some (fold_left (creditRow thr) l m !! name) <->
  is_Some (m !! name) \/ exists row, In row l /\ customerNameOf row = name.
Proof.
  revert m. induction l as [|r l IH]; intros m; simpl.
  - split; [auto|]. intros [H | (row & [] & _)]. exact H.
  - rewrite IH. unfold creditRow at 1, creditCustomerIn.
    rewrite lookup_insert_is_Some. split.
    + intros [[H | [_ H]] | (row & Hin & Hn)]; eauto.
    + intros [H | (row & [<- | Hin] & Hn)]; eauto.
      destruct (decide (customerNameOf r = name)); auto.
Qed.

Lemma customerNameOf_nonempty (row : Row) :
  is_empty (customerNameOf row) = false.
Proof.
  unfold customerNameOf. destruct (is_empty (customer row)) eqn:E; auto.
Qed.

Lemma pass2Guard_spec (row : Row) :
  pass2Guard row = true <->
  trim (customerNameOf row) <> EmptyString /\ (0 < budgetHrs row)%Q.
Proof.
  unfold pass2Guard. rewrite customerNameOf_nonempty. simpl.
  rewrite andb_true_iff, Qpositive_spec, negb_true_iff.
  rewrite <- not_true_iff_false, is_empty_spec. tauto.
Qed.

Lemma customerNameOf_given (row : Row) :
  customer row <> EmptyString -> customerNameOf row = customer row.
Proof.
  intros H. unfold customerNameOf. destruct (customer row); [congruence|].
  reflexivity.
Qed.

Lemma aggregate_maps data filters config :
  let thr := successThresholdOf config in
  let result := aggregate data filters config in
  (forall job,
     job ∈ practiceProjects result <->
     exists row, In row data /\ jobNumber row = job
                 /\ rowAccepted filters row = true)
  /\ allCustomers result
     = fold_left (creditRow thr) (List.filter pass2Guard data) ∅
  /\ customers result
     = fold_left (creditRow thr)
         (List.filter (fun row =>
            pass2Guard row
            && bool_decide (jobNumber row ∈ practiceProjects result)) data) ∅.
Proof.
  intros thr result. unfold result, aggregate. fold thr.
  destruct (pass1_parts filters thr data emptyAccumulators) as (P1 & P2 & P3).
  destruct (pass2_maps thr data (pass1 filters thr data emptyAccumulators))
    as (Q1 & Q2 & Q3).
  rewrite Q1, Q2, Q3, P1, P2. split; [|split; reflexivity].
  intros job. rewrite P3. split.
  - intros [H | H]; [|exact H]. simpl in H.
    apply not_elem_of_empty in H. contradiction.
  - auto.
Qed.

Lemma trim_nonempty (s : string) :
  trim s <> EmptyString -> s <> EmptyString.
Proof. intros H ->. apply H. reflexivity. Qed.

Lemma rowAccepted_none filters row :
  (forall c, In c (nameList (resourcesEngaged row)) ->
             engineerFilterPasses filters c = false) ->
  solutionArchitect row = EmptyString ->
  rowAccepted filters row = false.
Proof.
  intros Hc Hsa. unfold rowAccepted. rewrite Hsa. simpl.
  rewrite orb_false_r.
  destruct (existsb _ _) eqn:E; [|apply andb_false_r].
  apply existsb_exists in E as (c & Hin & Hacc).
  unfold consultantAccepted in Hacc. rewrite (Hc c Hin) in Hacc. discriminate.
Qed.

(* ===================================================================== *)
(** * The analysis on inherited names *)
(* ===================================================================== *)

Lemma existsb_orb {A} (f g : A -> bool) (l : list A) :
  existsb (fun x => f x || g x) l = existsb f l || existsb g l.
Proof.
  induction l as [|x l IH]; [reflexivity|]. simpl. rewrite IH.
  destruct (f x), (g x), (existsb f l), (existsb g l); reflexivity.
Qed.

Lemma consultantFoldOrThrow_None (filters : Filters) (thr : Q) (row : Row)
    (names : list string) :
  fold_left (consultantStepOrThrow filters thr row) names None = None.
Proof. induction names as [|c names IH]; [reflexivity | exact IH]. Qed.

Lemma saFoldOrThrow_None (filters : Filters) (thr : Q) (row : Row)
    (names : list string) :
  fold_left (saStepOrThrow filters thr row) names None = None.
Proof. induction names as [|c names IH]; [reflexivity | exact IH]. Qed.

Lemma consultantStepOrThrow_spec (filters : Filters) (thr : Q) (row : Row)
    (st : Accumulators * bool) (c : string) :
  consultantStepOrThrow filters thr row (Some st) c
  = if consultantAccepted filters row c && inheritedMember c then None
    else Some (consultantStep filters thr row st c).
Proof.
  unfold consultantStepOrThrow, consultantStep, consultantAccepted.
  destruct (engineerFilterPasses filters c); [|reflexivity].
  destruct (isExcluded filters c (jobNumber row)); [reflexivity|].
  destruct (inheritedMember c); reflexivity.
Qed.

Lemma saStepOrThrow_spec (filters : Filters) (thr : Q) (row : Row)
    (st : Accumulators * bool) (s : string) :
  saStepOrThrow filters thr row (Some st) s
  = if saFilterPasses filters s && inheritedMember s then None
    else Some (saStep filters thr row st s).
Proof.
  unfold saStepOrThrow, saStep.
  destruct (saFilterPasses filters s); [|reflexivity].
  destruct (inheritedMember s); reflexivity.
Qed.

Lemma consultantFoldOrThrow_spec (filters : Filters) (thr : Q) (row : Row)
    (names : list string) (st : Accumulators * bool) :
  fold_left (consultantStepOrThrow filters thr row) names (Some st)
  = if existsb (fun c => consultantAccepted filters row c && inheritedMember c)
         names
    then None
    else Some (fold_left (consultantStep filters thr row) names st).
Proof.
  revert st. induction names as [|c names IH]; intros st; [reflexivity|].
  cbn [fold_left existsb]. rewrite consultantStepOrThrow_spec.
  destruct (consultantAccepted filters row c && inheritedMember c); cbn [orb].
  - apply consultantFoldOrThrow_None.
  - apply IH.
Qed.

Lemma saFoldOrThrow_spec (filters : Filters) (thr : Q) (row : Row)
    (names : list string) (st : Accumulators * bool) :
  fold_left (saStepOrThrow filters thr row) names (Some st)
  = if existsb (fun s => saFilterPasses filters s && inheritedMember s) names
    then None
    else Some (fold_left (saStep filters thr row) names st).
Proof.
  revert st. induction names as [|c names IH]; intros st; [reflexivity|].
  cbn [fold_left existsb]. rewrite saStepOrThrow_spec.
  destruct (saFilterPasses filters c && inheritedMember c); cbn [orb].
  - apply saFoldOrThrow_None.
  - apply IH.
Qed.

Lemma pass1RowOrThrow_spec (filters : Filters) (thr : Q) (acc : Accumulators)
    (row : Row) :
  pass1RowOrThrow filters thr (Some acc) row
  = if consultantThrows filters row || saThrows filters row then None
    else Some (pass1Row filters thr acc row).
Proof.
  unfold pass1RowOrThrow, pass1Row, consultantBlockOrThrow, consultantBlock,
    saBlockOrThrow, saBlock, consultantThrows, saThrows.
  destruct (negb (is_empty (resourcesEngaged row)) && Qpositive (budgetHrs row));
    cbn [andb].
  - rewrite consultantFoldOrThrow_spec.
    destruct (existsb _ (nameList (resourcesEngaged row))); cbn [orb].
    + destruct (negb (is_empty (solutionArchitect row))
                && negb (is_empty (trim (solutionArchitect row)))
                && Qpositive (budgetHrs row)); [|reflexivity].
      rewrite saFoldOrThrow_None. reflexivity.
    + destruct (negb (is_empty (solutionArchitect row))
                && negb (is_empty (trim (solutionArchitect row)))
                && Qpositive (budgetHrs row)); cbn [andb]; [|reflexivity].
      rewrite saFoldOrThrow_spec.
      destruct (existsb _ (nameList (solutionArchitect row))); reflexivity.
  - cbn [orb].
    destruct (negb (is_empty (solutionArchitect row))
              && negb (is_empty (trim (solutionArchitect row)))
              && Qpositive (budgetHrs row)); cbn [andb]; [|reflexivity].
    rewrite saFoldOrThrow_spec.
    destruct (existsb _ (nameList (solutionArchitect row))); reflexivity.
Qed.

Lemma pass1OrThrow_None (filters : Filters) (thr : Q) (data : list Row) :
  fold_left (pass1RowOrThrow filters thr) data None = None.
Proof. induction data as [|row data IH]; [reflexivity | exact IH]. Qed.

Lemma pass2OrThrow_None (thr : Q) (data : list Row) :
  fold_left (pass2RowOrThrow thr) data None = None.
Proof. induction data as [|row data IH]; [reflexivity | exact IH]. Qed.

Lemma pass1OrThrow_spec (filters : Filters) (thr : Q) (data : list Row)
    (acc : Accumulators) :
  fold_left (pass1RowOrThrow filters thr) data (Some acc)
  = if existsb (fun row => consultantThrows filters row || saThrows filters row)
         data
    then None
    else Some (pass1 filters thr data acc).
Proof.
  revert acc. induction data as [|row data IH]; intros acc; [reflexivity|].
  cbn [fold_left existsb]. rewrite pass1RowOrThrow_spec.
  destruct (consultantThrows filters row || saThrows filters row); cbn [orb].
  - apply pass1OrThrow_None.
  - rewrite IH. reflexivity.
Qed.

Lemma pass2OrThrow_spec (thr : Q) (data : list Row) (acc : Accumulators) :
  fold_left (pass2RowOrThrow thr) data (Some acc)
  = if existsb customerThrows data then None
    else Some (pass2 thr data acc).
Proof.
  revert acc. induction data as [|row data IH]; intros acc; [reflexivity|].
  cbn [fold_left existsb]. unfold pass2RowOrThrow at 2.
  fold (customerThrows row).
  destruct (customerThrows row); cbn [orb].
  - apply pass2OrThrow_None.
  - rewrite IH. reflexivity.
Qed.

(** The analysis raises exactly when some row brings an accepted
    consultant, an accepted solution architect or a customer of pass 2
    under an inherited name; otherwise it returns the accumulators of
    [aggregate]. *)
Lemma aggregateOrThrow_spec (data : list Row) (filters : Filters)
    (config : Config) :
  aggregateOrThrow data filters config
  = if analysisThrows filters data then None
    else Some (aggregate data filters config).
Proof.
  unfold aggregateOrThrow, analysisThrows, aggregate, rowThrows.
  rewrite pass1OrThrow_spec.
  rewrite (existsb_orb (fun row => consultantThrows filters row
                                   || saThrows filters row) customerThrows).
  destruct (existsb (fun row => consultantThrows filters row
                                || saThrows filters row) data); cbn [orb].
  - apply pass2OrThrow_None.
  - apply pass2OrThrow_spec.
Qed.

Lemma aggregateOrThrow_returns (data : list Row) (filters : Filters)
    (config : Config) :
  analysisThrows filters data = false ->
  aggregateOrThrow data filters config = Some (aggregate data filters config).
Proof. intros H. rewrite aggregateOrThrow_spec, H. reflexivity. Qed.

Lemma analysisThrows_perm (filters : Filters) (data data' : list Row) :
  data ≡ₚ data' -> analysisThrows filters data = analysisThrows filters data'.
Proof.
  intros Hp. unfold analysisThrows. apply eq_true_iff_eq.
  rewrite !existsb_exists. split; intros (x & Hin & Hx); exists x;
    (split; [|exact Hx]).
  - apply list_elem_of_In. rewrite <- Hp. apply list_elem_of_In, Hin.
  - apply list_elem_of_In. rewrite Hp. apply list_elem_of_In, Hin.
Qed.

(** The company map skips a row whose customer is not the empty string
    but white space only, although its budget is positive. *)
Lemma company_map_blank_customer :
  customer blankCustomerRow <> EmptyString
  /\ (0 < budgetHrs blankCustomerRow)%Q
  /\ allCustomers (aggregate [blankCustomerRow] noFilters defaultConfig)
       !! customer blankCustomerRow = None
  /\ allCustomers (aggregate [blankCustomerRow] noFilters defaultConfig) = ∅.
Proof.
  split; [discriminate|]. repeat split.
Qed.

(** C2 (amended). On a data set in which no accepted consultant, no
    accepted solution architect and no customer of pass 2 bears the name
    of a member that every object inherits, the analysis returns, and in
    its result: a job number is a practice project exactly when some
    row bearing it has positive budget and an accepted contribution, a
    consultant that passes the engineer allow-list and is not excluded,
    or an SA that passes the SA allow-list.  Pass 2 credits to the
    company map every row that passes its guard, which is a customer name
    not blank after trimming and a positive budget, and to the practice
    map those of them whose job number is a practice project.  For a
    single row whose consultants all fail the engineer allow-list and
    whose SA cell is empty, the customer is in the company map, the job
    number is not a practice project and the practice map is empty.  On
    the other data sets the analysis raises a TypeError:
    [aggregateOrThrow_spec]. *)
Theorem practice_company_split (data : list Row) (filters : Filters)
    (config : Config) :
  analysisThrows filters data = false ->
  let thr := successThresholdOf config in
  let result := aggregate data filters config in
  aggregateOrThrow data filters config = Some result
  /\ (forall job,
     job ∈ practiceProjects result <->
     exists row, In row data /\ jobNumber row = job
                 /\ rowAccepted filters row = true)
  /\ allCustomers result
     = fold_left (creditRow thr) (List.filter pass2Guard data) ∅
  /\ customers result
     = fold_left (creditRow thr)
         (List.filter (fun row =>
            pass2Guard row
            && bool_decide (jobNumber row ∈ practiceProjects result)) data) ∅
  /\ (forall row,
        In row data -> trim (customer row) <> EmptyString ->
        (0 < budgetHrs row)%Q ->
        is_Some (allCustomers result !! customer row)
        /\ (jobNumber row ∈ practiceProjects result ->
            is_Some (customers result !! customer row)))
  /\ (forall name,
        is_Some (customers result !! name) <->
        exists row, In row data /\ pass2Guard row = true
                    /\ customerNameOf row = name
                    /\ jobNumber row ∈ practiceProjects result)
  /\ (forall row,
        data = [row] ->
        (forall c, In c (nameList (resourcesEngaged row)) ->
                   engineerFilterPasses filters c = false) ->
        solutionArchitect row = EmptyString ->
        trim (customer row) <> EmptyString -> (0 < budgetHrs row)%Q ->
        is_Some (allCustomers result !! customer row)
        /\ (jobNumber row ∉ practiceProjects result)
        /\ customers result = ∅).
Proof.
  intros Hsafe thr result.
  split; [apply aggregateOrThrow_returns, Hsafe|].
  destruct (aggregate_maps data filters config) as (HP & HA & HC).
  fold thr result in HP, HA, HC.
  assert (Hrow : forall row,
            In row data -> trim (customer row) <> EmptyString ->
            (0 < budgetHrs row)%Q ->
            is_Some (allCustomers result !! customer row)
            /\ (jobNumber row ∈ practiceProjects result ->
                is_Some (customers result !! customer row))).
  { intros row Hin Hc Hb.
    pose proof (customerNameOf_given row (trim_nonempty _ Hc)) as Hn.
    assert (Hg : pass2Guard row = true).
    { apply pass2Guard_spec. rewrite Hn. auto. }
    split.
    - rewrite HA. apply creditFold_lookup. right. exists row.
      split; [|exact Hn]. apply filter_In. auto.
    - intros Hj. rewrite HC. apply creditFold_lookup. right. exists row.
      split; [|exact Hn]. apply filter_In. split; [exact Hin|].
      rewrite Hg. simpl. apply bool_decide_eq_true_2, Hj. }
  split; [exact HP|]. split; [exact HA|]. split; [exact HC|].
  split; [exact Hrow|]. split.
  - intros name. rewrite HC at 1. rewrite creditFold_lookup. split.
    + intros [H | (row & Hin & Hn)].
      * rewrite lookup_empty in H. destruct H as [x H]. discriminate.
      * apply filter_In in Hin as [Hin Hg].
        apply andb_true_iff in Hg as [Hg Hj].
        apply bool_decide_eq_true_1 in Hj. exists row. auto.
    + intros (row & Hin & Hg & Hn & Hj). right. exists row.
      split; [|exact Hn]. apply filter_In. split; [exact Hin|].
      rewrite Hg. simpl. apply bool_decide_eq_true_2, Hj.
  - intros row Hd Hc Hsa Hcust Hb.
    assert (Hnot : forall job, job ∉ practiceProjects result).
    { intros job Hj. apply HP in Hj as (row' & Hin & _ & Hacc).
      rewrite Hd in Hin. destruct Hin as [<- | []].
      rewrite (rowAccepted_none filters row Hc Hsa) in Hacc. discriminate. }
    split; [|split].
    + apply Hrow; [rewrite Hd; left; reflexivity | exact Hcust | exact Hb].
    + apply Hnot.
    + rewrite HC, Hd. simpl.
      rewrite (bool_decide_eq_false_2 _ (Hnot (jobNumber row))).
      rewrite andb_false_r. reflexivity.
Qed.

Lemma practice_company_split_witness :
  is_Some (allCustomers (aggregate [outsiderRow] janeOnly defaultConfig)
             !! customer outsiderRow)
  /\ (jobNumber outsiderRow
       ∉ practiceProjects (aggregate [outsiderRow] janeOnly defaultConfig))
  /\ customers (aggregate [outsiderRow] janeOnly defaultConfig) = ∅.
Proof.
  pose proof (practice_company_split [outsiderRow] janeOnly defaultConfig) as H.
  destruct H as (_ & _ & _ & _ & _ & _ & H); [reflexivity|].
  apply H.
  - reflexivity.
  - intros c [<- | []]. reflexivity.
  - reflexivity.
  - discriminate.
  - reflexivity.
Defined.

(* ===================================================================== *)
(** * Fan-out of a row over its consultants *)
(* ===================================================================== *)

Lemma Qnat_S (k : nat) (a : Q) : (Qnat (S k) * a == Qnat k * a + a)%Q.
Proof.
  unfold Qnat. rewrite Nat2Z.inj_succ, <- Z.add_1_r, inject_Z_plus. ring.
Qed.

Lemma consultantFold_credit filters thr row name l st :
  let st' := fold_left (consultantStep filters thr row) l st in
  (hoursOf (consultants (fst st')) name
   == hoursOf (consultants (fst st)) name
      + Qnat (acceptedCount filters row name l) * actualHrs row)%Q
  /\ projectsOf (consultants (fst st')) name
     = (projectsOf (consultants (fst st)) name
        + acceptedCount filters row name l)%nat.
Proof.
  revert st. induction l as [|c l IH]; intros st; simpl.
  - unfold acceptedCount, Qnat. simpl. split; [ring | lia].
  - destruct (IH (consultantStep filters thr row st c)) as [H1 H2].
    rewrite H1, H2. clear IH H1 H2.
    rewrite consultantStep_cases. unfold acceptedCount. simpl.
    destruct (consultantAccepted filters row c); simpl; [|auto with qarith].
    destruct (String.eqb c name) eqn:E; simpl.
    + apply String.eqb_eq in E. subst c.
      unfold hoursOf, projectsOf. rewrite lookup_insert_eq. simpl.
      split; [|lia].
      rewrite Qnat_S. ring.
    + apply String.eqb_neq in E.
      unfold hoursOf, projectsOf. rewrite lookup_insert_ne by exact E.
      split; reflexivity.
Qed.

Lemma pass1Row_consultants filters thr acc row :
  Qpositive (budgetHrs row) = true ->
  consultants (pass1Row filters thr acc row)
  = consultants (fst (fold_left (consultantStep filters thr row)
                        (nameList (resourcesEngaged row)) (acc, false))).
Proof.
  intros Hpos.
  assert (Hc : consultantBlock filters thr row (acc, false)
               = fold_left (consultantStep filters thr row)
                   (nameList (resourcesEngaged row)) (acc, false)).
  { unfold consultantBlock. rewrite Hpos.
    destruct (resourcesEngaged row); reflexivity. }
  unfold pass1Row.
  destruct (saBlock_flag filters thr row
              (consultantBlock filters thr row (acc, false))) as (_ & _ & H).
  cbv zeta in H. rewrite <- Hc.
  destruct (snd _); [unfold markPractice; simpl|]; exact H.
Qed.


(** A customer named like the constructor member ends the analysis. *)
Example analysis_raises_on_constructor :
  analysisThrows noFilters [constructorRow] = true
  /\ aggregateOrThrow [constructorRow] noFilters defaultConfig = None.
Proof. split; reflexivity. Qed.





(* ===================================================================== *)
(** * Rows without a customer *)
(* ===================================================================== *)

Lemma saFold_credit filters thr row name l st :
  saProjectsOf (solutionArchitects
                  (fst (fold_left (saStep filters thr row) l st))) name
  = (saProjectsOf (solutionArchitects (fst st)) name
     + saAcceptedCount filters name l)%nat.
Proof.
  revert st. induction l as [|s l IH]; intros st; simpl.
  - unfold saAcceptedCount. simpl. lia.
  - rewrite IH. clear IH. unfold saStep, saAcceptedCount. simpl.
    destruct (saFilterPasses filters s); simpl; [|reflexivity].
    destruct (String.eqb s name) eqn:E; simpl.
    + apply String.eqb_eq in E. subst s.
      unfold saProjectsOf. rewrite lookup_insert_eq. simpl. lia.
    + apply String.eqb_neq in E.
      unfold saProjectsOf. rewrite lookup_insert_ne by exact E. reflexivity.
Qed.

Lemma pass1Row_solutionArchitects filters thr acc row :
  Qpositive (budgetHrs row) = true ->
  solutionArchitects (pass1Row filters thr acc row)
  = solutionArchitects
      (fst (fold_left (saStep filters thr row)
              (nameList (solutionArchitect row))
              (consultantBlock filters thr row (acc, false)))).
Proof.
  intros Hpos.
  assert (Hs : forall st,
             saBlock filters thr row st
             = fold_left (saStep filters thr row)
                 (nameList (solutionArchitect row)) st).
  { intros st. unfold saBlock. rewrite Hpos, andb_true_r.
    destruct (is_empty (trim (solutionArchitect row))) eqn:Ht.
    - apply is_empty_spec in Ht. rewrite (nameList_blank _ Ht).
      rewrite andb_false_r. reflexivity.
    - destruct (is_empty (solutionArchitect row)) eqn:He; [|reflexivity].
      apply is_empty_spec in He. rewrite He in Ht. discriminate. }
  unfold pass1Row. rewrite Hs.
  destruct (snd _); reflexivity.
Qed.

(** The row is not left out of the customer maps: both file it under
    the name Unknown. *)
Lemma missing_customer_is_unknown :
  customer noCustomerRow = EmptyString
  /\ (0 < budgetHrs noCustomerRow)%Q
  /\ Customer.projects
       <$> allCustomers (aggregate [noCustomerRow] noFilters defaultConfig)
             !! "Unknown" = Some 1%nat
  /\ Customer.projects
       <$> customers (aggregate [noCustomerRow] noFilters defaultConfig)
             !! "Unknown" = Some 1%nat.
Proof. repeat split. Qed.

(** C7 (amended). For a row with positive budget: when the Customer cell
    is missing or empty, pass 2 credits the row to the customer named
    Unknown, in the company map and, if its job number is a practice
    project, in the practice map; when the cell is not empty but blank
    after trimming, pass 2 leaves both customer maps as they were.  In
    both cases pass 1 credits the row to its consultants and solution
    architects as for any other row. *)
Theorem missing_customer (filters : Filters) (successThreshold : Q)
    (acc : Accumulators) (row : Row) :
  (0 < budgetHrs row)%Q ->
  trim (customer row) = EmptyString ->
  (customer row = EmptyString ->
     allCustomers (pass2Row successThreshold acc row)
     = creditCustomerIn successThreshold row "Unknown" (allCustomers acc)
     /\ customers (pass2Row successThreshold acc row)
        = (if decide (jobNumber row ∈ practiceProjects acc)
           then creditCustomerIn successThreshold row "Unknown" (customers acc)
           else customers acc))
  /\ (customer row <> EmptyString ->
        pass2Row successThreshold acc row = acc)
  /\ (forall name,
        projectsOf (consultants (pass1Row filters successThreshold acc row)) name
        = (projectsOf (consultants acc) name
           + acceptedCount filters row name
               (nameList (resourcesEngaged row)))%nat
        /\ saProjectsOf
             (solutionArchitects (pass1Row filters successThreshold acc row))
             name
           = (saProjectsOf (solutionArchitects acc) name
              + saAcceptedCount filters name
                  (nameList (solutionArchitect row)))%nat).
Proof.
  intros Hb Ht. apply Qpositive_spec in Hb. split; [|split].
  - intros He. unfold pass2Row, pass2Guard, customerNameOf.
    rewrite He, Hb. simpl. auto.
  - intros Hne. unfold pass2Row, pass2Guard.
    rewrite (customerNameOf_given row Hne), Ht. simpl.
    rewrite andb_false_r. reflexivity.
  - intros name. split.
    + rewrite (pass1Row_consultants _ _ _ _ Hb).
      apply consultantFold_credit.
    + rewrite (pass1Row_solutionArchitects _ _ _ _ Hb), saFold_credit.
      destruct (consultantBlock_flag filters successThreshold row (acc, false))
        as (_ & _ & H).
      cbv zeta in H. rewrite H. reflexivity.
Qed.

Lemma missing_customer_witness :
  allCustomers (pass2Row (3 # 10) emptyAccumulators noCustomerRow)
  = creditCustomerIn (3 # 10) noCustomerRow "Unknown"
      (allCustomers emptyAccumulators)
  /\ customers (pass2Row (3 # 10) emptyAccumulators noCustomerRow)
     = (if decide (jobNumber noCustomerRow ∈ practiceProjects emptyAccumulators)
        then creditCustomerIn (3 # 10) noCustomerRow "Unknown"
               (customers emptyAccumulators)
        else customers emptyAccumulators).
Proof.
  apply (missing_customer noFilters (3 # 10) emptyAccumulators noCustomerRow);
    reflexivity.
Defined.

(* ===================================================================== *)
(** * Accumulators are created by their first contribution *)
(* ===================================================================== *)

Lemma creditConsultant_sound thr row c :
  (0 < budgetHrs row)%Q -> consultantBalanced c ->
  consultantSound (creditConsultant thr row c).
Proof.
  intros Hb (H1 & H2 & H3). unfold consultantSound, consultantBalanced.
  unfold creditConsultant. simpl. rewrite length_app. simpl.
  split; [lia|]. split; [|split; [lia|]].
  - destruct (isWithinBudget _ _); lia.
  - apply Forall_app. split; [exact H3|]. repeat constructor. exact Hb.
Qed.

Lemma fresh_balanced : consultantBalanced Consultant.fresh.
Proof. repeat split. constructor. Qed.

Lemma consultantStep_sound filters thr row st c :
  (0 < budgetHrs row)%Q ->
  consultantsSound (fst st) ->
  consultantsSound (fst (consultantStep filters thr row st c)).
Proof.
  intros Hb Hst. rewrite consultantStep_cases.
  destruct (consultantAccepted filters row c); [|exact Hst].
  unfold consultantsSound. simpl. apply map_Forall_insert_2; [|exact Hst].
  apply creditConsultant_sound; [exact Hb|].
  destruct (consultants (fst st) !! c) as [x|] eqn:E; simpl.
  - apply (Hst c x E).
  - apply fresh_balanced.
Qed.

Lemma pass1Row_sound filters thr acc row :
  consultantsSound acc -> consultantsSound (pass1Row filters thr acc row).
Proof.
  intros Hacc. unfold consultantsSound.
  destruct (Qpositive (budgetHrs row)) eqn:Hpos.
  - rewrite (pass1Row_consultants _ _ _ _ Hpos).
    apply Qpositive_spec in Hpos.
    apply (fold_left_invariant (fun st => consultantsSound (fst st)));
      [|exact Hacc].
    intros st c _. apply consultantStep_sound. exact Hpos.
  - rewrite (pass1Row_not_positive _ _ _ _ Hpos). exact Hacc.
Qed.

Lemma pass2Row_consultants thr acc row :
  consultants (pass2Row thr acc row) = consultants acc.
Proof. unfold pass2Row. destruct (pass2Guard row); reflexivity. Qed.

Lemma aggregate_sound data filters config :
  consultantsSound (aggregate data filters config).
Proof.
  unfold aggregate, pass2, pass1.
  apply (fold_left_invariant consultantsSound).
  - intros a r _ Ha. unfold consultantsSound.
    rewrite pass2Row_consultants. exact Ha.
  - apply (fold_left_invariant consultantsSound).
    + intros a r _. apply pass1Row_sound.
    + unfold consultantsSound. simpl. apply map_Forall_empty.
Qed.

Lemma Qnat_pos (n : nat) : (1 <= n)%nat -> (0 < Qnat n)%Q.
Proof.
  intros H. unfold Qnat, Qlt. simpl. lia.
Qed.

Lemma sortAscending_length (scores : list Q) :
  length (sortAscending scores) = length scores.
Proof.
  unfold sortAscending. apply Permutation_length, merge_sort_Permutation.
Qed.

Lemma medianOf_defined (scores : list Q) :
  (1 <= length scores)%nat -> is_Some (medianOf scores).
Proof.
  intros H. unfold medianOf. apply lookup_lt_is_Some.
  rewrite sortAscending_length. apply Nat.div_lt; lia.
Qed.

(** The end-to-end example of the specification: Alice, 120 hours on a
    budget of 100, is within budget under the default threshold. *)
Example end_to_end_alice :
  analyzeData [aliceRow] noFilters defaultConfig
  = {| totalProjects := 1;
       out_consultants :=
         [ {| cm_name := "Alice"; cm_projects := 1; cm_hours := 120;
              cm_successRate := 100; cm_efficiencyScore := 100;
              cm_withinBudget := 1; cm_overBudget := 0;
              cm_projectDetails := [projectDetailOf aliceRow] |} ];
       out_dasAnalysis :=
         [ {| das_name := "Alice"; das_projects := 1;
              das_avgDAS := 80 # 100; das_medianDAS := Some (80 # 100);
              das_lowCount := 0; das_highCount := 0;
              das_reviewCount := 1 |} ] |}.
Proof. reflexivity. Qed.

(** C9. Every consultant accumulator of the analysis has at least one
    project, and its project count is the sum of its within-budget and
    over-budget counts and the length of its project details, each of
    which has a positive budget.  Hence the divisors of successRate and
    efficiencyScore (projects) and of avgDAS (the number of scores) are
    positive, and the index of medianDAS is inside the sorted list.  The
    same holds of every entry of the consultant and DAS+ lists of the
    output. *)
Theorem lazy_accumulator_invariant (data : list Row) (filters : Filters)
    (config : Config) (name : string) (c : Consultant.t) :
  consultants (aggregate data filters config) !! name = Some c ->
  (1 <= Consultant.projects c)%nat
  /\ Consultant.projects c
     = (Consultant.withinBudget c + Consultant.overBudget c)%nat
  /\ Consultant.projects c = length (Consultant.projectDetails c)
  /\ Forall (fun p => (0 < pd_budgetHrs p)%Q) (Consultant.projectDetails c)
  /\ (0 < Qnat (Consultant.projects c))%Q
  /\ (0 < Qnat (length (dasScores c)))%Q
  /\ is_Some (medianOf (dasScores c))
  /\ In (consultantMetricsOf name c)
        (out_consultants (analyzeData data filters config))
  /\ In (dasEntryOf name c) (out_dasAnalysis (analyzeData data filters config))
  /\ (forall e, In e (out_consultants (analyzeData data filters config)) ->
        (1 <= cm_projects e)%nat
        /\ cm_projects e = (cm_withinBudget e + cm_overBudget e)%nat
        /\ cm_projects e = length (cm_projectDetails e))
  /\ (forall d, In d (out_dasAnalysis (analyzeData data filters config)) ->
        (1 <= das_projects d)%nat /\ is_Some (das_medianDAS d)).
Proof.
  intros Hc.
  pose proof (aggregate_sound data filters config) as Hall.
  destruct (Hall name c Hc) as (H1 & H2 & H3 & H4).
  assert (Hlen : length (dasScores c) = Consultant.projects c).
  { unfold dasScores. rewrite length_fmap. auto. }
  split; [exact H1|]. split; [exact H2|]. split; [exact H3|].
  split; [exact H4|]. split; [apply Qnat_pos, H1|].
  split; [apply Qnat_pos; lia|].
  split; [apply medianOf_defined; lia|].
  unfold analyzeData. cbn [out_consultants out_dasAnalysis].
  split; [|split; [|split]].
  - unfold consultantMetrics. apply list_elem_of_In, list_elem_of_fmap.
    exists (name, c). split; [reflexivity|].
    apply elem_of_map_to_list. exact Hc.
  - unfold dasAnalysis. apply list_elem_of_In, list_elem_of_fmap.
    exists (name, c). split; [reflexivity|].
    apply elem_of_map_to_list. exact Hc.
  - intros e He. unfold consultantMetrics in He.
    apply list_elem_of_In, list_elem_of_fmap in He as ([n x] & -> & Hin).
    apply elem_of_map_to_list in Hin.
    destruct (Hall n x Hin) as (X1 & X2 & X3 & _). simpl. auto.
  - intros d Hd. unfold dasAnalysis in Hd.
    apply list_elem_of_In, list_elem_of_fmap in Hd as ([n x] & -> & Hin).
    apply elem_of_map_to_list in Hin.
    destruct (Hall n x Hin) as (X1 & X2 & X3 & _). simpl.
    split; [exact X1|]. apply medianOf_defined.
    unfold dasScores. rewrite length_fmap. lia.
Qed.

Lemma lazy_accumulator_invariant_witness :
  (1 <= Consultant.projects aliceAccumulator)%nat
  /\ Consultant.projects aliceAccumulator
     = (Consultant.withinBudget aliceAccumulator
        + Consultant.overBudget aliceAccumulator)%nat
  /\ Consultant.projects aliceAccumulator
     = length (Consultant.projectDetails aliceAccumulator).
Proof.
  pose proof (lazy_accumulator_invariant [aliceRow] noFilters defaultConfig
                "Alice" aliceAccumulator eq_refl) as H.
  destruct H as (H1 & H2 & H3 & _). auto.
Defined.

(* ===================================================================== *)
(** * The success threshold *)
(* ===================================================================== *)

Lemma falsyThreshold_default (config : Config) :
  falsyThreshold config -> successThresholdOf config = (3 # 10)%Q.
Proof.
  unfold successThresholdOf.
  intros [-> | ([t] & -> & H)]; [reflexivity|]. simpl in H.
  destruct H as [-> | [-> | [-> | (q & -> & Hq)]]]; try reflexivity.
  apply Qeq_bool_iff in Hq. rewrite Hq. reflexivity.
Qed.

Lemma successThreshold_nonzero (config : Config) :
  ~ (successThresholdOf config == 0)%Q.
Proof.
  unfold successThresholdOf.
  destruct (thresholds config) as [[[| | |q]]|]; try discriminate.
  destruct (Qeq_bool q 0) eqn:E; [discriminate|].
  intros H. apply Qeq_bool_iff in H. congruence.
Qed.

(** C10. When the configured success threshold is zero, absent, null or
    NaN, the analysis runs with the default 0.30: it is the analysis
    under the default configuration, a variance of 0.2 is within budget,
    and a consultant with 120 hours on a budget of 100 has the project
    counted within budget.  Under no configuration is the threshold that
    the analysis uses equal to zero. *)
Theorem zero_threshold_fallback (config : Config) (data : list Row)
    (filters : Filters) :
  falsyThreshold config ->
  successThresholdOf config = (3 # 10)%Q
  /\ aggregate data filters config = aggregate data filters defaultConfig
  /\ isWithinBudget (2 # 10) (successThresholdOf config) = true
  /\ isWithinBudget (variance 120 100) (successThresholdOf config) = true
  /\ Consultant.withinBudget
       <$> consultants (aggregate [aliceRow] noFilters config) !! "Alice"
     = Some 1%nat
  /\ (forall anyConfig : Config, ~ (successThresholdOf anyConfig == 0)%Q).
Proof.
  intros H. apply falsyThreshold_default in H.
  unfold aggregate. rewrite H.
  split; [reflexivity|]. split; [reflexivity|].
  split; [reflexivity|]. split; [reflexivity|].
  split; [reflexivity|]. apply successThreshold_nonzero.
Qed.

Lemma zero_threshold_fallback_witness :
  successThresholdOf zeroThresholdConfig = (3 # 10)%Q
  /\ aggregate [aliceRow] noFilters zeroThresholdConfig
     = aggregate [aliceRow] noFilters defaultConfig.
Proof.
  pose proof (zero_threshold_fallback zeroThresholdConfig [aliceRow] noFilters)
    as H.
  destruct H as (H1 & H2 & _).
  - right. exists {| success_threshold := JsNumber 0 |}.
    split; [reflexivity|]. right; right; right. exists 0%Q.
    split; reflexivity.
  - split; [exact H1 | exact H2].
Defined.

(* ===================================================================== *)
(** * DAS+ *)
(* ===================================================================== *)

#[local] Instance Qle_total : Total Qle.
Proof.
  intros x y. destruct (Qlt_le_dec x y) as [H | H].
  - left. apply Qlt_le_weak, H.
  - right. exact H.
Qed.

Lemma Qlt_bool_spec (a b : Q) : Qlt_bool a b = true <-> (a < b)%Q.
Proof.
  unfold Qlt_bool. rewrite negb_true_iff. split.
  - intros H. apply Qnot_le_lt. intros Hle.
    apply Qle_bool_iff in Hle. congruence.
  - intros H. destruct (Qle_bool b a) eqn:E; [|reflexivity].
    apply Qle_bool_iff in E. exfalso. exact (Qlt_not_le _ _ H E).
Qed.

Lemma Qlt_bool_false (a b : Q) : Qlt_bool a b = false <-> (b <= a)%Q.
Proof.
  unfold Qlt_bool. rewrite negb_false_iff. apply Qle_bool_iff.
Qed.

Lemma completionRatioOf_spec (project : ProjectDetail) :
  completionRatioOf project = completionRatio_spec project.
Proof.
  unfold completionRatioOf, completionRatio_spec, statusDone.
  destruct (pd_status project) as [|a s]; simpl.
  - destruct (Qle_bool _ _); reflexivity.
  - destruct (_ || _); simpl; [reflexivity|].
    destruct (Qle_bool _ _); reflexivity.
Qed.

Lemma clamp01_max_min (x : Q) : (Qmax 0 (Qmin 1 x) == clamp01 x)%Q.
Proof.
  unfold clamp01.
  destruct (Qlt_bool x 0) eqn:E0.
  - apply Qlt_bool_spec in E0.
    rewrite Q.max_l; [reflexivity|].
    apply Qle_trans with x; [apply Q.le_min_r | apply Qlt_le_weak, E0].
  - apply Qlt_bool_false in E0.
    destruct (Qlt_bool 1 x) eqn:E1.
    + apply Qlt_bool_spec in E1.
      rewrite Q.min_l by (apply Qlt_le_weak, E1).
      apply Q.max_r. discriminate.
    + apply Qlt_bool_false in E1.
      rewrite Q.min_r by exact E1. apply Q.max_r. exact E0.
Qed.

Lemma dasScore_bounds (project : ProjectDetail) :
  (0 <= dasScore project <= 1)%Q.
Proof.
  unfold dasScore. split.
  - apply Q.le_max_l.
  - apply Q.max_lub; [discriminate | apply Q.le_min_l].
Qed.

(** C5. The score of a project is 1 - |actual/budget - completion ratio|
    clamped to the interval from 0 to 1, the completion ratio being 1
    when the status contains closed or complete in any case or the
    reported completion is at least 0.95, and the reported completion
    otherwise.  The median of a consultant is the element at index
    floor(n/2) of the scores sorted in ascending order: 0.7 for the
    scores 0.2, 0.5, 0.7, 0.9 and 0.5 for 0.2, 0.5, 0.9. *)
Theorem das_scoring (project : ProjectDetail) (scores : list Q)
    (name : string) (consultant : Consultant.t) :
  completionRatioOf project = completionRatio_spec project
  /\ (statusDone (pd_status project) = true <->
      substring_of "closed" (toLowerCase (pd_status project))
      \/ substring_of "complete" (toLowerCase (pd_status project)))
  /\ (dasScore project == dasScore_spec project)%Q
  /\ (0 <= dasScore project <= 1)%Q
  /\ Sorted Qle (sortAscending scores)
  /\ sortAscending scores ≡ₚ scores
  /\ medianOf scores = sortAscending scores !! (length scores / 2)%nat
  /\ das_medianDAS (dasEntryOf name consultant)
     = medianOf (dasScore <$> Consultant.projectDetails consultant)
  /\ medianOf [2 # 10; 5 # 10; 7 # 10; 9 # 10] = Some (7 # 10)
  /\ medianOf [9 # 10; 5 # 10; 2 # 10; 7 # 10] = Some (7 # 10)
  /\ medianOf [2 # 10; 5 # 10; 9 # 10] = Some (5 # 10)
  /\ ~ ((5 # 10) + (7 # 10)) / 2 == 7 # 10.
Proof.
  split; [apply completionRatioOf_spec|].
  split.
  { unfold statusDone. rewrite orb_true_iff, !includes_spec. reflexivity. }
  split.
  { unfold dasScore, dasScore_spec. rewrite clamp01_max_min.
    rewrite completionRatioOf_spec. reflexivity. }
  split; [apply dasScore_bounds|].
  split; [apply Sorted_merge_sort; apply _|].
  split; [apply merge_sort_Permutation|].
  split.
  { unfold medianOf. rewrite sortAscending_length. reflexivity. }
  split; [reflexivity|].
  split; [reflexivity|]. split; [reflexivity|]. split; [reflexivity|].
  discriminate.
Qed.

(* ===================================================================== *)
(** * Customer risk *)
(* ===================================================================== *)

Lemma budgetRisk_off_boundary (totalBudget : Q) :
  ~ (totalBudget == 2000)%Q -> budgetRisk totalBudget = budgetRisk_spec totalBudget.
Proof.
  intros Hne. unfold budgetRisk, budgetRisk_spec.
  destruct (Qlt_bool 5000 totalBudget); [reflexivity|].
  destruct (Qlt_bool 2000 totalBudget) eqn:E1;
    destruct (Qle_bool 2000 totalBudget) eqn:E2; try reflexivity.
  - apply Qlt_bool_spec in E1. apply Qlt_le_weak, Qle_bool_iff in E1. congruence.
  - apply Qlt_bool_false in E1. apply Qle_bool_iff in E2.
    exfalso. apply Hne. apply Qle_antisym; assumption.
Qed.

(** C4. The budget-size contribution of [addRiskScoring] at a total
    budget of exactly 2000 hours is 1, where the documented rule gives
    0; at exactly 5000 it is 0 and a success rate of exactly 50 gives 2.
    The code and the rule agree on every total budget other than 2000.
    For the boundary customer the code reports score 3 and level Medium. *)
Theorem risk_budget_boundary :
  budgetRisk 2000 = 1%nat
  /\ budgetRisk_spec 2000 = 0%nat
  /\ budgetRisk 5000 = 0%nat
  /\ successRateRisk 50 = 2%nat
  /\ riskScoreOf boundaryCustomer = 3%nat
  /\ riskLevelOf (riskScoreOf boundaryCustomer) = Medium
  /\ (forall totalBudget : Q,
        budgetRisk totalBudget = budgetRisk_spec totalBudget
        <-> ~ (totalBudget == 2000)%Q).
Proof.
  repeat (split; [reflexivity|]).
  intros totalBudget. split.
  - intros H Heq. unfold budgetRisk, budgetRisk_spec in H.
    assert (E5 : Qlt_bool 5000 totalBudget = false).
    { apply Qlt_bool_false. rewrite Heq. discriminate. }
    assert (E2 : Qlt_bool 2000 totalBudget = false).
    { apply Qlt_bool_false. rewrite Heq. apply Qle_refl. }
    assert (E3 : Qle_bool 2000 totalBudget = true).
    { apply Qle_bool_iff. rewrite Heq. apply Qle_refl. }
    rewrite E5, E2, E3 in H. discriminate.
  - apply budgetRisk_off_boundary.
Qed.

(* ===================================================================== *)
(** * The CSV export read back *)
(* ===================================================================== *)

Lemma append_empty_r (s : string) : s +:+ EmptyString = s.
Proof.
  induction s as [|c s IH]; [reflexivity|].
  change (String c (s +:+ EmptyString) = String c s). rewrite IH. reflexivity.
Qed.

Lemma append_assoc (a b c : string) : (a +:+ b) +:+ c = a +:+ (b +:+ c).
Proof.
  induction a as [|x a IH]; [reflexivity|].
  change (String x ((a +:+ b) +:+ c) = String x (a +:+ (b +:+ c))).
  rewrite IH. reflexivity.
Qed.

Lemma parseLoop_escaped (s rest cur : string) (parts : list string) :
  notQuoteFirst rest ->
  Csv.parseLoop (Csv.doubleQuotes s +:+ String dquote rest) cur true parts
  = Csv.parseLoop rest (cur +:+ s) false parts.
Proof.
  intros Hrest. revert cur. induction s as [|c s IH]; intros cur.
  - rewrite append_empty_r.
    change (Csv.doubleQuotes EmptyString +:+ String dquote rest)
      with (String dquote rest).
    cbn [Csv.parseLoop]. rewrite Ascii.eqb_refl.
    destruct rest as [|next rest']; [reflexivity|].
    simpl in Hrest. apply Ascii.eqb_neq in Hrest. rewrite Hrest. reflexivity.
  - cbn [Csv.doubleQuotes]. destruct (Ascii.eqb c dquote) eqn:E.
    + apply Ascii.eqb_eq in E. subst c.
      change (String dquote (String dquote (Csv.doubleQuotes s))
              +:+ String dquote rest)
        with (String dquote
                (String dquote (Csv.doubleQuotes s +:+ String dquote rest))).
      cbn [Csv.parseLoop]. rewrite Ascii.eqb_refl. simpl andb. cbv iota.
      rewrite IH, append_assoc. reflexivity.
    + change (String c (Csv.doubleQuotes s) +:+ String dquote rest)
        with (String c (Csv.doubleQuotes s +:+ String dquote rest)).
      cbn [Csv.parseLoop]. rewrite E. rewrite andb_false_r.
      rewrite IH, append_assoc. reflexivity.
Qed.

Lemma parseLoop_open (rest cur : string) (parts : list string) :
  Csv.parseLoop (String dquote rest) cur false parts = Csv.parseLoop rest cur true parts.
Proof.
  cbn [Csv.parseLoop]. rewrite Ascii.eqb_refl. destruct rest; reflexivity.
Qed.

Lemma wrapEscaped_read_back (field : string) :
  Csv.parseLine (Csv.wrapEscaped field) = [trim field].
Proof.
  unfold Csv.parseLine, Csv.wrapEscaped, Csv.wrap.
  rewrite parseLoop_open.
  rewrite (parseLoop_escaped field EmptyString EmptyString []) by exact I.
  reflexivity.
Qed.

(** C8. The consultant export of a two-row report whose first name holds
    a comma and quote characters, read back with the line reader of the
    exclusion file, gives the name without its quote characters, so the
    original fields are not reproduced; with the quote doubling that the
    exclusion writer applies, the reader returns the name as it was, and
    so it does for every field, up to the trimming the reader applies. *)
Theorem csv_export_drops_quotes :
  Csv.parseCSV (Csv.generateCSV quotedReport "consultants")
  = [ ["Consultant"; "Projects"; "Hours"; "Efficiency %"; "Success Rate %";
       "Within Budget"; "Over Budget"];
      ["Smith, Bob"; "3"; "120"; "66.7"; "66.7"; "2"; "1"];
      ["Jane Doe"; "1"; "10"; "100.0"; "100.0"; "1"; "0"] ]
  /\ quotedName <> "Smith, Bob"
  /\ Csv.consultantValues <$> quotedReport
     <> drop 1 (Csv.parseCSV (Csv.generateCSV quotedReport "consultants"))
  /\ Csv.consultantValues <$> drop 1 quotedReport
     = drop 2 (Csv.parseCSV (Csv.generateCSV quotedReport "consultants"))
  /\ Csv.parseLine (Csv.line [Csv.wrapEscaped quotedName; "3"; "120"])
     = [quotedName; "3"; "120"]
  /\ (forall field : string,
        Csv.parseLine (Csv.wrapEscaped field) = [trim field]).
Proof.
  split; [reflexivity|]. split; [discriminate|]. split; [discriminate|].
  split; [reflexivity|]. split; [reflexivity|].
  apply wrapEscaped_read_back.
Qed.

(* ===================================================================== *)
(** * Solution-architect and customer accumulators *)
(* ===================================================================== *)

Lemma creditSA_sound thr row s :
  (0 < budgetHrs row)%Q -> saBalanced s -> saSound (creditSA thr row s).
Proof.
  intros Hb (H1 & H2 & H3). unfold saSound, saBalanced, creditSA. simpl.
  rewrite length_app. simpl.
  assert (Hpos : (0 < SA.totalBudgetedHours s + budgetHrs row)%Q).
  { apply Qlt_le_trans with (0 + budgetHrs row)%Q.
    - rewrite Qplus_0_l. exact Hb.
    - apply Qplus_le_compat; [exact H3 | apply Qle_refl]. }
  split; [lia|]. split; [exact Hpos|]. split; [|split; [lia|]].
  - destruct (isWithinBudget _ _); lia.
  - apply Qlt_le_weak, Hpos.
Qed.

Lemma saStep_sound filters thr row st sa :
  (0 < budgetHrs row)%Q ->
  map_Forall (fun _ s => saSound s) (solutionArchitects (fst st)) ->
  map_Forall (fun _ s => saSound s)
    (solutionArchitects (fst (saStep filters thr row st sa))).
Proof.
  intros Hb Hst. unfold saStep.
  destruct (negb _); [exact Hst|]. simpl.
  apply map_Forall_insert_2; [|exact Hst].
  apply creditSA_sound; [exact Hb|].
  destruct (solutionArchitects (fst st) !! sa) as [x|] eqn:E; simpl.
  - destruct (Hst sa x E) as (_ & _ & H). exact H.
  - repeat split; simpl; [lia | apply Qle_refl].
Qed.

Lemma pass1Row_sa_sound filters thr acc row :
  map_Forall (fun _ s => saSound s) (solutionArchitects acc) ->
  map_Forall (fun _ s => saSound s)
    (solutionArchitects (pass1Row filters thr acc row)).
Proof.
  intros Hacc.
  destruct (Qpositive (budgetHrs row)) eqn:Hpos.
  - rewrite (pass1Row_solutionArchitects _ _ _ _ Hpos).
    apply Qpositive_spec in Hpos.
    apply (fold_left_invariant
             (fun st => map_Forall (fun _ s => saSound s)
                          (solutionArchitects (fst st)))).
    + intros st s _. apply saStep_sound. exact Hpos.
    + destruct (consultantBlock_flag filters thr row (acc, false))
        as (_ & _ & H).
      cbv zeta in H. rewrite H. exact Hacc.
  - rewrite (pass1Row_not_positive _ _ _ _ Hpos). exact Hacc.
Qed.

Lemma pass2Row_solutionArchitects thr acc row :
  solutionArchitects (pass2Row thr acc row) = solutionArchitects acc.
Proof. unfold pass2Row. destruct (pass2Guard row); reflexivity. Qed.

Lemma aggregate_sa_sound data filters config :
  map_Forall (fun _ s => saSound s)
    (solutionArchitects (aggregate data filters config)).
Proof.
  unfold aggregate, pass2, pass1.
  apply (fold_left_invariant
           (fun acc => map_Forall (fun _ s => saSound s)
                         (solutionArchitects acc))).
  - intros a r _ Ha. rewrite pass2Row_solutionArchitects. exact Ha.
  - apply (fold_left_invariant
             (fun acc => map_Forall (fun _ s => saSound s)
                           (solutionArchitects acc))).
    + intros a r _. apply pass1Row_sa_sound.
    + simpl. apply map_Forall_empty.
Qed.

(** X1. Every solution-architect accumulator of the analysis has at
    least one project, no more successful projects than projects, one
    snapshot per project and a positive sum of budgeted hours, so the
    divisors of its success rate and of its variance are positive; this
    holds of every entry of the solution-architect list. *)
Theorem sa_accumulator_invariant (data : list Row) (filters : Filters)
    (config : Config) (name : string) (s : SA.t) :
  solutionArchitects (aggregate data filters config) !! name = Some s ->
  (1 <= SA.projects s)%nat
  /\ (SA.successfulProjects s <= SA.projects s)%nat
  /\ SA.projects s = length (SA.projectDetails s)
  /\ (0 < SA.totalBudgetedHours s)%Q
  /\ (0 < Qnat (SA.projects s))%Q
  /\ (forall e, In e (saMetrics (aggregate data filters config)) ->
        (1 <= sam_projects e)%nat /\ (0 < sam_budgetedHours e)%Q
        /\ sam_projects e = length (sam_projectDetails e)).
Proof.
  intros Hs.
  pose proof (aggregate_sa_sound data filters config) as Hall.
  destruct (Hall name s Hs) as (H1 & H2 & H3 & H4 & _).
  split; [exact H1|]. split; [exact H3|]. split; [exact H4|].
  split; [exact H2|]. split; [apply Qnat_pos, H1|].
  intros e He. unfold saMetrics in He.
  apply list_elem_of_In, list_elem_of_fmap in He as ([n x] & -> & Hin).
  apply elem_of_map_to_list in Hin.
  destruct (Hall n x Hin) as (X1 & X2 & _ & X4 & _). simpl. auto.
Qed.

Lemma sa_accumulator_invariant_witness :
  (1 <= 1)%nat /\ (1 <= 1)%nat /\ 1%nat = 1%nat /\ (0 < 0 + 200)%Q.
Proof.
  pose proof (sa_accumulator_invariant [samRow] noFilters defaultConfig
                "Sam Lee" (creditSA (3 # 10) samRow SA.fresh) eq_refl) as H.
  destruct H as (H1 & H2 & H3 & H4 & _).
  split; [exact H1|]. split; [exact H2|]. split; [exact H3|]. exact H4.
Defined.

Lemma creditCustomer_sound thr row c :
  (0 < budgetHrs row)%Q -> customerBalanced c ->
  customerSound (creditCustomer thr row c).
Proof.
  intros Hb (H1 & H2 & H3). unfold customerSound, customerBalanced.
  unfold creditCustomer. simpl. rewrite length_app. simpl.
  assert (Hpos : (0 < Customer.totalBudgetHrs c + budgetHrs row)%Q).
  { apply Qlt_le_trans with (0 + budgetHrs row)%Q.
    - rewrite Qplus_0_l. exact Hb.
    - apply Qplus_le_compat; [exact H3 | apply Qle_refl]. }
  split; [lia|]. split; [exact Hpos|]. split; [|split; [lia|]].
  - destruct (isWithinBudget _ _); lia.
  - apply Qlt_le_weak, Hpos.
Qed.

Lemma creditCustomerIn_sound thr row name m :
  (0 < budgetHrs row)%Q ->
  map_Forall (fun _ c => customerSound c) m ->
  map_Forall (fun _ c => customerSound c) (creditCustomerIn thr row name m).
Proof.
  intros Hb Hm. unfold creditCustomerIn.
  apply map_Forall_insert_2; [|exact Hm].
  apply creditCustomer_sound; [exact Hb|].
  destruct (m !! name) as [x|] eqn:E; simpl.
  - destruct (Hm name x E) as (_ & _ & H). exact H.
  - repeat split; simpl. apply Qle_refl.
Qed.

Lemma pass2Row_customers_sound thr acc row :
  customersSound acc -> customersSound (pass2Row thr acc row).
Proof.
  intros [Hc Ha]. unfold customersSound, pass2Row.
  destruct (pass2Guard row) eqn:Hg; [|split; assumption].
  apply pass2Guard_spec in Hg as [_ Hb]. simpl. split.
  - destruct (decide _); [|exact Hc].
    apply creditCustomerIn_sound; assumption.
  - apply creditCustomerIn_sound; assumption.
Qed.

Lemma aggregate_customers_sound data filters config :
  customersSound (aggregate data filters config).
Proof.
  unfold aggregate, pass2.
  apply (fold_left_invariant customersSound).
  - intros a r _. apply pass2Row_customers_sound.
  - destruct (pass1_parts filters (successThresholdOf config) data
                emptyAccumulators) as (H1 & H2 & _).
    unfold customersSound. rewrite H1, H2. simpl.
    split; apply map_Forall_empty.
Qed.

(** X2. Every accumulator of the practice customer map and of the
    company customer map has at least one project, a project count equal
    to its within-budget plus over-budget counts and to the number of its
    snapshots, and a positive sum of budget hours: the divisors of the
    customer success rate and average variance are positive. *)
Theorem customer_accumulator_invariant (data : list Row) (filters : Filters)
    (config : Config) (name : string) (c : Customer.t) :
  customers (aggregate data filters config) !! name = Some c
  \/ allCustomers (aggregate data filters config) !! name = Some c ->
  (1 <= Customer.projects c)%nat
  /\ Customer.projects c
     = (Customer.withinBudget c + Customer.overBudget c)%nat
  /\ Customer.projects c = length (Customer.projectDetails c)
  /\ (0 < Customer.totalBudgetHrs c)%Q
  /\ (0 < Qnat (Customer.projects c))%Q.
Proof.
  intros H.
  destruct (aggregate_customers_sound data filters config) as [Hc Ha].
  assert (Hs : customerSound c).
  { destruct H as [H | H]; [exact (Hc name c H) | exact (Ha name c H)]. }
  destruct Hs as (H1 & H2 & H3 & H4 & _).
  split; [exact H1|]. split; [exact H3|]. split; [exact H4|].
  split; [exact H2|]. apply Qnat_pos, H1.
Qed.

Lemma customer_accumulator_invariant_witness :
  (1 <= 1)%nat /\ 1%nat = (1 + 0)%nat.
Proof.
  pose proof (customer_accumulator_invariant [samRow] noFilters defaultConfig
                "Initech" (creditCustomer (3 # 10) samRow Customer.fresh)
                (or_intror eq_refl)) as H.
  destruct H as (H1 & H2 & _). split; [exact H1 | exact H2].
Defined.

Lemma pass2Row_within thr acc row :
  practiceWithinCompany acc -> practiceWithinCompany (pass2Row thr acc row).
Proof.
  intros Hacc. unfold pass2Row.
  destruct (pass2Guard row); [|exact Hacc].
  unfold practiceWithinCompany, creditCustomerIn. simpl.
  intros name p Hp.
  destruct (decide (customerNameOf row = name)) as [<- | Hne].
  - rewrite lookup_insert_eq. eexists. split; [reflexivity|].
    destruct (decide _).
    + rewrite lookup_insert_eq in Hp. injection Hp as <-. simpl.
      destruct (customers acc !! customerNameOf row) as [p0|] eqn:E; simpl.
      * destruct (Hacc _ _ E) as (a & -> & Hle). simpl. lia.
      * lia.
    + destruct (Hacc _ _ Hp) as (a & -> & Hle). simpl. lia.
  - rewrite lookup_insert_ne by exact Hne.
    destruct (decide _).
    + rewrite lookup_insert_ne in Hp by exact Hne. apply Hacc, Hp.
    + apply Hacc, Hp.
Qed.

(** X3. Every customer of the practice map is a customer of the company
    map, with no more projects in the practice map than in the company
    map. *)
Theorem practice_within_company (data : list Row) (filters : Filters)
    (config : Config) (name : string) (p : Customer.t) :
  customers (aggregate data filters config) !! name = Some p ->
  exists a, allCustomers (aggregate data filters config) !! name = Some a
            /\ (Customer.projects p <= Customer.projects a)%nat.
Proof.
  revert name p. change (practiceWithinCompany (aggregate data filters config)).
  unfold aggregate, pass2.
  apply (fold_left_invariant practiceWithinCompany).
  - intros a r _. apply pass2Row_within.
  - destruct (pass1_parts filters (successThresholdOf config) data
                emptyAccumulators) as (H1 & _).
    intros name p Hp. rewrite H1 in Hp. simpl in Hp.
    rewrite lookup_empty in Hp. discriminate.
Qed.

Lemma practice_within_company_witness :
  exists a, allCustomers (aggregate [samRow] noFilters defaultConfig)
              !! "Initech" = Some a
            /\ (1 <= Customer.projects a)%nat.
Proof.
  exact (practice_within_company [samRow] noFilters defaultConfig "Initech"
           (creditCustomer (3 # 10) samRow Customer.fresh) eq_refl).
Defined.

Lemma creditFold_projects thr (l : list Row) (m : gmap string Customer.t)
    (name : string) :
  customerProjectsOf (fold_left (creditRow thr) l m) name
  = (customerProjectsOf m name
     + length (List.filter
                 (fun row => String.eqb (customerNameOf row) name) l))%nat.
Proof.
  revert m. induction l as [|r l IH]; intros m; simpl; [lia|].
  rewrite IH. clear IH. unfold creditRow, creditCustomerIn, customerProjectsOf.
  destruct (String.eqb (customerNameOf r) name) eqn:E.
  - apply String.eqb_eq in E. subst name. rewrite lookup_insert_eq. simpl. lia.
  - apply String.eqb_neq in E. rewrite lookup_insert_ne by exact E. reflexivity.
Qed.

Lemma filter_filter_and {A : Type} (f g : A -> bool) (l : list A) :
  List.filter g (List.filter f l) = List.filter (fun x => f x && g x) l.
Proof.
  induction l as [|x l IH]; simpl; [reflexivity|].
  destruct (f x); simpl; [|exact IH].
  destruct (g x); rewrite IH; reflexivity.
Qed.

Lemma company_projects_count data filters config name :
  customerProjectsOf (allCustomers (aggregate data filters config)) name
  = length (guardedRowsOf data name).
Proof.
  destruct (aggregate_maps data filters config) as (_ & HA & _).
  cbv zeta in HA. rewrite HA, creditFold_projects, filter_filter_and.
  unfold customerProjectsOf. rewrite lookup_empty. reflexivity.
Qed.

(** X4. When the analysis does not raise, the project count of a
    customer in the company map is the number of rows that pass the guard
    of pass 2 under its name, that is rows with positive budget whose
    customer name, Unknown standing for a missing or empty one, is that
    name and is not blank after trimming; the company list of the output
    holds the customers with at least three such rows and no others. *)
Theorem company_list_floor (data : list Row) (filters : Filters)
    (config : Config) (name : string) :
  analysisThrows filters data = false ->
  aggregateOrThrow data filters config = Some (aggregate data filters config)
  /\ customerProjectsOf (allCustomers (aggregate data filters config)) name
     = length (guardedRowsOf data name)
  /\ ((exists e, In e (allCustomerMetrics (aggregate data filters config))
                 /\ ce_name e = name)
      <-> (3 <= length (guardedRowsOf data name))%nat)
  /\ (forall e, In e (allCustomerMetrics (aggregate data filters config)) ->
        ce_projects e = length (guardedRowsOf data (ce_name e))
        /\ (3 <= ce_projects e)%nat).
Proof.
  intros Hsafe. split; [apply aggregateOrThrow_returns, Hsafe|].
  pose proof (company_projects_count data filters config) as Hcount.
  assert (Hentry : forall e,
            In e (allCustomerMetrics (aggregate data filters config)) <->
            exists n c, allCustomers (aggregate data filters config) !! n = Some c
                        /\ e = customerEntryOf n c
                        /\ (3 <= Customer.projects c)%nat).
  { intros e. unfold allCustomerMetrics. rewrite filter_In.
    rewrite <- list_elem_of_In, list_elem_of_fmap. split.
    - intros [([n c] & -> & Hin) Hle]. apply elem_of_map_to_list in Hin.
      exists n, c. apply Nat.leb_le in Hle. simpl in Hle. auto.
    - intros (n & c & Hl & -> & Hle). split.
      + exists (n, c). split; [reflexivity|]. apply elem_of_map_to_list, Hl.
      + apply Nat.leb_le. simpl. exact Hle. }
  split; [apply Hcount|]. split.
  - split.
    + intros (e & He & Hn). apply Hentry in He as (n & c & Hl & -> & Hle).
      simpl in Hn. subst n. rewrite <- Hcount.
      unfold customerProjectsOf. rewrite Hl. exact Hle.
    + intros Hle. rewrite <- Hcount in Hle. unfold customerProjectsOf in Hle.
      destruct (allCustomers (aggregate data filters config) !! name)
        as [c|] eqn:E; simpl in Hle; [|lia].
      exists (customerEntryOf name c). split; [|reflexivity].
      apply Hentry. exists name, c. auto.
  - intros e He. apply Hentry in He as (n & c & Hl & -> & Hle). simpl.
    split; [|exact Hle]. rewrite <- Hcount.
    unfold customerProjectsOf. rewrite Hl. reflexivity.
Qed.

Lemma company_list_floor_witness :
  customerProjectsOf
    (allCustomers (aggregate [samRow; aliceRow] noFilters defaultConfig))
    "Initech"
  = length (guardedRowsOf [samRow; aliceRow] "Initech").
Proof.
  pose proof (company_list_floor [samRow; aliceRow] noFilters defaultConfig
                "Initech") as H.
  destruct H as (_ & H & _); [reflexivity|]. exact H.
Defined.


(* ===================================================================== *)
(** * Totals of pass 1 over a data set *)
(* ===================================================================== *)

Lemma pass1Row_credit filters thr acc row name :
  projectsOf (consultants (pass1Row filters thr acc row)) name
  = (projectsOf (consultants acc) name + rowContribution filters name row)%nat
  /\ (hoursOf (consultants (pass1Row filters thr acc row)) name
      == hoursOf (consultants acc) name
         + Qnat (rowContribution filters name row) * actualHrs row)%Q.
Proof.
  unfold rowContribution.
  destruct (Qpositive (budgetHrs row)) eqn:Hpos.
  - rewrite (pass1Row_consultants _ _ _ _ Hpos).
    destruct (consultantFold_credit filters thr row name
                (nameList (resourcesEngaged row)) (acc, false)) as [H1 H2].
    split; [exact H2 | exact H1].
  - rewrite (pass1Row_not_positive _ _ _ _ Hpos).
    split; [lia|]. unfold Qnat. simpl. ring.
Qed.

Lemma pass1_credit filters thr data acc name :
  projectsOf (consultants (pass1 filters thr data acc)) name
  = (projectsOf (consultants acc) name + contributions filters data name)%nat
  /\ (hoursOf (consultants (pass1 filters thr data acc)) name
      == hoursOf (consultants acc) name + creditedHours filters data name)%Q.
Proof.
  unfold pass1, contributions. revert acc.
  induction data as [|r data IH]; intros acc; simpl.
  - split; [lia | ring].
  - destruct (IH (pass1Row filters thr acc r)) as [H1 H2].
    destruct (pass1Row_credit filters thr acc r name) as [R1 R2].
    rewrite H1, H2, R1, R2. split; [lia | ring].
Qed.

Lemma pass2_consultants thr data acc :
  consultants (pass2 thr data acc) = consultants acc.
Proof.
  unfold pass2. revert acc. induction data as [|r data IH]; intros acc; simpl.
  - reflexivity.
  - rewrite IH. apply pass2Row_consultants.
Qed.

Lemma aggregate_credit data filters config name :
  projectsOf (consultants (aggregate data filters config)) name
  = contributions filters data name
  /\ (hoursOf (consultants (aggregate data filters config)) name
      == creditedHours filters data name)%Q.
Proof.
  unfold aggregate. rewrite pass2_consultants.
  destruct (pass1_credit filters (successThresholdOf config) data
              emptyAccumulators name) as [H1 H2].
  rewrite H1, H2. unfold projectsOf, hoursOf. simpl. rewrite lookup_empty.
  simpl. split; [lia | ring].
Qed.

Lemma aggregate_consultant_present data filters config name :
  is_Some (consultants (aggregate data filters config) !! name)
  <-> (1 <= contributions filters data name)%nat.
Proof.
  destruct (aggregate_credit data filters config name) as [H _].
  rewrite <- H. unfold projectsOf. split.
  - intros [c Hc]. rewrite Hc. simpl.
    destruct (aggregate_sound data filters config name c Hc) as [H1 _].
    exact H1.
  - destruct (consultants (aggregate data filters config) !! name); simpl.
    + eauto.
    + lia.
Qed.

(** X6. When the analysis does not raise, the project count of a
    consultant over the whole data set is the number of accepted listings
    of the name on rows with positive budget, the consultant has one
    snapshot per such listing, and the consultant has an accumulator
    exactly when there is at least one such listing. *)
Theorem consultant_totals (data : list Row) (filters : Filters)
    (config : Config) (name : string) :
  analysisThrows filters data = false ->
  aggregateOrThrow data filters config = Some (aggregate data filters config)
  /\ projectsOf (consultants (aggregate data filters config)) name
     = contributions filters data name
  /\ length (detailsOf (consultants (aggregate data filters config)) name)
     = contributions filters data name
  /\ (is_Some (consultants (aggregate data filters config) !! name)
      <-> (1 <= contributions filters data name)%nat).
Proof.
  intros Hsafe. split; [apply aggregateOrThrow_returns, Hsafe|].
  destruct (aggregate_credit data filters config name) as [H1 _].
  split; [exact H1|]. split.
  - rewrite <- H1. unfold detailsOf, projectsOf.
    destruct (consultants (aggregate data filters config) !! name) as [c|] eqn:E;
      [|reflexivity].
    destruct (aggregate_sound data filters config name c E)
      as (_ & _ & Hlen & _).
    simpl. symmetry. exact Hlen.
  - apply aggregate_consultant_present.
Qed.

Lemma consultant_totals_witness :
  projectsOf (consultants (aggregate [pairRow; aliceRow] noFilters defaultConfig))
    "Al"
  = contributions noFilters [pairRow; aliceRow] "Al".
Proof.
  pose proof (consultant_totals [pairRow; aliceRow] noFilters defaultConfig
                "Al") as H.
  destruct H as (_ & H & _); [reflexivity|]. exact H.
Defined.






Lemma creditedHours_perm filters name (data data' : list Row) :
  data ≡ₚ data' ->
  (creditedHours filters data name == creditedHours filters data' name)%Q.
Proof.
  induction 1 as [|x l l' _ IH|x y l|l l' l'' _ IH1 _ IH2]; simpl.
  - reflexivity.
  - rewrite IH. reflexivity.
  - ring.
  - rewrite IH1. exact IH2.
Qed.

Lemma contributions_perm filters name (data data' : list Row) :
  data ≡ₚ data' -> contributions filters data name = contributions filters data' name.
Proof.
  unfold contributions.
  induction 1 as [|x l l' _ IH|x y l|l l' l'' _ IH1 _ IH2]; simpl; lia.
Qed.

Lemma filter_length_perm {A : Type} (f : A -> bool) (l l' : list A) :
  l ≡ₚ l' -> length (List.filter f l) = length (List.filter f l').
Proof.
  induction 1 as [|x l l' _ IH|x y l|l l' l'' _ IH1 _ IH2]; simpl.
  - reflexivity.
  - destruct (f x); simpl; lia.
  - destruct (f x), (f y); reflexivity.
  - lia.
Qed.

Lemma practiceProjects_perm (data data' : list Row) filters config :
  data ≡ₚ data' ->
  practiceProjects (aggregate data filters config)
  = practiceProjects (aggregate data' filters config).
Proof.
  intros Hp.
  destruct (aggregate_maps data filters config) as (H & _).
  destruct (aggregate_maps data' filters config) as (H' & _).
  cbv zeta in H, H'. apply set_eq. intros job. rewrite H, H'.
  split; intros (row & Hin & Hrest); exists row; split; try exact Hrest.
  - apply (Permutation_in _ Hp), Hin.
  - apply (Permutation_in _ (Permutation_sym Hp)), Hin.
Qed.

Lemma practice_projects_count data filters config name :
  customerProjectsOf (customers (aggregate data filters config)) name
  = length (List.filter
              (fun row =>
                 (pass2Guard row
                  && bool_decide (jobNumber row
                                  ∈ practiceProjects (aggregate data filters config)))
                 && String.eqb (customerNameOf row) name) data).
Proof.
  destruct (aggregate_maps data filters config) as (_ & _ & HC).
  cbv zeta in HC. rewrite HC at 1. rewrite creditFold_projects, filter_filter_and.
  unfold customerProjectsOf. rewrite lookup_empty. reflexivity.
Qed.

(** X8. The order of the rows does not matter to the counts: two data
    sets that are permutations of each other make the analysis raise or
    return alike, have the same practice projects, give every consultant
    the same project count, and give every customer the same project
    count in the company map and in the practice map.  The totals of
    hours are left out: the code adds them in row order. *)
Theorem row_order_irrelevant (data data' : list Row) (filters : Filters)
    (config : Config) (name : string) :
  data ≡ₚ data' ->
  practiceProjects (aggregate data filters config)
  = practiceProjects (aggregate data' filters config)
  /\ projectsOf (consultants (aggregate data filters config)) name
     = projectsOf (consultants (aggregate data' filters config)) name
  /\ customerProjectsOf (allCustomers (aggregate data filters config)) name
     = customerProjectsOf (allCustomers (aggregate data' filters config)) name
  /\ customerProjectsOf (customers (aggregate data filters config)) name
     = customerProjectsOf (customers (aggregate data' filters config)) name
  /\ (aggregateOrThrow data filters config = None
      <-> aggregateOrThrow data' filters config = None).
Proof.
  intros Hp.
  destruct (aggregate_credit data filters config name) as [H1 _].
  destruct (aggregate_credit data' filters config name) as [H1' _].
  split; [apply practiceProjects_perm, Hp|].
  split; [rewrite H1, H1'; apply contributions_perm, Hp|].
  split; [|split].
  - rewrite !company_projects_count. apply filter_length_perm, Hp.
  - rewrite !practice_projects_count.
    rewrite (practiceProjects_perm data data' filters config Hp).
    apply filter_length_perm, Hp.
  - rewrite !aggregateOrThrow_spec.
    rewrite (analysisThrows_perm filters data data' Hp).
    destruct (analysisThrows filters data'); [tauto|].
    split; discriminate.
Qed.

Lemma row_order_irrelevant_witness :
  practiceProjects (aggregate [samRow; aliceRow] noFilters defaultConfig)
  = practiceProjects (aggregate [aliceRow; samRow] noFilters defaultConfig).
Proof.
  apply (row_order_irrelevant [samRow; aliceRow] [aliceRow; samRow]
           noFilters defaultConfig "Alice").
  apply perm_swap.
Defined.

Lemma consultantFold_untouched filters thr row name l st :
  (forall c, In c l -> consultantAccepted filters row c = true -> c <> name) ->
  consultants (fst (fold_left (consultantStep filters thr row) l st)) !! name
  = consultants (fst st) !! name.
Proof.
  revert st. induction l as [|c l IH]; intros st Hl; simpl; [reflexivity|].
  rewrite IH by (intros x Hx; apply Hl; right; exact Hx).
  rewrite consultantStep_cases.
  destruct (consultantAccepted filters row c) eqn:E; [|reflexivity].
  simpl. apply lookup_insert_ne. apply Hl; [left; reflexivity | exact E].
Qed.

Lemma isExcluded_spec filters c job :
  isExcluded filters c job = true <->
  exists l e, filter_exclusions filters = Some l /\ In e l
              /\ trim (toLowerCase (excl_consultant e)) = trim (toLowerCase c)
              /\ trim (excl_project e) = trim job.
Proof.
  unfold isExcluded. destruct (filter_exclusions filters) as [l|].
  - rewrite existsb_exists. split.
    + intros (e & Hin & He). apply andb_true_iff in He as [H1 H2].
      apply eqb_spec in H1, H2. exists l, e. auto.
    + intros (l' & e & Heq & Hin & H1 & H2). injection Heq as <-.
      exists e. split; [exact Hin|].
      apply andb_true_iff. split; apply eqb_spec; assumption.
  - split; [discriminate|]. intros (l & e & H & _). discriminate.
Qed.

(** X9. A consultant is excluded on a job only when some exclusion
    rule names the consultant, compared in lower case and trimmed, and
    the job number, compared trimmed: no substring match (the converse
    is [isExcluded_spec]).  A row leaves
    the accumulator of a consultant excluded on its job number as it
    was, while the company customer map still receives the row. *)
Theorem excluded_consultant_untouched (filters : Filters)
    (successThreshold : Q) (acc : Accumulators) (row : Row) (name : string) :
  isExcluded filters name (jobNumber row) = true ->
  (exists l e, filter_exclusions filters = Some l /\ In e l
               /\ trim (toLowerCase (excl_consultant e))
                  = trim (toLowerCase name)
               /\ trim (excl_project e) = trim (jobNumber row))
  /\ consultants (pass1Row filters successThreshold acc row) !! name
     = consultants acc !! name
  /\ allCustomers (pass2Row successThreshold acc row)
     = (if pass2Guard row
        then creditRow successThreshold (allCustomers acc) row
        else allCustomers acc).
Proof.
  intros Hex. split; [apply isExcluded_spec, Hex|]. split.
  - destruct (Qpositive (budgetHrs row)) eqn:Hpos.
    + rewrite (pass1Row_consultants _ _ _ _ Hpos).
      apply consultantFold_untouched.
      intros c _ Hacc ->. unfold consultantAccepted in Hacc.
      rewrite Hex, andb_false_r in Hacc. discriminate.
    + rewrite (pass1Row_not_positive _ _ _ _ Hpos). reflexivity.
  - destruct (pass2Row_parts successThreshold acc row) as (_ & H & _).
    exact H.
Qed.

Lemma excluded_consultant_untouched_witness :
  consultants (pass1Row aliceExcluded (3 # 10) emptyAccumulators samRow) !! "Alice"
  = consultants emptyAccumulators !! "Alice".
Proof.
  apply (excluded_consultant_untouched aliceExcluded (3 # 10)
           emptyAccumulators samRow "Alice").
  reflexivity.
Defined.

(* ===================================================================== *)
(** * Range of the risk score *)
(* ===================================================================== *)

Lemma successRateRisk_cases (r : Q) :
  (successRateRisk r = 4%nat /\ (r < 50)%Q)
  \/ ((successRateRisk r <= 2)%nat /\ (50 <= r)%Q).
Proof.
  unfold successRateRisk. destruct (Qlt_bool r 50) eqn:E.
  - left. split; [reflexivity|]. apply Qlt_bool_spec, E.
  - right. apply Qlt_bool_false in E. split; [|exact E].
    destruct (Qlt_bool r 70); [lia|]. destruct (Qlt_bool r 85); lia.
Qed.

Lemma volumeRisk_cases (n : nat) :
  (volumeRisk n = 0%nat /\ (10 <= n)%nat)
  \/ ((1 <= volumeRisk n <= 2)%nat /\ (n < 10)%nat).
Proof.
  unfold volumeRisk. destruct (Nat.leb_spec 10 n).
  - left. auto.
  - right. split; [|exact H]. destruct (Nat.leb 5 n); lia.
Qed.

Lemma varianceRisk_cases (v : Q) :
  ((varianceRisk v <= 1)%nat /\ (Qabs v <= 30)%Q)
  \/ ((2 <= varianceRisk v <= 3)%nat /\ (30 < Qabs v)%Q).
Proof.
  unfold varianceRisk. destruct (Qlt_bool 50 (Qabs v)) eqn:E50.
  - right. apply Qlt_bool_spec in E50. split; [lia|].
    apply Qlt_trans with 50%Q; [reflexivity | exact E50].
  - destruct (Qlt_bool 30 (Qabs v)) eqn:E30.
    + right. apply Qlt_bool_spec in E30. split; [lia | exact E30].
    + left. apply Qlt_bool_false in E30. split; [|exact E30].
      destruct (Qlt_bool 15 (Qabs v)); lia.
Qed.

Lemma budgetRisk_le (b : Q) : (budgetRisk b <= 1)%nat.
Proof.
  unfold budgetRisk. destruct (Qlt_bool 5000 b); [lia|].
  destruct (Qlt_bool 2000 b); lia.
Qed.

Lemma riskLevelOf_critical (score : nat) :
  riskLevelOf score = Critical <-> (9 <= score)%nat.
Proof.
  unfold riskLevelOf.
  destruct (Nat.leb_spec score 2); [split; [discriminate | lia]|].
  destruct (Nat.leb_spec score 5); [split; [discriminate | lia]|].
  destruct (Nat.leb_spec score 8); [split; [discriminate | lia]|].
  split; [lia | reflexivity].
Qed.

(** X10. The level is Critical only for a customer whose success rate
    is below 50, that has fewer than 10 projects and whose average
    variance exceeds 30 in absolute value; the risk score of such a
    customer is at most 10. *)
Theorem critical_risk_needs (customer : CustomerMetrics) :
  riskLevelOf (riskScoreOf customer) = Critical ->
  (riskScoreOf customer <= 10)%nat
  /\ (cust_successRate customer < 50)%Q
  /\ (cust_projects customer < 10)%nat
  /\ (30 < Qabs (cust_avgVariance customer))%Q.
Proof.
  intros H. apply riskLevelOf_critical in H. unfold riskScoreOf in *.
  pose proof (budgetRisk_le (cust_totalBudgetHrs customer)) as Hb.
  destruct (successRateRisk_cases (cust_successRate customer)) as [[Hs Hs']|[Hs Hs']];
  destruct (volumeRisk_cases (cust_projects customer)) as [[Hv Hv']|[Hv Hv']];
  destruct (varianceRisk_cases (cust_avgVariance customer)) as [[Hc Hc']|[Hc Hc']];
    try lia.
  split; [lia|]. auto.
Qed.

Lemma critical_risk_needs_witness :
  (riskScoreOf criticalCustomer <= 10)%nat
  /\ (cust_successRate criticalCustomer < 50)%Q.
Proof.
  pose proof (critical_risk_needs criticalCustomer eq_refl) as H.
  destruct H as (H1 & H2 & _). split; [exact H1 | exact H2].
Defined.

(* ===================================================================== *)
(** * DAS+ aggregates *)
(* ===================================================================== *)

Lemma fold_Qplus_bounds (l : list Q) (a : Q) :
  Forall (fun x => (0 <= x <= 1)%Q) l ->
  (a <= fold_left Qplus l a <= a + Qnat (length l))%Q.
Proof.
  revert a. induction l as [|x l IH]; intros a Hl; simpl.
  - unfold Qnat. simpl. split; [apply Qle_refl|].
    rewrite Qplus_0_r. apply Qle_refl.
  - inversion Hl as [|? ? [Hx0 Hx1] Hl']; subst.
    destruct (IH (a + x)%Q Hl') as [H1 H2]. split.
    + apply Qle_trans with (a + x)%Q; [|exact H1].
      rewrite <- (Qplus_0_r a) at 1. apply Qplus_le_compat; [apply Qle_refl | exact Hx0].
    + apply Qle_trans with (a + x + Qnat (length l))%Q; [exact H2|].
      assert (E : (Qnat (S (length l)) == Qnat (length l) + 1)%Q).
      { unfold Qnat. rewrite Nat2Z.inj_succ, <- Z.add_1_r, inject_Z_plus.
        reflexivity. }
      rewrite E.
      assert (Heq : (a + x + Qnat (length l) == a + (Qnat (length l) + x))%Q)
        by ring.
      rewrite Heq.
      apply Qplus_le_compat; [apply Qle_refl|].
      apply Qplus_le_compat; [apply Qle_refl | exact Hx1].
Qed.

Lemma averageOf_bounds (scores : list Q) :
  (1 <= length scores)%nat ->
  Forall (fun x => (0 <= x <= 1)%Q) scores ->
  (0 <= averageOf scores <= 1)%Q.
Proof.
  intros Hn Hs. unfold averageOf.
  destruct (fold_Qplus_bounds scores 0 Hs) as [H1 H2].
  pose proof (Qnat_pos _ Hn) as Hpos. split.
  - apply Qle_shift_div_l; [exact Hpos|]. rewrite Qmult_0_l. exact H1.
  - apply Qle_shift_div_r; [exact Hpos|]. rewrite Qmult_1_l.
    rewrite Qplus_0_l in H2. exact H2.
Qed.

Lemma dasScores_bounded (c : Consultant.t) :
  Forall (fun x => (0 <= x <= 1)%Q) (dasScores c).
Proof.
  unfold dasScores. apply Forall_fmap, Forall_forall.
  intros p _. apply dasScore_bounds.
Qed.

Lemma filter_disjoint_length {A : Type} (f g : A -> bool) (l : list A) :
  (forall x, f x = true -> g x = false) ->
  (length (List.filter f l) + length (List.filter g l) <= length l)%nat.
Proof.
  intros Hfg. induction l as [|x l IH]; simpl; [lia|].
  destruct (f x) eqn:E.
  - rewrite (Hfg x E). simpl. lia.
  - destruct (g x); simpl; lia.
Qed.

Lemma filter_length_bound {A : Type} (f : A -> bool) (l : list A) :
  (length (List.filter f l) <= length l)%nat.
Proof.
  induction l as [|x l IH]; simpl; [lia|]. destruct (f x); simpl; lia.
Qed.

(** X11. For every consultant of the analysis the average DAS+ lies
    between 0 and 1, the median DAS+ is one of the consultant's own
    scores (so it lies between 0 and 1 too), the low and high counts are
    counts of different projects (together at most the project count),
    and the review count is at most the project count. *)
Theorem das_entry_bounds (data : list Row) (filters : Filters)
    (config : Config) (name : string) (c : Consultant.t) :
  consultants (aggregate data filters config) !! name = Some c ->
  let entry := dasEntryOf name c in
  (0 <= das_avgDAS entry <= 1)%Q
  /\ (exists m, das_medianDAS entry = Some m /\ In m (dasScores c)
                /\ (0 <= m <= 1)%Q)
  /\ (das_lowCount entry + das_highCount entry <= das_projects entry)%nat
  /\ (das_reviewCount entry <= das_projects entry)%nat.
Proof.
  intros Hc entry.
  destruct (aggregate_sound data filters config name c Hc)
    as (H1 & _ & H3 & _).
  assert (Hlen : length (dasScores c) = Consultant.projects c).
  { unfold dasScores. rewrite length_fmap. auto. }
  pose proof (dasScores_bounded c) as Hb.
  split; [|split; [|split]].
  - apply averageOf_bounds; [lia | exact Hb].
  - destruct (medianOf_defined (dasScores c)) as [m Hm]; [lia|].
    exists m. split; [exact Hm|].
    assert (Hin : In m (dasScores c)).
    { unfold medianOf in Hm. apply list_elem_of_lookup_2 in Hm.
      apply list_elem_of_In.
      unfold sortAscending in Hm. rewrite merge_sort_Permutation in Hm.
      exact Hm. }
    split; [exact Hin|].
    rewrite Forall_forall in Hb. apply Hb, list_elem_of_In, Hin.
  - unfold entry, dasEntryOf. cbn [das_lowCount das_highCount das_projects].
    rewrite <- Hlen. apply filter_disjoint_length.
    intros x Hx. apply Qlt_bool_spec in Hx.
    destruct (Qle_bool (85 # 100) x) eqn:E; [|reflexivity].
    apply Qle_bool_iff in E. exfalso.
    apply (Qlt_irrefl x). apply Qlt_le_trans with (75 # 100); [exact Hx|].
    apply Qle_trans with (85 # 100); [discriminate | exact E].
  - unfold entry, dasEntryOf. cbn [das_reviewCount das_projects].
    rewrite <- Hlen. apply filter_length_bound.
Qed.

Lemma das_entry_bounds_witness :
  (0 <= das_avgDAS (dasEntryOf "Alice" aliceAccumulator) <= 1)%Q.
Proof.
  pose proof (das_entry_bounds [aliceRow] noFilters defaultConfig "Alice"
                aliceAccumulator eq_refl) as H.
  destruct H as (H & _). exact H.
Defined.

(* ===================================================================== *)
(** * Header detection *)
(* ===================================================================== *)

Lemma findHeaderFrom_spec (rows : list (list Cell)) (i : nat) :
  match findHeaderFrom i rows with
  | Some r =>
      exists k row, r = (i + k)%nat /\ rows !! k = Some row
                    /\ isHeaderRow row = true
                    /\ forall j row', (j < k)%nat -> rows !! j = Some row' ->
                                      isHeaderRow row' = false
  | None => forall j row', rows !! j = Some row' -> isHeaderRow row' = false
  end.
Proof.
  revert i. induction rows as [|row rest IH]; intros i; simpl.
  - intros j row' H. discriminate.
  - destruct (isHeaderRow row) eqn:E.
    + exists 0%nat, row. split; [lia|]. split; [reflexivity|].
      split; [exact E|]. intros j row' Hj. lia.
    + specialize (IH (S i)). destruct (findHeaderFrom (S i) rest) as [r|].
      * destruct IH as (k & row1 & -> & Hk & Hrow & Hmin).
        exists (S k), row1. split; [lia|]. split; [exact Hk|].
        split; [exact Hrow|]. intros [|j] row' Hj Hl.
        -- simpl in Hl. injection Hl as <-. exact E.
        -- simpl in Hl. apply (Hmin j); [lia | exact Hl].
      * intros [|j] row' Hl.
        -- simpl in Hl. injection Hl as <-. exact E.
        -- simpl in Hl. apply (IH j), Hl.
Qed.

(** X12. [findHeaderRow] answers the index of the first of the first 20
    rows of the sheet that has a header cell; when none of them has one
    it answers 13, whether or not the sheet has a row 13.  The answer is
    always below 20. *)
Theorem findHeaderRow_first_match (data : list (list Cell)) :
  let r := findHeaderRow data in
  (r < 20)%nat
  /\ ((exists row, data !! r = Some row /\ isHeaderRow row = true
                   /\ forall j row', (j < r)%nat -> data !! j = Some row' ->
                                     isHeaderRow row' = false)
      \/ (r = 13%nat
          /\ forall j row', (j < 20)%nat -> data !! j = Some row' ->
                            isHeaderRow row' = false))
  /\ findHeaderRow [] = 13%nat.
Proof.
  intros r. unfold r, findHeaderRow.
  pose proof (findHeaderFrom_spec (take 20 data) 0) as H.
  destruct (findHeaderFrom 0 (take 20 data)) as [x|]; simpl.
  - destruct H as (k & row & -> & Hk & Hrow & Hmin). simpl.
    assert (Hlt : (k < 20)%nat).
    { apply lookup_lt_Some in Hk. rewrite length_take in Hk. lia. }
    split; [exact Hlt|]. split; [|reflexivity]. left. exists row.
    rewrite lookup_take_lt in Hk by exact Hlt.
    split; [exact Hk|]. split; [exact Hrow|].
    intros j row' Hj Hl. apply (Hmin j); [exact Hj|].
    rewrite lookup_take_lt by lia. exact Hl.
  - split; [lia|]. split; [|reflexivity]. right. split; [reflexivity|].
    intros j row' Hj Hl. apply (H j). rewrite lookup_take_lt by exact Hj.
    exact Hl.
Qed.

(* ===================================================================== *)
(** * The exclusion file and the export, read back *)
(* ===================================================================== *)

Lemma trimEnd_idempotent (s : string) : trimEnd (trimEnd s) = trimEnd s.
Proof.
  induction s as [|c s IH]; [reflexivity|]. simpl.
  destruct (is_space c && is_empty (trimEnd s)) eqn:E; [reflexivity|].
  simpl. rewrite IH, E. reflexivity.
Qed.

Lemma trimStart_head (s : string) :
  trimStart s = EmptyString
  \/ exists c u, trimStart s = String c u /\ is_space c = false.
Proof.
  induction s as [|c s IH]; simpl; [left; reflexivity|].
  destruct (is_space c) eqn:E; [exact IH|]. right. eauto.
Qed.

Lemma trim_idempotent (s : string) : trim (trim s) = trim s.
Proof.
  unfold trim. destruct (trimStart_head s) as [-> | (c & u & -> & Hc)].
  - reflexivity.
  - simpl. rewrite Hc. simpl. rewrite Hc. simpl.
    rewrite trimEnd_idempotent, Hc. reflexivity.
Qed.

Lemma parseLoop_plain (s rest cur : string) (parts : list string) :
  allChars isPlainChar s = true ->
  Csv.parseLoop (s +:+ rest) cur false parts
  = Csv.parseLoop rest (cur +:+ s) false parts.
Proof.
  revert cur. induction s as [|c s IH]; intros cur Hs.
  - rewrite append_empty_r. reflexivity.
  - simpl in Hs. apply andb_true_iff in Hs as [Hc Hs].
    unfold isPlainChar in Hc. apply andb_true_iff in Hc as [Hq Hcomma].
    apply negb_true_iff in Hq, Hcomma.
    change (String c s +:+ rest) with (String c (s +:+ rest)).
    cbn [Csv.parseLoop]. rewrite Hq, Hcomma. simpl andb. cbv iota.
    rewrite IH by exact Hs. rewrite append_assoc. reflexivity.
Qed.

Lemma parseLoop_comma (rest cur : string) (parts : list string) :
  Csv.parseLoop (String comma rest) cur false parts
  = Csv.parseLoop rest EmptyString false (parts ++ [trim cur]).
Proof. reflexivity. Qed.

Lemma parseLoop_end (cur : string) (parts : list string) (q : bool) :
  Csv.parseLoop EmptyString cur q parts = parts ++ [trim cur].
Proof. reflexivity. Qed.

Lemma parseLine_newExclusionLine (consultant project reason : string) :
  allChars isPlainChar consultant = true ->
  allChars isPlainChar project = true ->
  Csv.parseLine (newExclusionLine consultant project reason)
  = [trim consultant; trim project; trim reason].
Proof.
  intros Hc Hp. unfold Csv.parseLine, newExclusionLine.
  rewrite (parseLoop_plain consultant) by exact Hc.
  rewrite parseLoop_comma.
  rewrite (parseLoop_plain project) by exact Hp.
  rewrite parseLoop_comma.
  unfold Csv.wrapEscaped, Csv.wrap. rewrite parseLoop_open.
  rewrite (parseLoop_escaped reason EmptyString) by exact I.
  rewrite parseLoop_end. reflexivity.
Qed.


Lemma doubleQuotes_plain (s : string) :
  allChars notQuoteChar s = true -> Csv.doubleQuotes s = s.
Proof.
  induction s as [|c s IH]; intros H; [reflexivity|].
  simpl in H. apply andb_true_iff in H as [Hc Hs].
  unfold notQuoteChar in Hc. apply negb_true_iff in Hc.
  simpl. rewrite Hc, IH by exact Hs. reflexivity.
Qed.

Lemma parseLoop_quoted (s rest cur : string) (parts : list string) :
  allChars notQuoteChar s = true ->
  notQuoteFirst rest ->
  Csv.parseLoop (Csv.wrap s +:+ rest) cur false parts
  = Csv.parseLoop rest (cur +:+ s) false parts.
Proof.
  intros Hs Hrest. unfold Csv.wrap.
  change (String dquote (s +:+ String dquote EmptyString) +:+ rest)
    with (String dquote ((s +:+ String dquote EmptyString) +:+ rest)).
  rewrite parseLoop_open, append_assoc.
  change (String dquote EmptyString +:+ rest) with (String dquote rest).
  rewrite <- (doubleQuotes_plain s Hs) at 1.
  apply parseLoop_escaped, Hrest.
Qed.

Lemma notQuoteFirst_comma (rest : string) : notQuoteFirst (String comma rest).
Proof. simpl. discriminate. Qed.

(** X14. A consultant row of the export is read back field by field, up
    to the trimming the reader applies, whenever the name holds no quote
    character and the six other cells hold neither a comma nor a quote
    character: a comma inside the name does no harm. *)
Theorem consultant_row_round_trip (row : Csv.ReportRow) :
  allChars notQuoteChar (Csv.prop row "name") = true ->
  Forall (fun key => allChars isPlainChar (Csv.prop row key) = true)
    ["projects"; "hours"; "efficiencyScore"; "successRate";
     "withinBudget"; "overBudget"] ->
  Csv.parseLine (Csv.joinCells (Csv.consultantCells row))
  = trim <$> Csv.consultantValues row.
Proof.
  intros Hname Hcells.
  repeat (apply Forall_cons_1 in Hcells as [? Hcells]).
  unfold Csv.parseLine, Csv.consultantCells, Csv.consultantValues.
  cbn [Csv.joinCells fmap list_fmap].
  rewrite parseLoop_quoted by (try assumption; apply notQuoteFirst_comma).
  rewrite parseLoop_comma.
  repeat (rewrite parseLoop_plain by assumption; rewrite parseLoop_comma).
  rewrite <- (append_empty_r (Csv.prop row "overBudget")) at 1.
  rewrite parseLoop_plain by assumption.
  rewrite parseLoop_end. reflexivity.
Qed.

Lemma consultant_row_round_trip_witness :
  Csv.parseLine (Csv.joinCells (Csv.consultantCells commaNameRow))
  = trim <$> Csv.consultantValues commaNameRow.
Proof.
  apply (consultant_row_round_trip commaNameRow).
  - reflexivity.
  - repeat constructor.
Defined.

(* ===================================================================== *)
(** * Files of lines *)
(* ===================================================================== *)

Lemma split_nonempty (sep : ascii) (s : string) : split sep s <> [].
Proof.
  destruct s as [|c s]; simpl; [discriminate|].
  destruct (Ascii.eqb c sep); [discriminate|].
  destruct (split sep s); discriminate.
Qed.

Lemma split_app (sep : ascii) (a b : string) :
  split sep (a +:+ String sep b) = split sep a ++ split sep b.
Proof.
  induction a as [|c a IH].
  - change (EmptyString +:+ String sep b) with (String sep b).
    simpl. rewrite Ascii.eqb_refl. reflexivity.
  - change (String c a +:+ String sep b) with (String c (a +:+ String sep b)).
    simpl. rewrite IH. destruct (Ascii.eqb c sep); [reflexivity|].
    pose proof (split_nonempty sep a) as Hne.
    destruct (split sep a) as [|h t]; [congruence | reflexivity].
Qed.

Lemma split_plain (s : string) :
  allChars notNewline s = true -> split Csv.newline s = [s].
Proof.
  induction s as [|c s IH]; intros H; [reflexivity|].
  simpl in H. apply andb_true_iff in H as [Hc Hs].
  unfold notNewline in Hc. apply negb_true_iff in Hc.
  simpl. rewrite Hc, (IH Hs). reflexivity.
Qed.

Lemma split_pieces_plain (sep : ascii) (s piece : string) :
  In piece (split sep s) -> allChars (fun c => negb (Ascii.eqb c sep)) piece = true.
Proof.
  revert piece. induction s as [|c s IH]; intros piece H; simpl in H.
  - destruct H as [<- | []]. reflexivity.
  - destruct (Ascii.eqb c sep) eqn:E.
    + destruct H as [<- | H]; [reflexivity | apply IH, H].
    + destruct (split sep s) as [|h t] eqn:Es.
      * destruct H as [<- | []]. simpl. rewrite E. reflexivity.
      * destruct H as [<- | H].
        -- simpl. rewrite E. simpl. apply IH. left. reflexivity.
        -- apply IH. right. exact H.
Qed.

Lemma split_joinLines (lines : list string) :
  lines <> [] ->
  Forall (fun l => allChars notNewline l = true) lines ->
  split Csv.newline (joinLines lines) = lines.
Proof.
  induction lines as [|l rest IH]; intros Hne Hl; [congruence|].
  inversion Hl as [|? ? Hhead Hrest]; subst.
  destruct rest as [|l2 rest].
  - simpl. apply split_plain, Hhead.
  - change (joinLines (l :: l2 :: rest))
      with (l +:+ String Csv.newline (joinLines (l2 :: rest))).
    rewrite split_app, (split_plain l Hhead), IH by (try exact Hrest; discriminate).
    reflexivity.
Qed.

Lemma nonBlankLines_plain (content line : string) :
  In line (nonBlankLines content) ->
  allChars notNewline line = true /\ isBlank line = false.
Proof.
  unfold nonBlankLines. rewrite filter_In. intros [Hin Hb].
  split; [|apply negb_true_iff, Hb].
  apply (split_pieces_plain Csv.newline content), Hin.
Qed.

Lemma filter_id {A : Type} (f : A -> bool) (l : list A) :
  Forall (fun x => f x = true) l -> List.filter f l = l.
Proof.
  induction 1 as [|x l Hx _ IH]; simpl; [reflexivity|].
  rewrite Hx, IH. reflexivity.
Qed.

(** The lines of a file written as [lines.join('\n') + '\n']. *)
Lemma nonBlankLines_written (lines : list string) :
  Forall (fun l => allChars notNewline l = true /\ isBlank l = false) lines ->
  nonBlankLines (joinLines lines +:+ String Csv.newline EmptyString) = lines.
Proof.
  intros Hl. unfold nonBlankLines. rewrite split_app.
  assert (Hkeep : List.filter (fun l => negb (isBlank l)) lines = lines).
  { apply filter_id. eapply Forall_impl; [exact Hl|].
    intros l [_ H]. simpl. rewrite H. reflexivity. }
  destruct lines as [|l rest]; [reflexivity|].
  rewrite split_joinLines.
  - rewrite List.filter_app, Hkeep. exact (app_nil_r _).
  - discriminate.
  - eapply Forall_impl; [exact Hl|]. intros x [H _]. exact H.
Qed.

Lemma nonBlankLines_Forall (content : string) :
  Forall (fun l => allChars notNewline l = true /\ isBlank l = false)
    (nonBlankLines content).
Proof.
  apply Forall_forall. intros l Hl. apply list_elem_of_In in Hl.
  apply (nonBlankLines_plain content), Hl.
Qed.

Lemma existsb_eqb_In (x : string) (l : list string) :
  existsb (String.eqb x) l = true <-> In x l.
Proof.
  rewrite existsb_exists. split.
  - intros (y & Hin & Heq). apply String.eqb_eq in Heq. subst. exact Hin.
  - intros Hin. exists x. split; [exact Hin | apply String.eqb_refl].
Qed.

Lemma disqualify_lines (file : option string) (consultant : string) :
  consultant <> EmptyString ->
  allChars notNewline consultant = true ->
  isBlank consultant = false ->
  nonBlankLines (default EmptyString (disqualify file consultant))
  = if existsb (String.eqb consultant) (nonBlankLines (default EmptyString file))
    then nonBlankLines (default EmptyString file)
    else nonBlankLines (default EmptyString file) ++ [consultant].
Proof.
  intros Hne Hplain Hblank. unfold disqualify.
  destruct consultant as [|a s]; [congruence|]. cbn [is_empty].
  destruct (existsb _ _); [reflexivity|].
  match goal with
  | |- nonBlankLines (default _ (Some ?x)) = _ =>
      change (default EmptyString (Some x)) with x
  end.
  apply nonBlankLines_written. apply Forall_app. split.
  - apply nonBlankLines_Forall.
  - repeat constructor; assumption.
Qed.

(** X15. After [POST /disqualify] of a name that is not blank and holds
    no line break, the name (trimmed) is in the list that
    [loadDisqualifiedConsultants] reads; the other names are kept, a
    name already listed is not added again, and disqualifying twice is
    disqualifying once. *)
Theorem disqualify_then_load (file : option string) (consultant : string) :
  consultant <> EmptyString ->
  allChars notNewline consultant = true ->
  isBlank consultant = false ->
  In (trim consultant) (loadDisqualifiedConsultants (disqualify file consultant))
  /\ (forall other, In other (loadDisqualifiedConsultants file) ->
        In other (loadDisqualifiedConsultants (disqualify file consultant)))
  /\ (In consultant (nonBlankLines (default EmptyString file)) ->
      disqualify file consultant = file)
  /\ disqualify (disqualify file consultant) consultant
     = disqualify file consultant.
Proof.
  intros Hne Hplain Hblank.
  pose proof (disqualify_lines file consultant Hne Hplain Hblank) as Hl.
  assert (Hload : forall f, loadDisqualifiedConsultants f
                            = trim <$> nonBlankLines (default EmptyString f)).
  { intros [c|]; reflexivity. }
  assert (Hin : In consultant
                  (nonBlankLines (default EmptyString (disqualify file consultant)))).
  { rewrite Hl. destruct (existsb _ _) eqn:E.
    - apply existsb_eqb_In, E.
    - apply in_or_app. right. left. reflexivity. }
  split; [|split; [|split]].
  - rewrite Hload. apply in_map, Hin.
  - intros other. rewrite !Hload, Hl.
    destruct (existsb _ _); [auto|]. rewrite fmap_app.
    intros H. apply in_or_app. left. exact H.
  - intros H. apply existsb_eqb_In in H. unfold disqualify.
    destruct (is_empty consultant); [reflexivity|]. rewrite H. reflexivity.
  - apply existsb_eqb_In in Hin. unfold disqualify at 1.
    destruct (is_empty consultant); [reflexivity|]. rewrite Hin. reflexivity.
Qed.

Lemma disqualify_then_load_witness :
  In (trim "Jane Doe")
     (loadDisqualifiedConsultants (disqualify (Some "Al Smith") "Jane Doe")).
Proof.
  pose proof (disqualify_then_load (Some "Al Smith") "Jane Doe") as H.
  destruct H as (H & _); [discriminate | reflexivity | reflexivity |].
  exact H.
Defined.

Lemma requalify_lines (content consultant : string) :
  consultant <> EmptyString ->
  nonBlankLines (default EmptyString (requalify (Some content) consultant))
  = List.filter (fun l => negb (String.eqb l consultant)) (nonBlankLines content).
Proof.
  intros Hne. unfold requalify.
  destruct consultant as [|a s]; [congruence|]. cbn [is_empty].
  set (c := String a s).
  assert (Hf : List.filter (fun l => negb (isBlank l) && negb (String.eqb l c))
                 (split Csv.newline content)
               = List.filter (fun l => negb (String.eqb l c))
                   (nonBlankLines content)).
  { unfold nonBlankLines. rewrite filter_filter_and. reflexivity. }
  rewrite Hf.
  assert (Hall : Forall (fun l => allChars notNewline l = true
                                  /\ isBlank l = false)
                   (List.filter (fun l => negb (String.eqb l c))
                      (nonBlankLines content))).
  { apply Forall_forall. intros l Hl. apply list_elem_of_In, filter_In in Hl.
    apply (nonBlankLines_plain content), Hl. }
  destruct (List.filter _ (nonBlankLines content)) as [|l rest] eqn:E.
  - reflexivity.
  - change (default EmptyString (Some ?x)) with x.
    apply nonBlankLines_written, Hall.
Qed.

(** X16. After [DELETE /disqualify] of a name that is not blank and
    holds no line break, the name is no longer a line of the file, every
    other line that is not blank is kept, and a missing file stays
    missing.  Disqualifying such a name and re-qualifying it leaves the
    lines the file had, without that name. *)
Theorem requalify_removes (file : option string) (content consultant : string) :
  consultant <> EmptyString ->
  allChars notNewline consultant = true ->
  isBlank consultant = false ->
  ~ In consultant
      (nonBlankLines (default EmptyString (requalify (Some content) consultant)))
  /\ (forall other, other <> consultant ->
        (In other (nonBlankLines
                     (default EmptyString (requalify (Some content) consultant)))
         <-> In other (nonBlankLines content)))
  /\ requalify None consultant = None
  /\ nonBlankLines
       (default EmptyString (requalify (disqualify file consultant) consultant))
     = List.filter (fun l => negb (String.eqb l consultant))
         (nonBlankLines (default EmptyString file)).
Proof.
  intros Hne Hplain Hblank.
  pose proof (requalify_lines content consultant Hne) as Hl.
  split; [|split; [|split]].
  - rewrite Hl, filter_In. intros [_ H].
    rewrite String.eqb_refl in H. discriminate.
  - intros other Ho. rewrite Hl, filter_In. split; [tauto|].
    intros H. split; [exact H|]. apply negb_true_iff, String.eqb_neq, Ho.
  - unfold requalify. destruct (is_empty consultant); reflexivity.
  - pose proof (disqualify_lines file consultant Hne Hplain Hblank) as Hd.
    destruct (disqualify file consultant) as [written|] eqn:E.
    + rewrite requalify_lines by exact Hne.
      change (default EmptyString (Some written)) with written in Hd.
      rewrite Hd.
      destruct (existsb _ _); [reflexivity|].
      rewrite List.filter_app. simpl. rewrite String.eqb_refl. simpl.
      apply app_nil_r.
    + change (default EmptyString None) with EmptyString in Hd.
      replace (requalify None consultant) with (@None string)
        by (unfold requalify; destruct (is_empty consultant); reflexivity).
      change (default EmptyString (@None string)) with EmptyString.
      destruct (existsb _ _) eqn:Ex.
      * rewrite <- Hd. reflexivity.
      * exfalso. change (nonBlankLines EmptyString) with (@nil string) in Hd.
        destruct (nonBlankLines (default EmptyString file)); discriminate.
Qed.

Lemma requalify_removes_witness :
  ~ In "Jane Doe"
      (nonBlankLines
         (default EmptyString
            (requalify (Some (joinLines ["Al Smith"; "Jane Doe"])) "Jane Doe"))).
Proof.
  pose proof (requalify_removes None (joinLines ["Al Smith"; "Jane Doe"])
                "Jane Doe") as H.
  destruct H as (H & _); [discriminate | reflexivity | reflexivity |].
  exact H.
Defined.

(* ===================================================================== *)
(** * Consultant of the Quarter *)
(* ===================================================================== *)

Lemma fold_Qplus_nonneg (l : list Q) (a : Q) :
  (0 <= a)%Q -> Forall (fun x => (0 <= x)%Q) l -> (0 <= fold_left Qplus l a)%Q.
Proof.
  revert a. induction l as [|x l IH]; intros a Ha Hl; simpl; [exact Ha|].
  inversion Hl as [|? ? Hx Hl']; subst. apply IH; [|exact Hl'].
  apply Qle_trans with (0 + 0)%Q; [discriminate|].
  apply Qplus_le_compat; assumption.
Qed.

Lemma consistency_bounds (readVariance : ProjectDetail -> Q)
    (acc : Accumulators) (name : string) (c : Consultant.t) :
  (0 <= q_consistencyScore (quarterEntryOf readVariance acc name c) <= 100)%Q.
Proof.
  unfold quarterEntryOf. cbn [q_consistencyScore].
  set (vs := (fun p => Qabs (readVariance p)) <$> Consultant.projectDetails c).
  split; [apply Q.le_max_l|].
  apply Q.max_lub; [discriminate|].
  assert (Hsum : (0 <= fold_left Qplus vs 0)%Q).
  { apply fold_Qplus_nonneg; [apply Qle_refl|].
    unfold vs. apply Forall_fmap, Forall_forall. intros p _.
    apply Qabs_nonneg. }
  assert (Havg : (0 <= fold_left Qplus vs 0 / Qnat (length vs))%Q).
  { destruct (length vs) as [|n] eqn:E.
    - unfold Qdiv, Qnat. simpl. rewrite Qmult_0_r. apply Qle_refl.
    - apply Qle_shift_div_l; [apply Qnat_pos; lia|].
      rewrite Qmult_0_l. exact Hsum. }
  apply Qle_minus_iff.
  setoid_replace (100 + - (100 - fold_left Qplus vs 0 / Qnat (length vs)))%Q
    with (fold_left Qplus vs 0 / Qnat (length vs))%Q using relation Qeq by ring.
  exact Havg.
Qed.

Lemma quarter_entries (readVariance : ProjectDetail -> Q)
    (disqualified : list string) (acc : Accumulators) (e : QuarterEntry) :
  In e (consultantOfQuarter readVariance disqualified acc) <->
  exists name c, consultants acc !! name = Some c
                 /\ ~ In name disqualified
                 /\ e = quarterEntryOf readVariance acc name c.
Proof.
  unfold consultantOfQuarter.
  rewrite <- list_elem_of_In, list_elem_of_fmap. split.
  - intros ([n c] & -> & Hin). apply list_elem_of_In, filter_In in Hin.
    destruct Hin as [Hin Hd]. apply list_elem_of_In, elem_of_map_to_list in Hin.
    exists n, c. split; [exact Hin|]. split; [|reflexivity].
    intros Hdq. apply existsb_eqb_In in Hdq. simpl in Hd.
    rewrite Hdq in Hd. discriminate.
  - intros (n & c & Hl & Hd & ->). exists (n, c). split; [reflexivity|].
    apply list_elem_of_In, filter_In. split.
    + apply list_elem_of_In, elem_of_map_to_list, Hl.
    + simpl. apply negb_true_iff.
      destruct (existsb _ _) eqn:E; [|reflexivity].
      apply existsb_eqb_In in E. contradiction.
Qed.

(** X17. The Consultant of the Quarter list holds one entry for each
    consultant of the analysis whose name is not, character for
    character, in the disqualified list, computed as for any other
    consultant, and no entry for a disqualified name.  In every entry the
    efficiency score equals the success rate, the success rate lies
    between 0 and 100 and so does the consistency score. *)
Theorem quarter_ranking (readVariance : ProjectDetail -> Q)
    (disqualified : list string) (data : list Row) (filters : Filters)
    (config : Config) (e : QuarterEntry) :
  let acc := aggregate data filters config in
  (In e (consultantOfQuarter readVariance disqualified acc) <->
   exists name c, consultants acc !! name = Some c
                  /\ ~ In name disqualified
                  /\ e = quarterEntryOf readVariance acc name c)
  /\ (In e (consultantOfQuarter readVariance disqualified acc) ->
      ~ In (q_name e) disqualified
      /\ q_efficiencyScore e = q_successRate e
      /\ (0 <= q_successRate e <= 100)%Q
      /\ (0 <= q_consistencyScore e <= 100)%Q
      /\ (1 <= q_projects e)%nat).
Proof.
  intros acc. split; [apply quarter_entries|].
  intros He. apply quarter_entries in He as (name & c & Hc & Hd & ->).
  destruct (aggregate_sound data filters config name c Hc)
    as (H1 & H2 & _).
  split; [exact Hd|]. split; [reflexivity|]. split; [|split].
  - unfold quarterEntryOf. cbn [q_successRate].
    pose proof (Qnat_pos _ H1) as Hpos.
    assert (Hw : (0 <= Qnat (Consultant.withinBudget c))%Q).
    { unfold Qnat, Qle. simpl. lia. }
    assert (Hle : (Qnat (Consultant.withinBudget c)
                   <= Qnat (Consultant.projects c))%Q).
    { unfold Qnat, Qle. simpl. lia. }
    split.
    + apply Qmult_le_0_compat; [|discriminate].
      apply Qle_shift_div_l; [exact Hpos|]. rewrite Qmult_0_l. exact Hw.
    + setoid_replace (100 : Q) with (1 * 100)%Q using relation Qeq at 2 by ring.
      apply Qmult_le_compat_r; [|discriminate].
      apply Qle_shift_div_r; [exact Hpos|]. rewrite Qmult_1_l. exact Hle.
  - apply consistency_bounds.
  - exact H1.
Qed.

Lemma disqualify_loaded (file : option string) (consultant : string) :
  consultant <> EmptyString ->
  allChars notNewline consultant = true ->
  isBlank consultant = false ->
  In (trim consultant) (loadDisqualifiedConsultants (disqualify file consultant)).
Proof.
  intros Hne Hplain Hblank.
  pose proof (disqualify_lines file consultant Hne Hplain Hblank) as Hl.
  assert (Hin : In consultant
                  (nonBlankLines (default EmptyString (disqualify file consultant)))).
  { rewrite Hl. destruct (existsb _ _) eqn:E.
    - apply existsb_eqb_In, E.
    - apply in_or_app. right. left. reflexivity. }
  destruct (disqualify file consultant) as [c|]; simpl in *.
  - apply in_map, Hin.
  - contradiction.
Qed.

(** X18. A consultant disqualified through [POST /disqualify] under a
    trimmed name is absent from the Consultant of the Quarter list that
    is computed with the list read back from the file, whatever the data
    and the filters. *)
Theorem disqualified_absent_from_ranking (readVariance : ProjectDetail -> Q)
    (file : option string) (consultant : string) (data : list Row)
    (filters : Filters) (config : Config) (e : QuarterEntry) :
  consultant <> EmptyString ->
  allChars notNewline consultant = true ->
  trim consultant = consultant ->
  In e (consultantOfQuarter readVariance
          (loadDisqualifiedConsultants (disqualify file consultant))
          (aggregate data filters config)) ->
  q_name e <> consultant.
Proof.
  intros Hne Hplain Htrim He Heq.
  assert (Hblank : isBlank consultant = false).
  { unfold isBlank. rewrite Htrim. destruct consultant; [congruence | reflexivity]. }
  pose proof (disqualify_loaded file consultant Hne Hplain Hblank) as Hin.
  rewrite Htrim in Hin.
  apply quarter_entries in He as (name & c & _ & Hd & ->).
  simpl in Heq. subst name. contradiction.
Qed.

Lemma disqualified_absent_from_ranking_witness :
  q_name (quarterEntryOf pd_variance
            (aggregate [pairRow] noFilters defaultConfig) "Bo"
            (creditConsultant (3 # 10) pairRow Consultant.fresh))
  <> "Al".
Proof.
  apply (disqualified_absent_from_ranking pd_variance None "Al" [pairRow]
           noFilters defaultConfig);
    [discriminate | reflexivity | reflexivity |].
  apply quarter_entries.
  exists "Bo", (creditConsultant (3 # 10) pairRow Consultant.fresh).
  split; [reflexivity|]. split; [|reflexivity].
  intros H. vm_compute in H. destruct H as [H | []]. discriminate.
Defined.

(* ===================================================================== *)
(** * Writing and reading the exclusion file *)
(* ===================================================================== *)

Lemma endsWithNewline_spec (s : string) :
  endsWithNewline s = true ->
  exists s0, s = s0 +:+ String Csv.newline EmptyString.
Proof.
  induction s as [|c s IH]; intros H; [discriminate|].
  destruct s as [|c' s'].
  - simpl in H. apply Ascii.eqb_eq in H. subst c. exists EmptyString. reflexivity.
  - destruct (IH H) as [s0 Hs0]. exists (String c s0). rewrite Hs0. reflexivity.
Qed.

Lemma nonBlankLines_app (a b : string) :
  nonBlankLines (a +:+ String Csv.newline b)
  = nonBlankLines a ++ nonBlankLines b.
Proof. unfold nonBlankLines. rewrite split_app. apply List.filter_app. Qed.

Lemma nonBlankLines_single (line : string) :
  allChars notNewline line = true -> isBlank line = false ->
  nonBlankLines line = [line].
Proof.
  intros Hp Hb. unfold nonBlankLines.
  rewrite (split_plain line Hp). simpl. rewrite Hb. reflexivity.
Qed.

(** The lines of a file after a line is appended the way [POST /exclude]
    does it. *)
Lemma nonBlankLines_appended (content line : string) :
  allChars notNewline line = true -> isBlank line = false ->
  nonBlankLines ((if endsWithNewline content then content
                  else content +:+ String Csv.newline EmptyString)
                 +:+ line +:+ String Csv.newline EmptyString)
  = nonBlankLines content ++ [line].
Proof.
  intros Hp Hb.
  assert (Hshift : forall s,
            (s +:+ String Csv.newline EmptyString)
              +:+ line +:+ String Csv.newline EmptyString
            = s +:+ String Csv.newline
                      (line +:+ String Csv.newline EmptyString)).
  { intros s. rewrite append_assoc. reflexivity. }
  destruct (endsWithNewline content) eqn:E.
  - destruct (endsWithNewline_spec content E) as [s0 Hs0].
    rewrite Hs0, Hshift, !nonBlankLines_app.
    rewrite (nonBlankLines_single line Hp Hb).
    change (nonBlankLines EmptyString) with (@nil string).
    rewrite !app_nil_r. reflexivity.
  - rewrite Hshift, !nonBlankLines_app.
    rewrite (nonBlankLines_single line Hp Hb). reflexivity.
Qed.

Lemma trim_fixed_head (s : string) :
  trim s = s -> s <> EmptyString ->
  exists a u, s = String a u /\ is_space a = false.
Proof.
  intros Ht Hne. unfold trim in Ht.
  destruct (trimStart_head s) as [E | (a & u & E & Ha)]; rewrite E in Ht.
  - simpl in Ht. congruence.
  - simpl in Ht. rewrite Ha in Ht. simpl in Ht. eauto.
Qed.

Lemma trimEnd_last (s : string) (a : ascii) :
  is_space a = false ->
  trimEnd (s +:+ String a EmptyString) = s +:+ String a EmptyString.
Proof.
  intros Ha. induction s as [|c s IH].
  - simpl. rewrite Ha. reflexivity.
  - change (String c s +:+ String a EmptyString)
      with (String c (s +:+ String a EmptyString)).
    simpl. rewrite IH.
    destruct (s +:+ String a EmptyString) eqn:E.
    + destruct s; discriminate.
    + rewrite andb_false_r. reflexivity.
Qed.

Lemma allChars_app (p : ascii -> bool) (a b : string) :
  allChars p (a +:+ b) = allChars p a && allChars p b.
Proof.
  induction a as [|c a IH]; [reflexivity|].
  change (String c a +:+ b) with (String c (a +:+ b)).
  simpl. rewrite IH, andb_assoc. reflexivity.
Qed.

Lemma doubleQuotes_notNewline (s : string) :
  allChars notNewline s = true -> allChars notNewline (Csv.doubleQuotes s) = true.
Proof.
  induction s as [|c s IH]; intros H; [reflexivity|].
  simpl in H. apply andb_true_iff in H as [Hc Hs]. simpl.
  destruct (Ascii.eqb c dquote) eqn:E.
  - simpl. apply IH, Hs.
  - simpl. rewrite Hc. apply IH, Hs.
Qed.

Lemma newExclusionLine_shape (consultant project reason : string) :
  newExclusionLine consultant project reason
  = (consultant +:+ String comma (project +:+ String comma
       (String dquote (Csv.doubleQuotes reason))))
    +:+ String dquote EmptyString.
Proof.
  unfold newExclusionLine, Csv.wrapEscaped, Csv.wrap.
  rewrite append_assoc.
  change (String comma (project +:+ String comma
            (String dquote (Csv.doubleQuotes reason)))
          +:+ String dquote EmptyString)
    with (String comma ((project +:+ String comma
            (String dquote (Csv.doubleQuotes reason)))
          +:+ String dquote EmptyString)).
  rewrite append_assoc. reflexivity.
Qed.

Lemma newExclusionLine_trimmed (consultant project reason : string) :
  trim consultant = consultant -> consultant <> EmptyString ->
  trim (newExclusionLine consultant project reason)
  = newExclusionLine consultant project reason.
Proof.
  intros Ht Hne. destruct (trim_fixed_head consultant Ht Hne) as (a & u & -> & Ha).
  unfold trim.
  assert (Hs : trimStart (newExclusionLine (String a u) project reason)
               = newExclusionLine (String a u) project reason).
  { unfold newExclusionLine.
    change (String a u +:+ ?x) with (String a (u +:+ x)).
    simpl. rewrite Ha. reflexivity. }
  rewrite Hs, newExclusionLine_shape. apply trimEnd_last. reflexivity.
Qed.

Lemma newExclusionLine_notNewline (consultant project reason : string) :
  allChars notNewline consultant = true ->
  allChars notNewline project = true ->
  allChars notNewline reason = true ->
  allChars notNewline (newExclusionLine consultant project reason) = true.
Proof.
  intros Hc Hp Hr. unfold newExclusionLine, Csv.wrapEscaped, Csv.wrap.
  rewrite allChars_app, Hc. cbn [andb allChars].
  rewrite allChars_app, Hp. cbn [andb allChars].
  rewrite allChars_app, (doubleQuotes_notNewline reason Hr). reflexivity.
Qed.

Lemma exclusionOfLine_new (consultant project reason : string) :
  allChars isPlainChar consultant = true ->
  allChars isPlainChar project = true ->
  trim consultant <> EmptyString ->
  trim project <> EmptyString ->
  trim reason <> EmptyString ->
  exclusionOfLine (newExclusionLine consultant project reason)
  = Some {| excl_consultant := trim consultant;
            excl_project := trim project;
            excl_reason := trim reason |}.
Proof.
  intros Hc Hp Hnc Hnp Hnr. unfold exclusionOfLine.
  rewrite parseLine_newExclusionLine by assumption.
  unfold exclusionOfParts. rewrite !trim_idempotent.
  destruct (trim consultant); [congruence|].
  destruct (trim project); [congruence|].
  destruct (trim reason); [congruence|]. reflexivity.
Qed.

Lemma trimStart_app (a b : string) :
  trimStart a <> EmptyString -> trimStart (a +:+ b) = trimStart a +:+ b.
Proof.
  induction a as [|c a IH]; intros H; [exfalso; apply H; reflexivity|].
  change (String c a +:+ b) with (String c (a +:+ b)).
  simpl in *. destruct (is_space c); [apply IH, H | reflexivity].
Qed.

Lemma trimStart_idempotent (s : string) : trimStart (trimStart s) = trimStart s.
Proof.
  destruct (trimStart_head s) as [-> | (c & u & -> & Hc)]; [reflexivity|].
  simpl. rewrite Hc. reflexivity.
Qed.

Lemma allChars_trimStart (p : ascii -> bool) (s : string) :
  allChars p s = true -> allChars p (trimStart s) = true.
Proof.
  induction s as [|c s IH]; intros H; [reflexivity|].
  simpl. destruct (is_space c); [|exact H].
  simpl in H. apply andb_true_iff in H as [_ H]. apply IH, H.
Qed.

Lemma newExclusionLine_trim (consultant project reason : string) :
  trim consultant <> EmptyString ->
  trim (newExclusionLine consultant project reason)
  = newExclusionLine (trimStart consultant) project reason.
Proof.
  intros Hne.
  assert (Hs : trimStart consultant <> EmptyString).
  { intros E. apply Hne. unfold trim. rewrite E. reflexivity. }
  unfold trim at 1. unfold newExclusionLine at 1.
  rewrite (trimStart_app _ _ Hs).
  fold (newExclusionLine (trimStart consultant) project reason).
  rewrite newExclusionLine_shape. apply trimEnd_last. reflexivity.
Qed.

(** X13. The line that [POST /exclude] appends for a request is one
    line of the file and is not blank, and the reader of
    [loadExistingExclusions], which trims the line and splits it into
    parts, gives back the trimmed consultant, the trimmed project and the
    trimmed reason, whatever quotes and commas the reason holds,
    provided that the consultant and the project hold no comma and no
    quote character, that none of the three holds a line break, and that
    none of the three is blank. *)
Theorem exclusion_line_round_trip (consultant project reason : string) :
  allChars isPlainChar consultant = true ->
  allChars isPlainChar project = true ->
  allChars notNewline consultant = true ->
  allChars notNewline project = true ->
  allChars notNewline reason = true ->
  trim consultant <> EmptyString ->
  trim project <> EmptyString ->
  trim reason <> EmptyString ->
  let line := newExclusionLine consultant project reason in
  split Csv.newline line = [line]
  /\ isBlank line = false
  /\ exclusionOfLine (trim line)
     = Some {| excl_consultant := trim consultant;
               excl_project := trim project;
               excl_reason := trim reason |}.
Proof.
  intros Hc Hp Hlc Hlp Hlr Hnc Hnp Hnr line.
  assert (Ht : trim line = newExclusionLine (trimStart consultant) project reason)
    by (apply newExclusionLine_trim, Hnc).
  split; [apply split_plain, newExclusionLine_notNewline; assumption|].
  split.
  - unfold isBlank. rewrite Ht. unfold newExclusionLine.
    destruct (trimStart consultant) eqn:E; [|reflexivity].
    exfalso. apply Hnc. unfold trim. rewrite E. reflexivity.
  - rewrite Ht. rewrite exclusionOfLine_new.
    + unfold trim at 1. rewrite trimStart_idempotent. reflexivity.
    + apply allChars_trimStart, Hc.
    + exact Hp.
    + unfold trim. rewrite trimStart_idempotent. exact Hnc.
    + exact Hnp.
    + exact Hnr.
Qed.

Lemma exclusion_line_round_trip_witness :
  exclusionOfLine (trim (newExclusionLine " Jane Doe" "J-100" quotedName))
  = Some {| excl_consultant := trim " Jane Doe";
            excl_project := trim "J-100";
            excl_reason := trim quotedName |}.
Proof.
  pose proof (exclusion_line_round_trip " Jane Doe" "J-100" quotedName) as H.
  destruct H as (_ & _ & H);
    [reflexivity | reflexivity | reflexivity | reflexivity | reflexivity
    | discriminate | discriminate | discriminate |].
  exact H.
Defined.

Lemma headed_lines (body : string) :
  split Csv.newline (exclusionHeader +:+ String Csv.newline body)
  = exclusionHeader :: split Csv.newline body.
Proof. rewrite split_app. reflexivity. Qed.

Lemma addExclusion_headed (body consultant project reason : string) :
  excludeRequestValid consultant project reason = true ->
  addExclusion (Some (exclusionHeader +:+ String Csv.newline body))
    consultant project reason
  = let content := exclusionHeader +:+ String Csv.newline body in
    if existsb (fun line => includes line (exclusionKey consultant project))
         (exclusionHeader :: split Csv.newline body)
    then Some content
    else Some ((if endsWithNewline content then content
                else content +:+ String Csv.newline EmptyString)
               +:+ newExclusionLine consultant project reason
               +:+ String Csv.newline EmptyString).
Proof.
  intros Hv. unfold addExclusion. rewrite Hv. cbn [negb].
  change (default (exclusionHeader +:+ String Csv.newline EmptyString)
            (Some (exclusionHeader +:+ String Csv.newline body)))
    with (exclusionHeader +:+ String Csv.newline body).
  rewrite headed_lines. reflexivity.
Qed.

Lemma exclusion_file_appended (body consultant project reason : string) :
  excludeRequestValid consultant project reason = true ->
  allChars isPlainChar consultant = true ->
  allChars isPlainChar project = true ->
  allChars notNewline consultant = true ->
  allChars notNewline project = true ->
  allChars notNewline reason = true ->
  trim consultant = consultant ->
  trim project <> EmptyString ->
  existsb (fun line => includes line (exclusionKey consultant project))
    (exclusionHeader :: split Csv.newline body) = false ->
  let content := exclusionHeader +:+ String Csv.newline body in
  exists written,
    addExclusion (Some content) consultant project reason = Some written
    /\ readExclusions written
       = readExclusions content
         ++ [ {| excl_consultant := consultant;
                 excl_project := trim project;
                 excl_reason := trim reason |} ].
Proof.
  intros Hv Hpc Hpp Hnc Hnp Hnr Htc Hbp Hnew content. unfold content.
  rewrite (addExclusion_headed _ _ _ _ Hv). cbv zeta. rewrite Hnew.
  eexists. split; [reflexivity|].
  assert (Hc : consultant <> EmptyString).
  { unfold excludeRequestValid in Hv. destruct consultant; [discriminate|].
    discriminate. }
  assert (Hr : trim reason <> EmptyString).
  { unfold excludeRequestValid in Hv.
    apply andb_true_iff in Hv as [_ Hv]. apply Nat.leb_le in Hv.
    intros E. rewrite E in Hv. simpl in Hv. lia. }
  set (line := newExclusionLine consultant project reason).
  assert (Hline : trim line = line)
    by (apply newExclusionLine_trimmed; assumption).
  assert (Hplain : allChars notNewline line = true)
    by (apply newExclusionLine_notNewline; assumption).
  assert (Hne : line <> EmptyString).
  { unfold line, newExclusionLine. destruct consultant; [congruence|].
    discriminate. }
  assert (Hblank : isBlank line = false).
  { unfold isBlank. rewrite Hline. destruct line; [congruence | reflexivity]. }
  unfold readExclusions.
  rewrite (nonBlankLines_appended _ line Hplain Hblank).
  rewrite nonBlankLines_app.
  change (nonBlankLines exclusionHeader) with [exclusionHeader].
  cbn [app]. change (includes (toLowerCase exclusionHeader) "consultant") with true.
  cbv iota. cbn [drop]. rewrite !drop_0, omap_app. f_equal.
  cbn [omap list_omap]. rewrite Hline.
  destruct (is_empty line) eqn:E; [apply is_empty_spec in E; congruence|].
  unfold line. rewrite exclusionOfLine_new; try assumption.
  - rewrite Htc. reflexivity.
  - rewrite Htc. exact Hc.
Qed.

Lemma exclusionLines_headed (body : string) :
  exclusionLines (Some (exclusionHeader +:+ String Csv.newline body))
  = exclusionHeader :: split Csv.newline body.
Proof.
  unfold exclusionLines. cbn [default]. change (id ?x) with x.
  rewrite headed_lines. reflexivity.
Qed.

(** X19. On an exclusion file that starts with the current header, an
    accepted [POST /exclude] whose key consultant,project occurs in no
    line appends its line to the file and pushes the request on the
    cache.  Right after it [loadExistingExclusions] answers from the
    cache: the entries cached before, none when there was no cache,
    followed by the request as it was received, project and reason
    untrimmed.  Once the cache is cleared it reads the file and returns
    the exclusions the file held before followed by the new one, project
    and reason trimmed.  This holds provided that the consultant and the
    project hold no comma, quote character or line break, the reason
    holds no line break, the consultant name is trimmed, the project is
    not blank, and the clock read after the write is not before the time
    stamp of the file. *)
Theorem exclusion_added_then_loaded (s : ExclusionStore)
    (body consultant project reason : string) (written now : Z) :
  exclusionFile s = Some (exclusionHeader +:+ String Csv.newline body) ->
  excludeRequestValid consultant project reason = true ->
  allChars isPlainChar consultant = true ->
  allChars isPlainChar project = true ->
  allChars notNewline consultant = true ->
  allChars notNewline project = true ->
  allChars notNewline reason = true ->
  trim consultant = consultant ->
  trim project <> EmptyString ->
  existsb (fun line => includes line (exclusionKey consultant project))
    (exclusionHeader :: split Csv.newline body) = false ->
  (written <= now)%Z ->
  let s' := postExclude s consultant project reason written now in
  exclusionFile s' = addExclusion (exclusionFile s) consultant project reason
  /\ fst (loadExistingExclusions s')
     = default [] (exclusionsCache s)
       ++ [ {| excl_consultant := consultant;
               excl_project := project;
               excl_reason := reason |} ]
  /\ fst (loadExistingExclusions (clearCaches s'))
     = readExclusions (exclusionHeader +:+ String Csv.newline body)
       ++ [ {| excl_consultant := consultant;
               excl_project := trim project;
               excl_reason := trim reason |} ].
Proof.
  intros Hfile Hv Hpc Hpp Hnc Hnp Hnr Htc Hbp Hnew Htime s'.
  assert (Hw : excludeWrites (exclusionFile s) consultant project reason = true).
  { unfold excludeWrites. rewrite Hfile, exclusionLines_headed, Hv, Hnew.
    reflexivity. }
  destruct (exclusion_file_appended body consultant project reason
              Hv Hpc Hpp Hnc Hnp Hnr Htc Hbp Hnew) as (content' & Hadd & Hread).
  assert (Hs' : s' = {| exclusionFile := Some content';
                        exclusionFileMtime := written;
                        exclusionsCache :=
                          Some (default [] (exclusionsCache s)
                                ++ [ {| excl_consultant := consultant;
                                        excl_project := project;
                                        excl_reason := reason |} ]);
                        exclusionsLastModified := Some now |}).
  { unfold s', postExclude. rewrite Hw, Hfile, Hadd. reflexivity. }
  split; [|split].
  - rewrite Hs', Hfile, Hadd. reflexivity.
  - rewrite Hs'. unfold loadExistingExclusions. cbn.
    destruct (Z.ltb_spec now written) as [Hlt | _]; [lia | reflexivity].
  - rewrite Hs'. unfold loadExistingExclusions, clearCaches. cbn.
    exact Hread.
Qed.

Lemma exclusion_added_then_loaded_witness :
  fst (loadExistingExclusions
         (postExclude boLeeStore "Al Smith" " J10" "left the team " 7 8))
  = default [] (exclusionsCache boLeeStore)
    ++ [ {| excl_consultant := "Al Smith"; excl_project := " J10";
            excl_reason := "left the team " |} ].
Proof.
  pose proof (exclusion_added_then_loaded boLeeStore
                (newExclusionLine "Bo Lee" "J2" "on leave"
                 +:+ String Csv.newline EmptyString)
                "Al Smith" " J10" "left the team " 7 8) as H.
  destruct H as (_ & H & _);
    [reflexivity | reflexivity | reflexivity | reflexivity | reflexivity
    | reflexivity | reflexivity | reflexivity | discriminate | reflexivity
    | lia |].
  exact H.
Defined.

Lemma key_in_longer_line (consultant project suffix reason : string) :
  includes (newExclusionLine consultant (project +:+ suffix) reason)
           (exclusionKey consultant project) = true.
Proof.
  apply includes_spec. exists EmptyString.
  exists (suffix +:+ String comma (Csv.wrapEscaped reason)).
  change (EmptyString
          +:+ exclusionKey consultant project
          +:+ suffix +:+ String comma (Csv.wrapEscaped reason))
    with (exclusionKey consultant project
          +:+ suffix +:+ String comma (Csv.wrapEscaped reason)).
  unfold newExclusionLine, exclusionKey.
  rewrite (append_assoc consultant), (append_assoc project). reflexivity.
Qed.

(** X20. [POST /exclude] looks for the text consultant,project anywhere
    in a line: when the file, which starts with the current header,
    already excludes the same consultant from a
    project whose number begins with the requested project number (J10
    for J1), the request writes nothing and the file stays as it was. *)
Theorem exclusion_key_collision
    (body consultant project suffix reason otherReason : string) :
  excludeRequestValid consultant project reason = true ->
  In (newExclusionLine consultant (project +:+ suffix) otherReason)
     (split Csv.newline body) ->
  addExclusion (Some (exclusionHeader +:+ String Csv.newline body))
    consultant project reason
  = Some (exclusionHeader +:+ String Csv.newline body).
Proof.
  intros Hv Hin. rewrite (addExclusion_headed _ _ _ _ Hv). cbv zeta.
  assert (E : existsb
                (fun line => includes line (exclusionKey consultant project))
                (exclusionHeader :: split Csv.newline body) = true).
  { apply existsb_exists.
    exists (newExclusionLine consultant (project +:+ suffix) otherReason).
    split; [right; exact Hin | apply key_in_longer_line]. }
  rewrite E. reflexivity.
Qed.

Lemma exclusion_key_collision_witness :
  addExclusion
    (Some (exclusionHeader +:+ String Csv.newline
             (newExclusionLine "Al Smith" ("J1" +:+ "0") "left the team")))
    "Al Smith" "J1" "other reason"
  = Some (exclusionHeader +:+ String Csv.newline
            (newExclusionLine "Al Smith" ("J1" +:+ "0") "left the team")).
Proof.
  apply (exclusion_key_collision
           (newExclusionLine "Al Smith" ("J1" +:+ "0") "left the team")
           "Al Smith" "J1" "0" "other reason" "left the team").
  - reflexivity.
  - left. reflexivity.
Defined.

(** X21. [DELETE /exclude] keeps exactly the lines in which the text
    consultant,project does not occur: besides the exclusion asked for,
    it drops every exclusion of the same consultant from a project whose
    number begins with the given project number. *)
Theorem exclusion_removed (content consultant project : string) :
  consultant <> EmptyString -> project <> EmptyString ->
  exists written,
    removeExclusion (Some content) consultant project = Some written
    /\ (forall line, line <> EmptyString ->
          (In line (split Csv.newline written)
           <-> In line (split Csv.newline content)
               /\ includes line (exclusionKey consultant project) = false))
    /\ (forall suffix reason,
          ~ In (newExclusionLine consultant (project +:+ suffix) reason)
               (split Csv.newline written)).
Proof.
  intros Hc Hp. unfold removeExclusion.
  destruct consultant as [|a s]; [congruence|].
  destruct project as [|b t]; [congruence|]. cbn [is_empty orb].
  set (key := exclusionKey (String a s) (String b t)).
  set (kept := List.filter (fun line => negb (includes line key))
                 (split Csv.newline content)).
  exists (joinLines kept). split; [reflexivity|].
  assert (Hlines : forall line, line <> EmptyString ->
            (In line (split Csv.newline (joinLines kept))
             <-> In line (split Csv.newline content)
                 /\ includes line key = false)).
  { intros line Hne.
    assert (Hk : In line kept
                 <-> In line (split Csv.newline content)
                     /\ includes line key = false).
    { unfold kept. rewrite filter_In, negb_true_iff. reflexivity. }
    rewrite <- Hk. destruct kept as [|l rest] eqn:E.
    - simpl. split; [intros [H | []]; congruence | intros []].
    - rewrite split_joinLines; [reflexivity | discriminate |].
      apply Forall_forall. intros x Hx. rewrite <- E in Hx.
      apply list_elem_of_In in Hx. unfold kept in Hx.
      apply filter_In in Hx as [Hx _].
      apply (split_pieces_plain Csv.newline content), Hx. }
  split; [exact Hlines|].
  intros suffix reason Hin.
  apply Hlines in Hin as [_ Hin].
  - unfold key in Hin. rewrite key_in_longer_line in Hin. discriminate.
  - unfold newExclusionLine. discriminate.
Qed.

Lemma exclusion_removed_witness :
  exists written,
    removeExclusion
      (Some (exclusionHeader +:+ String Csv.newline
               (newExclusionLine "Al Smith" "J10" "left the team")))
      "Al Smith" "J1" = Some written
    /\ ~ In (newExclusionLine "Al Smith" ("J1" +:+ "0") "left the team")
            (split Csv.newline written).
Proof.
  destruct (exclusion_removed
              (exclusionHeader +:+ String Csv.newline
                 (newExclusionLine "Al Smith" "J10" "left the team"))
              "Al Smith" "J1") as (written & Hw & _ & Hgone);
    [discriminate | discriminate |].
  exists written. split; [exact Hw | apply Hgone].
Defined.

(* ===================================================================== *)
(** * Snapshots and practice projects *)
(* ===================================================================== *)

Lemma snapshotJob_consultant_insert acc acc' thr row name job :
  consultants acc'
  = <[name := creditConsultant thr row
                (default Consultant.fresh (consultants acc !! name))]>
      (consultants acc) ->
  solutionArchitects acc' = solutionArchitects acc ->
  snapshotJob acc' job <-> snapshotJob acc job \/ job = jobNumber row.
Proof.
  intros Hc Hs. unfold snapshotJob. rewrite Hc, Hs. split.
  - intros [(n & c & p & Hl & Hin & Hj) | H]; [|left; right; exact H].
    destruct (decide (name = n)) as [<- | Hne].
    + rewrite lookup_insert_eq in Hl. injection Hl as <-. simpl in Hin.
      apply in_app_or in Hin as [Hin | [<- | []]].
      * destruct (consultants acc !! name) as [c0|] eqn:E; simpl in Hin.
        -- left. left. exists name, c0, p. auto.
        -- destruct Hin.
      * right. simpl in Hj. congruence.
    + rewrite lookup_insert_ne in Hl by exact Hne. left. left.
      exists n, c, p. auto.
  - intros [[(n & c & p & Hl & Hin & Hj) | H] | ->].
    + left. destruct (decide (name = n)) as [<- | Hne].
      * exists name. eexists. exists p. rewrite lookup_insert_eq.
        split; [reflexivity|]. split; [|exact Hj].
        simpl. apply in_or_app. left. rewrite Hl. exact Hin.
      * exists n, c, p. rewrite lookup_insert_ne by exact Hne. auto.
    + right. exact H.
    + left. exists name. eexists. exists (projectDetailOf row).
      rewrite lookup_insert_eq. split; [reflexivity|]. split; [|reflexivity].
      simpl. apply in_or_app. right. left. reflexivity.
Qed.

Lemma snapshotJob_sa_insert acc acc' thr row name job :
  solutionArchitects acc'
  = <[name := creditSA thr row
                (default SA.fresh (solutionArchitects acc !! name))]>
      (solutionArchitects acc) ->
  consultants acc' = consultants acc ->
  snapshotJob acc' job <-> snapshotJob acc job \/ job = jobNumber row.
Proof.
  intros Hs Hc. unfold snapshotJob. rewrite Hc, Hs. split.
  - intros [H | (n & c & p & Hl & Hin & Hj)]; [left; left; exact H|].
    destruct (decide (name = n)) as [<- | Hne].
    + rewrite lookup_insert_eq in Hl. injection Hl as <-. simpl in Hin.
      apply in_app_or in Hin as [Hin | [<- | []]].
      * destruct (solutionArchitects acc !! name) as [c0|] eqn:E; simpl in Hin.
        -- left. right. exists name, c0, p. auto.
        -- destruct Hin.
      * right. simpl in Hj. congruence.
    + rewrite lookup_insert_ne in Hl by exact Hne. left. right.
      exists n, c, p. auto.
  - intros [[H | (n & c & p & Hl & Hin & Hj)] | ->].
    + left. exact H.
    + right. destruct (decide (name = n)) as [<- | Hne].
      * exists name. eexists. exists p. rewrite lookup_insert_eq.
        split; [reflexivity|]. split; [|exact Hj].
        simpl. apply in_or_app. left. rewrite Hl. exact Hin.
      * exists n, c, p. rewrite lookup_insert_ne by exact Hne. auto.
    + right. exists name. eexists. exists (projectDetailOf row).
      rewrite lookup_insert_eq. split; [reflexivity|]. split; [|reflexivity].
      simpl. apply in_or_app. right. left. reflexivity.
Qed.

Lemma rowInvariant_raise row st acc' :
  rowInvariant row st ->
  practiceProjects acc' = practiceProjects (fst st) ->
  (forall job, snapshotJob acc' job
               <-> snapshotJob (fst st) job \/ job = jobNumber row) ->
  rowInvariant row (acc', true).
Proof.
  intros (I1 & I2 & I3) Hp Hs. unfold rowInvariant. simpl. rewrite Hp.
  split; [|split].
  - intros job Hj. apply Hs in Hj as [Hj | ->]; [|auto].
    destruct (I1 job Hj) as [H | [_ ->]]; auto.
  - intros job Hj. apply Hs. left. apply I2, Hj.
  - intros _. apply Hs. right. reflexivity.
Qed.

Lemma consultantStep_rowInvariant filters thr row st c :
  rowInvariant row st ->
  rowInvariant row (consultantStep filters thr row st c).
Proof.
  intros Hst. rewrite consultantStep_cases.
  destruct (consultantAccepted filters row c); [|exact Hst].
  apply (rowInvariant_raise row st); [exact Hst | reflexivity|].
  intros job. apply (snapshotJob_consultant_insert (fst st) _ thr row c);
    reflexivity.
Qed.

Lemma saStep_rowInvariant filters thr row st s :
  rowInvariant row st -> rowInvariant row (saStep filters thr row st s).
Proof.
  intros Hst. unfold saStep.
  destruct (negb (saFilterPasses filters s)); [exact Hst|].
  apply (rowInvariant_raise row st); [exact Hst | reflexivity|].
  intros job. apply (snapshotJob_sa_insert (fst st) _ thr row s); reflexivity.
Qed.

Lemma pass1Row_snapshots filters thr acc row :
  snapshotsArePractice acc ->
  snapshotsArePractice (pass1Row filters thr acc row).
Proof.
  intros Hacc.
  assert (H0 : rowInvariant row (acc, false)).
  { unfold rowInvariant. simpl. split; [|split].
    - intros job Hj. left. apply Hacc, Hj.
    - intros job Hj. apply Hacc, Hj.
    - discriminate. }
  assert (H1 : rowInvariant row (consultantBlock filters thr row (acc, false))).
  { unfold consultantBlock. destruct (_ && _); [|exact H0].
    apply (fold_left_invariant (rowInvariant row)); [|exact H0].
    intros st c _. apply consultantStep_rowInvariant. }
  assert (H2 : rowInvariant row
                 (saBlock filters thr row
                    (consultantBlock filters thr row (acc, false)))).
  { unfold saBlock at 1. destruct (_ && _); [|exact H1].
    apply (fold_left_invariant (rowInvariant row)); [|exact H1].
    intros st s _. apply saStep_rowInvariant. }
  unfold pass1Row. destruct H2 as (I1 & I2 & I3).
  destruct (snd _) eqn:E.
  - intros job. unfold markPractice.
    change (snapshotJob
              (fst (saBlock filters thr row
                      (consultantBlock filters thr row (acc, false)))) job
            <-> job ∈ {[jobNumber row]}
                      ∪ practiceProjects
                          (fst (saBlock filters thr row
                                  (consultantBlock filters thr row (acc, false))))).
    rewrite elem_of_union, elem_of_singleton. split.
    + intros Hj. destruct (I1 job Hj) as [H | [_ H]]; auto.
    + intros [-> | Hj]; [apply I3; reflexivity | apply I2, Hj].
  - intros job. split.
    + intros Hj. destruct (I1 job Hj) as [H | [H _]]; [exact H | discriminate].
    + apply I2.
Qed.

Lemma pass2Row_snapshots thr acc row :
  snapshotsArePractice acc -> snapshotsArePractice (pass2Row thr acc row).
Proof.
  intros Hacc job. destruct (pass2Row_parts thr acc row) as (Hp & _).
  rewrite Hp, <- (Hacc job). unfold snapshotJob.
  rewrite pass2Row_consultants, pass2Row_solutionArchitects. reflexivity.
Qed.

(** X22. The practice projects are exactly the job numbers shown in the
    project details of the consultants and solution architects: every
    snapshot of every consultant or SA accumulator bears a practice job
    number, and every practice job number is borne by some snapshot. *)
Theorem snapshots_are_practice_projects (data : list Row) (filters : Filters)
    (config : Config) (job : string) :
  snapshotJob (aggregate data filters config) job
  <-> job ∈ practiceProjects (aggregate data filters config).
Proof.
  revert job. change (snapshotsArePractice (aggregate data filters config)).
  unfold aggregate, pass2, pass1.
  apply (fold_left_invariant snapshotsArePractice).
  - intros a r _. apply pass2Row_snapshots.
  - apply (fold_left_invariant snapshotsArePractice).
    + intros a r _. apply pass1Row_snapshots.
    + intros job. unfold snapshotJob. simpl. split.
      * intros [(n & c & p & Hl & _) | (n & c & p & Hl & _)];
          rewrite lookup_empty in Hl; discriminate.
      * intros H. apply not_elem_of_empty in H. contradiction.
Qed.

(* ===================================================================== *)
(** * Combinations *)
(* ===================================================================== *)

Lemma creditCombo_sound thr row sa other m :
  combosSound m -> combosSound (creditCombo thr row sa other m).
Proof.
  intros Hm. unfold creditCombo. apply map_Forall_insert_2; [|exact Hm].
  destruct (m !! comboKey sa other) as [e|] eqn:E; simpl.
  - destruct (Hm _ _ E) as (H1 & H2 & H3).
    split; [exact H1|]. split; [lia|].
    destruct (isWithinBudget _ _); lia.
  - split; [reflexivity|]. split; [lia|].
    destruct (isWithinBudget _ _); lia.
Qed.

Lemma comboSaFold_sound filters thr row other l m :
  combosSound m ->
  combosSound (fold_left (comboSaStep filters thr row other) l m).
Proof.
  intros Hm. apply (fold_left_invariant combosSound); [|exact Hm].
  intros a sa _ Ha. unfold comboSaStep.
  destruct (saFilterPasses filters sa); [|exact Ha].
  apply creditCombo_sound, Ha.
Qed.

Lemma saCombinations_sound filters thr data :
  combosSound (saCombinations filters thr data).
Proof.
  unfold saCombinations.
  apply (fold_left_invariant combosSound); [|apply map_Forall_empty].
  intros m row _ Hm. unfold saCombinationsRow.
  destruct (_ && _); [|exact Hm].
  apply (fold_left_invariant combosSound); [|exact Hm].
  intros a c _ Ha. destruct (engineerFilterPasses filters c); [|exact Ha].
  apply comboSaFold_sound, Ha.
Qed.

Lemma saCustomerCombos_sound filters thr data :
  combosSound (saCustomerCombos filters thr data).
Proof.
  unfold saCustomerCombos.
  apply (fold_left_invariant combosSound); [|apply map_Forall_empty].
  intros m row _ Hm. unfold saCustomerRow.
  destruct (_ && _); [|exact Hm].
  apply comboSaFold_sound, Hm.
Qed.

Lemma comboMetrics_sound (m : gmap string Combo) (e : ComboMetric) :
  combosSound m -> In e (comboMetrics m) ->
  (2 <= cmb_projects e)%nat /\ (0 <= cmb_successRate e <= 100)%Q
  /\ exists entry, m !! comboKey (cmb_sa e) (cmb_other e) = Some entry
                   /\ cmb_projects e = combo_projects entry.
Proof.
  intros Hm He. unfold comboMetrics in He.
  apply list_elem_of_In, list_elem_of_fmap in He as ([k x] & -> & Hin).
  apply list_elem_of_In, filter_In in Hin as [Hin Hle].
  apply list_elem_of_In, elem_of_map_to_list in Hin.
  apply Nat.leb_le in Hle. simpl in Hle.
  destruct (Hm k x Hin) as (Hk & H1 & H2). cbn [cmb_projects cmb_successRate
    cmb_sa cmb_other snd].
  split; [exact Hle|]. split.
  - pose proof (Qnat_pos _ H1) as Hpos.
    assert (Hw : (0 <= Qnat (combo_successful x))%Q)
      by (unfold Qnat, Qle; simpl; lia).
    assert (Hl : (Qnat (combo_successful x) <= Qnat (combo_projects x))%Q)
      by (unfold Qnat, Qle; simpl; lia).
    split.
    + apply Qmult_le_0_compat; [|discriminate].
      apply Qle_shift_div_l; [exact Hpos|]. rewrite Qmult_0_l. exact Hw.
    + setoid_replace (100 : Q) with (1 * 100)%Q using relation Qeq at 2 by ring.
      apply Qmult_le_compat_r; [|discriminate].
      apply Qle_shift_div_r; [exact Hpos|]. rewrite Qmult_1_l. exact Hl.
  - exists x. rewrite <- Hk. auto.
Qed.

(** X23. Every entry of the SA-consultant list and of the SA-customer
    list has at least two projects and a success rate between 0 and 100,
    and is the entry stored under the key made of its own two names. *)
Theorem combination_entries (filters : Filters) (successThreshold : Q)
    (data : list Row) (e : ComboMetric) :
  In e (comboMetrics (saCombinations filters successThreshold data))
  \/ In e (comboMetrics (saCustomerCombos filters successThreshold data)) ->
  (2 <= cmb_projects e)%nat /\ (0 <= cmb_successRate e <= 100)%Q
  /\ ((exists entry,
         saCombinations filters successThreshold data
           !! comboKey (cmb_sa e) (cmb_other e) = Some entry
         /\ cmb_projects e = combo_projects entry)
      \/ (exists entry,
            saCustomerCombos filters successThreshold data
              !! comboKey (cmb_sa e) (cmb_other e) = Some entry
            /\ cmb_projects e = combo_projects entry)).
Proof.
  intros [He | He].
  - destruct (comboMetrics_sound _ e (saCombinations_sound _ _ _) He)
      as (H1 & H2 & H3). auto.
  - destruct (comboMetrics_sound _ e (saCustomerCombos_sound _ _ _) He)
      as (H1 & H2 & H3). auto.
Qed.

Lemma comboKey_split (sa1 sa2 o1 o2 : string) :
  allChars notBar sa1 = true -> allChars notBar sa2 = true ->
  comboKey sa1 o1 = comboKey sa2 o2 -> sa1 = sa2 /\ o1 = o2.
Proof.
  unfold comboKey. revert sa2.
  induction sa1 as [|c s IH]; intros sa2 H1 H2 Heq.
  - destruct sa2 as [|c2 s2].
    + injection Heq as ->. auto.
    + exfalso. injection Heq as <- _. simpl in H2. discriminate.
  - destruct sa2 as [|c2 s2].
    + exfalso. injection Heq as -> _. simpl in H1. discriminate.
    + injection Heq as -> Heq. simpl in H1, H2.
      apply andb_true_iff in H1 as [_ H1]. apply andb_true_iff in H2 as [_ H2].
      destruct (IH s2 H1 H2 Heq) as [-> ->]. auto.
Qed.

Lemma comboSaFold_noBar filters thr row other l m :
  Forall (fun s => allChars notBar s = true) l ->
  map_Forall (fun _ e => allChars notBar (combo_sa e) = true) m ->
  map_Forall (fun _ e => allChars notBar (combo_sa e) = true)
    (fold_left (comboSaStep filters thr row other) l m).
Proof.
  intros Hl. rewrite Forall_forall in Hl.
  apply (fold_left_invariant
           (map_Forall (fun _ e => allChars notBar (combo_sa e) = true))).
  intros a sa Hin Ha. unfold comboSaStep.
  destruct (saFilterPasses filters sa); [|exact Ha].
  unfold creditCombo. apply map_Forall_insert_2; [|exact Ha].
  destruct (a !! comboKey sa other) as [e|] eqn:E; simpl.
  - apply (Ha _ _ E).
  - apply Hl, list_elem_of_In, Hin.
Qed.

Lemma saCombinations_noBar filters thr data :
  (forall row s, In row data -> In s (nameList (solutionArchitect row)) ->
                 allChars notBar s = true) ->
  map_Forall (fun _ e => allChars notBar (combo_sa e) = true)
    (saCombinations filters thr data).
Proof.
  intros Hd. unfold saCombinations.
  apply (fold_left_invariant
           (map_Forall (fun _ e => allChars notBar (combo_sa e) = true)));
    [|apply map_Forall_empty].
  intros m row Hrow Hm. unfold saCombinationsRow.
  destruct (_ && _); [|exact Hm].
  apply (fold_left_invariant
           (map_Forall (fun _ e => allChars notBar (combo_sa e) = true)));
    [|exact Hm].
  intros a c _ Ha. destruct (engineerFilterPasses filters c); [|exact Ha].
  apply comboSaFold_noBar; [|exact Ha].
  apply Forall_forall. intros s Hs. apply (Hd row); [exact Hrow|].
  apply list_elem_of_In, Hs.
Qed.

(** X24. When no SA name of the data holds a vertical bar, the entry
    found under the key of an SA and a consultant carries these very
    names: two different pairs never share an entry, and the counts of
    the entry are counts of that pair. *)
Theorem combination_lookup (filters : Filters) (successThreshold : Q)
    (data : list Row) (sa consultant : string) (entry : Combo) :
  (forall row s, In row data -> In s (nameList (solutionArchitect row)) ->
                 allChars notBar s = true) ->
  allChars notBar sa = true ->
  saCombinations filters successThreshold data !! comboKey sa consultant
  = Some entry ->
  combo_sa entry = sa /\ combo_other entry = consultant
  /\ (1 <= combo_projects entry)%nat
  /\ (combo_successful entry <= combo_projects entry)%nat.
Proof.
  intros Hd Hsa He.
  destruct (saCombinations_sound filters successThreshold data _ _ He)
    as (Hk & H1 & H2).
  pose proof (saCombinations_noBar filters successThreshold data Hd _ _ He)
    as Hb. simpl in Hb.
  destruct (comboKey_split _ _ _ _ Hsa Hb Hk) as [-> ->]. auto.
Qed.

Lemma combination_lookup_witness :
  combo_sa samPair = "Sam Lee" /\ combo_other samPair = "Alice".
Proof.
  pose proof (combination_lookup noFilters (3 # 10) [samRow; samRow]
                "Sam Lee" "Alice" samPair) as H.
  destruct H as (H1 & H2 & _).
  - intros row s Hrow Hs.
    assert (E : row = samRow) by (destruct Hrow as [<- | [<- | []]]; reflexivity).
    subst row. vm_compute in Hs. destruct Hs as [<- | []]. reflexivity.
  - reflexivity.
  - reflexivity.
  - split; [exact H1 | exact H2].
Defined.

Lemma combination_entries_witness :
  (2 <= cmb_projects samPairMetric)%nat.
Proof.
  pose proof (combination_entries noFilters (3 # 10) [samRow; samRow]
                samPairMetric) as H.
  destruct H as (H1 & _).
  - left. vm_compute. left. reflexivity.
  - exact H1.
Defined.

(* ===================================================================== *)
(** * Filters from uploaded files and text fields *)
(* ===================================================================== *)

Lemma dedupeFrom_In (seen l : list string) (x : string) :
  In x (dedupeFrom seen l) <-> In x l /\ ~ In x seen.
Proof.
  revert seen. induction l as [|y l IH]; intros seen; simpl.
  - tauto.
  - destruct (existsb (String.eqb y) seen) eqn:E.
    + apply existsb_eqb_In in E. rewrite IH. split.
      * intros [H1 H2]. auto.
      * intros [[-> | H1] H2]; [contradiction | auto].
    + assert (Hy : ~ In y seen).
      { intros H. apply existsb_eqb_In in H. congruence. }
      simpl. rewrite IH. simpl. split.
      * intros [-> | [H1 H2]]; [auto|]. split; [auto|]. tauto.
      * intros [[-> | H1] H2]; [auto|].
        destruct (String.eqb_spec y x) as [-> | Hne]; [auto|].
        right. split; [exact H1|]. intros [H | H]; [congruence | contradiction].
Qed.

Lemma dedupeFrom_NoDup (seen l : list string) : NoDup (dedupeFrom seen l).
Proof.
  revert seen. induction l as [|y l IH]; intros seen; simpl.
  - constructor.
  - destruct (existsb (String.eqb y) seen); [apply IH|].
    constructor; [|apply IH].
    rewrite list_elem_of_In, dedupeFrom_In. intros [_ H]. apply H. left.
    reflexivity.
Qed.

Lemma dedupe_existsb (f : string -> bool) (l : list string) :
  existsb f (dedupe l) = existsb f l.
Proof.
  apply eq_true_iff_eq. rewrite !existsb_exists. unfold dedupe.
  split; intros (x & Hin & Hx); exists x; split; try exact Hx.
  - apply dedupeFrom_In in Hin. tauto.
  - apply dedupeFrom_In. split; [exact Hin | intros []].
Qed.

Lemma dedupe_nonempty (l : list string) : l <> [] -> dedupe l <> [].
Proof.
  destruct l as [|x l]; [congruence|]. intros _. unfold dedupe. simpl.
  discriminate.
Qed.

Lemma engineerLines_long (content line : string) :
  In line (engineerLines content) -> (1 < String.length line)%nat.
Proof.
  unfold engineerLines. rewrite filter_In. intros [_ H].
  apply andb_true_iff in H as [_ H]. apply Nat.ltb_lt, H.
Qed.

(** X25. The engineer filter built from an uploaded file, the cache and
    the text field is either absent, and then every consultant passes,
    or a list that is not empty, has no duplicate and holds only names
    longer than one character; removing the duplicates changes nothing
    to who passes.  A text field that is absent or blank adds no name. *)
Theorem engineers_filter_shape (uploaded : option string)
    (engineersCache : option (list string)) (engineersText : option string)
    (others : Filters) (name : string) :
  Forall (fun e => (1 < String.length e)%nat) (default [] engineersCache) ->
  let engineers := fst (loadEngineers uploaded engineersCache engineersText) in
  let filters :=
    {| filter_engineers := engineers;
       filter_solutionArchitects := filter_solutionArchitects others;
       filter_exclusions := filter_exclusions others |} in
  match engineers with
  | None => engineerFilterPasses filters name = true
  | Some l =>
      l <> [] /\ NoDup l /\ Forall (fun e => (1 < String.length e)%nat) l
      /\ engineerFilterPasses filters name
         = existsb (engineerMatches name)
             (default [] (snd (loadEngineers uploaded engineersCache
                                 engineersText))
              ++ textLines engineerLines engineersText)
  end
  /\ (isBlank (default EmptyString engineersText) = true ->
      textLines engineerLines engineersText = []).
Proof.
  intros Hcache engineers filters. split.
  - subst filters engineers. unfold loadEngineers. cbn [fst snd].
    set (cache := match uploaded with
                  | Some content => Some (engineerLines content)
                  | None => engineersCache
                  end).
    assert (Hc : Forall (fun e => (1 < String.length e)%nat) (default [] cache)).
    { unfold cache. destruct uploaded as [content|]; [|exact Hcache].
      apply Forall_forall. intros e He. apply list_elem_of_In in He.
      apply (engineerLines_long content), He. }
    assert (Ht : Forall (fun e => (1 < String.length e)%nat)
                   (textLines engineerLines engineersText)).
    { unfold textLines. destruct engineersText as [t|]; [|constructor].
      destruct (_ && _); [|constructor].
      apply Forall_forall. intros e He. apply list_elem_of_In in He.
      apply (engineerLines_long t), He. }
    destruct (default [] cache ++ textLines engineerLines engineersText)
      as [|x l] eqn:E.
    + reflexivity.
    + rewrite <- E. split; [apply dedupe_nonempty; rewrite E; discriminate|].
      split; [apply dedupeFrom_NoDup|]. split.
      * apply Forall_forall. intros e He. apply list_elem_of_In in He.
        unfold dedupe in He. apply dedupeFrom_In in He as [He _].
        assert (Hall : Forall (fun e => (1 < String.length e)%nat)
                         (default [] cache
                          ++ textLines engineerLines engineersText))
          by (apply Forall_app; auto).
        rewrite Forall_forall in Hall. apply Hall, list_elem_of_In, He.
      * unfold engineerFilterPasses. cbn [filter_engineers].
        destruct (dedupe _) as [|d ds] eqn:Ed.
        -- exfalso. revert Ed. apply dedupe_nonempty. rewrite E. discriminate.
        -- rewrite <- Ed. apply dedupe_existsb.
  - intros Hb. unfold textLines. destruct engineersText as [t|]; [|reflexivity].
    simpl in Hb. rewrite Hb, andb_false_r. reflexivity.
Qed.

Lemma engineers_filter_shape_witness :
  match fst (loadEngineers None None (Some "Jane  Doe")) with
  | None => True
  | Some l => l <> []
  end.
Proof.
  pose proof (engineers_filter_shape None None (Some "Jane  Doe") noFilters
                "Jane Doe") as H.
  destruct H as [H _]; [constructor|].
  destruct (fst (loadEngineers None None (Some "Jane  Doe"))); [|exact I].
  apply H.
Defined.



(** X27. A project whose status says closed or complete, with a positive
    budget and hours that are not negative, scores 1 exactly when the
    actual hours equal the budget, loses the relative distance of the
    hours from the budget otherwise, and scores 0 from twice the budget
    on. *)
Theorem closed_project_score (project : ProjectDetail) :
  statusDone (pd_status project) = true ->
  (0 < pd_budgetHrs project)%Q ->
  (0 <= pd_actualHrs project)%Q ->
  let budget := pd_budgetHrs project in
  let actual := pd_actualHrs project in
  (dasScore project == 1 <-> actual == budget)%Q
  /\ (actual <= budget -> dasScore project == actual / budget)%Q
  /\ (budget <= actual -> actual <= 2 * budget ->
      dasScore project == 2 - actual / budget)%Q
  /\ (2 * budget <= actual -> dasScore project == 0)%Q.
Proof.
  intros Hdone Hb Ha budget actual.
  assert (Hne : ~ (budget == 0)%Q) by (intros H; subst budget; lra).
  assert (Hstatus : pd_status project <> EmptyString).
  { intros E. rewrite E in Hdone. discriminate. }
  assert (Hr : completionRatioOf project = 1%Q).
  { unfold completionRatioOf. unfold statusDone in Hdone.
    destruct (is_empty (pd_status project)) eqn:Ee.
    - apply is_empty_spec in Ee. contradiction.
    - simpl. rewrite Hdone. reflexivity. }
  unfold dasScore. rewrite Hr. fold budget actual.
  set (r := (actual / budget)%Q).
  assert (Hrb : (r * budget == actual)%Q).
  { unfold r. field. exact Hne. }
  assert (Hr0 : (0 <= r)%Q).
  { unfold r. apply Qle_shift_div_l; [exact Hb|]. subst actual. lra. }
  assert (Hle : forall c : Q, (actual <= c * budget <-> r <= c)%Q).
  { intros c. rewrite <- Hrb. apply Qmult_le_r. exact Hb. }
  assert (Hge : forall c : Q, (c * budget <= actual <-> c <= r)%Q).
  { intros c. rewrite <- Hrb. apply Qmult_le_r. exact Hb. }
  assert (H1 : (actual == budget <-> r == 1)%Q).
  { split; intros H.
    - unfold r. rewrite H. field. exact Hne.
    - rewrite <- Hrb, H. ring. }
  assert (H2 : (actual <= budget <-> r <= 1)%Q).
  { rewrite <- Hle. setoid_replace (1 * budget)%Q with budget using relation Qeq by ring.
    reflexivity. }
  assert (H3 : (budget <= actual <-> 1 <= r)%Q).
  { rewrite <- Hge. setoid_replace (1 * budget)%Q with budget using relation Qeq by ring.
    reflexivity. }
  pose proof (Hge 2%Q) as H4. pose proof (Hle 2%Q) as H5.
  rewrite H1, H2, H3, H4, H5. clear H1 H2 H3 H4 H5 Hrb.
  generalize dependent r. intros r Hr0.
  destruct (Q.max_spec 0 (Qmin 1 (1 - Qabs (r - 1)))) as [[Hm ->] | [Hm ->]];
    destruct (Q.min_spec 1 (1 - Qabs (r - 1))) as [[Hn Hn'] | [Hn Hn']];
    rewrite Hn' in *; clear Hn';
    revert Hm Hn; apply Qabs_case; intros; repeat split; intros; lra.
Qed.

Lemma closed_project_score_witness :
  (dasScore (closedProject 100 100) == 1 <-> 100 == 100)%Q.
Proof.
  apply (closed_project_score (closedProject 100 100));
    [reflexivity | reflexivity | discriminate].
Defined.
